(** * SBOM generation engine of melange ([pkg/sbom/implementation.go])

    A shallow embedding of the generator implementation: the entity model
    (packages, files and relationships linked by pointers), the file
    scanner, the lowering of the entity graph into an SPDX document with
    its verification code, the merge of the build-environment SBOM and the
    writer; then the properties of these functions. The digests are the
    standard ones; what the file takes from other packages and libraries
    without looking inside is gathered in the class [Libs]. *)

From Stdlib Require Import ZArith Lia Ascii.
From stdpp Require Import base option list sorting strings gmap.

Local Open Scope Z_scope.

(** ** Outcomes of a call

    A call returns a value, returns a Go [error], panics (a method called
    through a nil interface) or is still running when the fuel that bounds
    the recursion depth is used up. *)
Inductive error : Type :=
  | errors_New (msg : string)
  | fmt_Errorf (msg : string) (cause : error)
  | lib_error (origin : string).

Inductive outcome (A : Type) : Type :=
  | Ret (a : A)
  | Fail (e : error)
  | Panic
  | OutOfFuel.
Arguments Ret {A} a.
Arguments Fail {A} e.
Arguments Panic {A}.
Arguments OutOfFuel {A}.

#[export] Instance outcome_ret : MRet outcome := λ A a, Ret a.
#[export] Instance outcome_bind : MBind outcome := λ A B k m,
  match m with
  | Ret a => k a
  | Fail e => Fail e
  | Panic => Panic
  | OutOfFuel => OutOfFuel
  end.

(** A [for ... range] loop whose body may stop the whole call. *)
Fixpoint forRange {A S} (body : S → A → outcome S) (s : S) (l : list A)
  : outcome S :=
  match l with
  | [] => Ret s
  | x :: l' => s' ← body s x; forRange body s' l'
  end.

(** ** Strings as byte sequences *)

(** Go strings are byte sequences and [sort.Strings] orders them bytewise;
    that is [String.le] (stdpp), a total order, so the sorted permutation of
    a list is unique and any sorting algorithm returns it. *)
Definition sort_Strings (l : list string) : list string :=
  merge_sort String.le l.

(** [strings.Join(l, "")] *)
Definition strings_Join (l : list string) : string :=
  foldr String.append "" l.

Definition bytes_of_string (s : string) : list Z :=
  (λ c, Z.of_N (Ascii.N_of_ascii c)) <$> String.list_ascii_of_string s.

(** Big-endian bytes of a word, and back. *)
Definition be_bytes (n : nat) (x : Z) : list Z :=
  (λ i, Z.land (Z.shiftr x (8 * Z.of_nat i)) 255) <$> rev (seq 0 n).

Definition be_word (bs : list Z) : Z :=
  foldl (λ acc b, Z.lor (Z.shiftl acc 8) b) 0 bs.

(** Split into groups of [n] items; [fuel] bounds the number of groups. *)
Fixpoint chunks {A} (fuel n : nat) (l : list A) : list (list A) :=
  match fuel, l with
  | O, _ | _, [] => []
  | S fuel', _ => take n l :: chunks fuel' n (drop n l)
  end.

(** ** [crypto/sha1] (FIPS 180-1), on 32-bit words held in [Z] *)
Module sha1.

Definition w32 (x : Z) : Z := x mod 2 ^ 32.

Definition rotl (n x : Z) : Z :=
  w32 (Z.lor (Z.shiftl x n) (Z.shiftr x (32 - n))).

(** Padding: a [0x80] byte, zero bytes up to 56 mod 64, then the bit
    length as a 64-bit big-endian integer. *)
Definition pad (msg : list Z) : list Z :=
  let len := Z.of_nat (length msg) in
  let zeros := Z.to_nat ((55 - len) mod 64) in
  msg ++ [128] ++ replicate zeros 0 ++ be_bytes 8 (8 * len).

Definition words_of_block (block : list Z) : list Z :=
  be_word <$> chunks 16 4 block.

(** Message schedule, most recent word first. *)
Fixpoint extend (n : nat) (ws : list Z) : list Z :=
  match n with
  | O => ws
  | S n' =>
      let x := Z.lxor (Z.lxor (ws !!! 2%nat) (ws !!! 7%nat))
                      (Z.lxor (ws !!! 13%nat) (ws !!! 15%nat)) in
      extend n' (rotl 1 x :: ws)
  end.

Definition schedule (block : list Z) : list Z :=
  rev (extend 64 (rev (words_of_block block))).

Definition f (t : nat) (b c d : Z) : Z :=
  if (t <? 20)%nat then Z.lor (Z.land b c) (Z.land (Z.lxor b 4294967295) d)
  else if (t <? 40)%nat then Z.lxor (Z.lxor b c) d
  else if (t <? 60)%nat then
    Z.lor (Z.lor (Z.land b c) (Z.land b d)) (Z.land c d)
  else Z.lxor (Z.lxor b c) d.

Definition k (t : nat) : Z :=
  if (t <? 20)%nat then 1518500249
  else if (t <? 40)%nat then 1859775393
  else if (t <? 60)%nat then 2400959708
  else 3395469782.

Definition state : Type := Z * Z * Z * Z * Z.

Definition round (s : state) (tw : nat * Z) : state :=
  let '(a, b, c, d, e) := s in
  let '(t, w) := tw in
  let temp := w32 (rotl 5 a + f t b c d + e + k t + w) in
  (temp, a, rotl 30 b, c, d).

Definition block_step (h : state) (block : list Z) : state :=
  let '(h0, h1, h2, h3, h4) := h in
  let '(a, b, c, d, e) :=
    foldl round h (zip (seq 0 80) (schedule block)) in
  (w32 (h0 + a), w32 (h1 + b), w32 (h2 + c), w32 (h3 + d), w32 (h4 + e)).

Definition init : state :=
  (1732584193, 4023233417, 2562383102, 271733878, 3285377520).

(** [h.Write(msg)]: the number of bytes taken and the error, which is
    always nil ("It never returns an error", [hash.Hash]). *)
Definition Write (msg : list Z) : nat * option error := (length msg, None).

(** [h.Sum(nil)] after writing [msg]: the 20 digest bytes. *)
Definition Sum (msg : list Z) : list Z :=
  let padded := pad msg in
  let '(h0, h1, h2, h3, h4) :=
    foldl block_step init (chunks (length padded) 64 padded) in
  be_bytes 4 h0 ++ be_bytes 4 h1 ++ be_bytes 4 h2 ++ be_bytes 4 h3
    ++ be_bytes 4 h4.

End sha1.

(** ** [crypto/sha256] and [crypto/sha512] (FIPS 180-4) *)
Module sha2.

(** The two members of the family the scanner uses differ in the word size,
    the number of rounds and the rotation amounts. *)
Record variant := {
  bits : Z;
  rounds : nat;
  Sigma0 : Z * Z * Z;
  Sigma1 : Z * Z * Z;
  sigma0 : Z * Z * Z;
  sigma1 : Z * Z * Z;
}.

Definition SHA256 : variant :=
  {| bits := 32; rounds := 64; Sigma0 := (2, 13, 22); Sigma1 := (6, 11, 25);
     sigma0 := (7, 18, 3); sigma1 := (17, 19, 10) |}.

Definition SHA512 : variant :=
  {| bits := 64; rounds := 80; Sigma0 := (28, 34, 39); Sigma1 := (14, 18, 41);
     sigma0 := (1, 8, 7); sigma1 := (19, 61, 6) |}.

Section variant.
Variable v : variant.

Definition word (x : Z) : Z := x mod 2 ^ bits v.

Definition rotr (n x : Z) : Z :=
  word (Z.lor (Z.shiftr x n) (Z.shiftl x (bits v - n))).

Definition big (r : Z * Z * Z) (x : Z) : Z :=
  let '(a, b, c) := r in Z.lxor (Z.lxor (rotr a x) (rotr b x)) (rotr c x).

Definition small (r : Z * Z * Z) (x : Z) : Z :=
  let '(a, b, c) := r in Z.lxor (Z.lxor (rotr a x) (rotr b x)) (Z.shiftr x c).

(** The constants are the leading fractional bits of the square roots (the
    initial state) and of the cube roots (the round constants) of the first
    primes. *)
Definition is_prime (n : Z) : bool :=
  forallb (λ d, negb (n mod Z.of_nat d =? 0))
          (seq 2 (Z.to_nat (Z.sqrt n) - 1)).

Definition primes (n : nat) : list Z :=
  take n (filter (λ p, is_prime p) (Z.of_nat <$> seq 2 420)).

(** The integer cube root, bit by bit from the top. *)
Definition cube_root (n : Z) : Z :=
  foldl (λ r i, let r' := r + 2 ^ Z.of_nat i in
                if r' * r' * r' <=? n then r' else r)
        0 (rev (seq 0 (Z.to_nat (bits v) + 4))).

Definition init : list Z :=
  (λ p, word (Z.sqrt (p * 2 ^ (2 * bits v)))) <$> primes 8.

Definition K : list Z :=
  (λ p, word (cube_root (p * 2 ^ (3 * bits v)))) <$> primes (rounds v).

Definition word_bytes : nat := Z.to_nat (bits v / 8).
Definition block_bytes : nat := (16 * word_bytes)%nat.

Definition pad (msg : list Z) : list Z :=
  let len := Z.of_nat (length msg) in
  let block := Z.of_nat block_bytes in
  let zeros := Z.to_nat ((block - 1 - 2 * Z.of_nat word_bytes - len) mod block) in
  msg ++ [128] ++ replicate zeros 0 ++ be_bytes (2 * word_bytes) (8 * len).

(** Message schedule, most recent word first. *)
Fixpoint extend (n : nat) (ws : list Z) : list Z :=
  match n with
  | O => ws
  | S n' =>
      let x := small (sigma1 v) (ws !!! 1%nat) + ws !!! 6%nat
               + small (sigma0 v) (ws !!! 14%nat) + ws !!! 15%nat in
      extend n' (word x :: ws)
  end.

Definition schedule (block : list Z) : list Z :=
  rev (extend (rounds v - 16)
              (rev (be_word <$> chunks 16 word_bytes block))).

Definition round (s : list Z) (kw : Z * Z) : list Z :=
  match s with
  | [a; b; c; d; e; f; g; h] =>
      let ch := Z.lxor (Z.land e f) (Z.land (Z.lxor e (2 ^ bits v - 1)) g) in
      let maj := Z.lxor (Z.lxor (Z.land a b) (Z.land a c)) (Z.land b c) in
      let t1 := h + big (Sigma1 v) e + ch + kw.1 + kw.2 in
      let t2 := big (Sigma0 v) a + maj in
      [word (t1 + t2); a; b; c; word (d + t1); e; f; g]
  | _ => s
  end.

Definition block_step (h : list Z) (block : list Z) : list Z :=
  zip_with (λ x y, word (x + y)) h
           (foldl round h (zip K (schedule block))).

Definition Sum (msg : list Z) : list Z :=
  let padded := pad msg in
  foldl block_step init (chunks (length padded) block_bytes padded)
    ≫= be_bytes word_bytes.

End variant.
End sha2.

(** [fmt.Sprintf("%x", bs)]: two lower-case hexadecimal digits per byte. *)
Definition hex_digit (n : Z) : Ascii.ascii :=
  if n <? 10 then Ascii.ascii_of_N (Z.to_N (48 + n))
  else Ascii.ascii_of_N (Z.to_N (87 + n)).

Definition hex_of_bytes (bs : list Z) : string :=
  foldr (λ b acc, String (hex_digit (b / 16)) (String (hex_digit (b mod 16)) acc))
        "" bs.

(** [computeVerificationCode] *)
Definition computeVerificationCode (hashList : list string) : string :=
  let hashList := sort_Strings hashList in
  let msg := bytes_of_string (strings_Join hashList) in
  match (sha1.Write msg).2 with
  | Some _ => ""
  | None => hex_of_bytes (sha1.Sum msg)
  end.

(** ** Entity model (package [sbom])

    [relationship] endpoints are interface values holding a [*pkg] or a
    [*file]; entities live in a store and an endpoint is an address in it.
    An address outside the store stands for the nil interface. *)
Abbreviation addr := nat (only parsing).

Module relationship.
Record t := mk { Source : addr; Target : addr; Type_ : string }.
End relationship.

Module pkg.
Record t := mk {
  FilesAnalyzed : bool;
  Name : string;
  Version : string;
  Relationships : list relationship.t;
  LicenseDeclared : string;
  LicenseConcluded : string;
  Copyright : string;
  Namespace : string;
  Arch : string;
  Checksums : gmap string string;
}.
End pkg.

Module file.
Record t := mk {
  Name : string;
  Checksums : gmap string string;
  Relationships : list relationship.t;
}.
End file.

Inductive element : Type :=
  | EPkg (p : pkg.t)
  | EFile (f : file.t).

Abbreviation heap := (list element) (only parsing).

Module bom.
Record t := mk { Packages : list pkg.t; Files : list file.t }.
End bom.

Module Spec.
Record t := mk {
  Path : string;
  PackageName : string;
  PackageVersion : string;
  License : string;
  Copyright : string;
  Namespace : string;
  Arch : string;
  BuildImageSBOM : string;
}.
End Spec.

(** ** Output schema (package [spdx] of apko) *)
Module spdx.

Definition NOASSERTION : string := "NOASSERTION".

Module Checksum.
Record t := mk { Algorithm : string; Value : string }.
End Checksum.

Module ExternalRef.
Record t := mk { Category : string; Locator : string; Type_ : string }.
End ExternalRef.

Module PackageVerificationCode.
Record t := mk { Value : string; ExcludedFiles : list string }.
End PackageVerificationCode.

Module Package.
Record t := mk {
  ID : string;
  Name : string;
  Version : string;
  FilesAnalyzed : bool;
  HasFiles : list string;
  LicenseConcluded : string;
  LicenseDeclared : string;
  DownloadLocation : string;
  LicenseInfoFromFiles : list string;
  CopyrightText : string;
  Checksums : list Checksum.t;
  ExternalRefs : list ExternalRef.t;
  VerificationCode : option PackageVerificationCode.t;
}.
End Package.

Module File.
Record t := mk {
  ID : string;
  Name : string;
  LicenseConcluded : string;
  FileTypes : list string;
  LicenseInfoInFile : list string;
  Checksums : list Checksum.t;
}.
End File.

Module Relationship.
Record t := mk { Element : string; Type_ : string; Related : string }.
End Relationship.

Module CreationInfo.
Record t := mk {
  Created : string;
  Creators : list string;
  LicenseListVersion : string;
}.
End CreationInfo.

Module Document.
Record t := mk {
  ID : string;
  Name : string;
  Version : string;
  CreationInfo : CreationInfo.t;
  DataLicense : string;
  Namespace : string;
  DocumentDescribes : list string;
  Files : list File.t;
  Packages : list Package.t;
  Relationships : list Relationship.t;
  ExternalDocumentRefs : list string;
}.

Definition set_DocumentDescribes (v : list string) (d : t) : t :=
  mk (ID d) (Name d) (Version d) (CreationInfo d) (DataLicense d)
     (Namespace d) v (Files d) (Packages d) (Relationships d)
     (ExternalDocumentRefs d).
Definition set_Files (v : list File.t) (d : t) : t :=
  mk (ID d) (Name d) (Version d) (CreationInfo d) (DataLicense d)
     (Namespace d) (DocumentDescribes d) v (Packages d) (Relationships d)
     (ExternalDocumentRefs d).
Definition set_Packages (v : list Package.t) (d : t) : t :=
  mk (ID d) (Name d) (Version d) (CreationInfo d) (DataLicense d)
     (Namespace d) (DocumentDescribes d) (Files d) v (Relationships d)
     (ExternalDocumentRefs d).
Definition set_Relationships (v : list Relationship.t) (d : t) : t :=
  mk (ID d) (Name d) (Version d) (CreationInfo d) (DataLicense d)
     (Namespace d) (DocumentDescribes d) (Files d) (Packages d) v
     (ExternalDocumentRefs d).
End Document.

End spdx.

(** ** Package URLs (package [packageurl-go]) *)
Module purl.
Record PackageURL := mk {
  Type_ : string;
  Namespace : string;
  Name : string;
  Version : string;
  Qualifiers : list (string * string);
  Subpath : string;
}.
Definition TypeOCI : string := "oci".
Definition NewPackageURL := mk.

(** What a call of [purl.FromString] does: it returns a package URL,
    returns an error, or panics. The parser indexes the value of a
    qualifier without checking that the qualifier has one. *)
Inductive result : Type :=
  | Parsed (pl : PackageURL)
  | Malformed (err : error)
  | Panics.
End purl.

(** ** What the file calls but does not define

    The identifier methods of the entity model, the path methods of [Spec]
    and the library functions whose results the file only passes on. *)
Class Libs := {
  pkg_ID : pkg.t → string;
  file_ID : file.t → string;
  Spec_BuildEnvSBOM : Spec.t → string;
  Spec_PackageSBOM : Spec.t → string;
  purl_FromString : string → purl.result;
  purl_ToString : purl.PackageURL → string;
  json_Unmarshal : string → option spdx.Document.t;
  json_Encode : spdx.Document.t → string;
  time_RFC3339 : Z → string;
  version_GitVersion : string;
}.

Definition element_ID `{Libs} (e : element) : string :=
  match e with
  | EPkg p => pkg_ID p
  | EFile f => file_ID f
  end.

(** [x.ID()] for an interface value [x]. *)
Definition ID_at `{Libs} (h : heap) (a : addr) : outcome string :=
  match h !! a with
  | Some e => Ret (element_ID e)
  | None => Panic
  end.

(** ** The environment of a run *)

(** [d.IsDir()] and [d.Type()] of a directory entry. *)
Inductive FileMode : Type := ModeDir | ModeSymlink | ModeRegular | ModeOther.

Record World := {
  (** [os.LookupEnv] *)
  w_environ : gmap string string;
  (** [time.Now()], in seconds since the epoch *)
  w_now : Z;
  (** contents of the readable files, by path *)
  w_files : gmap string string;
  (** [filepath.Abs]; [None] when it fails *)
  w_abs : string → option string;
  (** the entries [fs.WalkDir] hands to its callback, in walk order, by
      root; [None] when the walk reports an error *)
  w_walk : string → option (list (string * FileMode));
  (** whether [os.Create] succeeds on a path *)
  w_creatable : string → bool;
  (** [Some n]: writing to a created file fails after [n] bytes *)
  w_write_fault : option nat;
}.

(** ** [GenerateAPKPackage] *)
Definition GenerateAPKPackage (spec : Spec.t) : outcome pkg.t :=
  if String.eqb (Spec.PackageName spec) "" then
    Fail (errors_New "unable to generate package, name not specified")
  else
    let newPackage :=
      pkg.mk false (Spec.PackageName spec) (Spec.PackageVersion spec) []
             spdx.NOASSERTION spdx.NOASSERTION (Spec.Copyright spec)
             (Spec.Namespace spec) (Spec.Arch spec) ∅ in
    let newPackage :=
      if negb (String.eqb (Spec.License spec) "") then
        pkg.mk (pkg.FilesAnalyzed newPackage) (pkg.Name newPackage)
               (pkg.Version newPackage) (pkg.Relationships newPackage)
               (Spec.License spec) (pkg.LicenseConcluded newPackage)
               (pkg.Copyright newPackage) (pkg.Namespace newPackage)
               (pkg.Arch newPackage) (pkg.Checksums newPackage)
      else newPackage in
    Ret newPackage.

(** ** [getDirectoryTree]

    [fs.WalkDir] passes clean, slash-separated paths relative to the root;
    joining one to the separator prefixes it with the separator. *)
Definition getDirectoryTree (w : World) (dirPath : string)
  : outcome (list string) :=
  match w_walk w dirPath with
  | None => Fail (fmt_Errorf "buiding directory tree" (lib_error "fs.WalkDir"))
  | Some entries =>
      let fileList :=
        foldl (λ fileList '(path, d),
                 match d with
                 | ModeDir => fileList
                 | ModeSymlink => fileList
                 | _ => fileList ++ ["/" +:+ path]
                 end) [] entries in
      Ret (sort_Strings fileList)
  end.

(** ** [ScanFiles] *)

(** [filepath.Join(dirPath, path)] for an absolute [dirPath] and a [path]
    that starts with the separator. *)
Definition filepath_Join (dirPath path : string) : string :=
  if String.eqb dirPath "/" then path else dirPath +:+ path.

Definition hash_SHA1 (content : string) : string :=
  hex_of_bytes (sha1.Sum (bytes_of_string content)).

Definition hash_SHA256 (content : string) : string :=
  hex_of_bytes (sha2.Sum sha2.SHA256 (bytes_of_string content)).

Definition hash_SHA512 (content : string) : string :=
  hex_of_bytes (sha2.Sum sha2.SHA512 (bytes_of_string content)).

Definition hashers : list (string * (string → string)) :=
  [("SHA1", hash_SHA1); ("SHA256", hash_SHA256); ("SHA512", hash_SHA512)].

(** One unit of work: the file entity it stores and the errors it hands to
    [FirstErrorStore]. A digest that fails is recorded as the empty string.
    The order in which Go visits the three algorithms is unspecified; it
    only decides which error comes first. *)
Definition digestUnit (w : World) (dirPath path : string)
  : file.t * list error :=
  let step (acc : gmap string string * list error)
           (af : string * (string → string)) :=
    let '(algo, fn) := af in
    match w_files w !! filepath_Join dirPath path with
    | Some content => (<[algo := fn content]> acc.1, acc.2)
    | None =>
        (<[algo := ""]> acc.1,
         acc.2 ++ [fmt_Errorf ("hashing " +:+ algo +:+ " file " +:+ path)
                              (lib_error "hash")])
    end in
  let '(sums, errs) := foldl step (∅, []) hashers in
  (file.mk path sums [], errs).

(** The keyed store once every unit has run: [completion] is the order in
    which the units reach [files.Store]. *)
Definition storeAll (w : World) (dirPath : string)
    (completion : list string) : gmap string file.t * list error :=
  foldl (λ acc path,
           let '(f, errs) := digestUnit w dirPath path in
           (<[path := f]> acc.1, acc.2 ++ errs))
        (∅, []) completion.

Definition set_FilesAnalyzed (b : bool) (p : pkg.t) : pkg.t :=
  pkg.mk b (pkg.Name p) (pkg.Version p) (pkg.Relationships p)
         (pkg.LicenseDeclared p) (pkg.LicenseConcluded p) (pkg.Copyright p)
         (pkg.Namespace p) (pkg.Arch p) (pkg.Checksums p).

Definition append_Relationship (rel : relationship.t) (p : pkg.t) : pkg.t :=
  pkg.mk (pkg.FilesAnalyzed p) (pkg.Name p) (pkg.Version p)
         (pkg.Relationships p ++ [rel])
         (pkg.LicenseDeclared p) (pkg.LicenseConcluded p) (pkg.Copyright p)
         (pkg.Namespace p) (pkg.Arch p) (pkg.Checksums p).

(** The loop that adds the files into the package. Each target is the
    address of a variable of its own, so it is allocated at the end of the
    store. *)
Definition addScanned (files : gmap string file.t) (dirPackage : addr)
    (h : heap) (path : string) : heap :=
  match files !! path with
  | None => h
  | Some v =>
      let rel := relationship.mk dirPackage (length h) "CONTAINS" in
      match h !! dirPackage with
      | Some (EPkg p) =>
          <[dirPackage := EPkg (append_Relationship rel p)]> (h ++ [EFile v])
      | _ => h ++ [EFile v]
      end
  end.

(** [completion] and [rangeOrder] are the two places where the run is not
    determined by the program: the order in which the digesting units
    finish, and the order in which [files.Range] enumerates the keys. The
    store is returned next to the outcome, since [*dirPackage] is updated
    in place also when the call fails later. *)
Definition ScanFiles (w : World) (completion : list string)
    (rangeOrder : list string) (spec : Spec.t) (dirPackage : addr) (h : heap)
  : outcome unit * heap :=
  match w_abs w (Spec.Path spec) with
  | None =>
      (Fail (fmt_Errorf "getting absolute directory path"
                        (lib_error "filepath.Abs")), h)
  | Some dirPath =>
      match getDirectoryTree w dirPath with
      | Fail e => (Fail (fmt_Errorf "building directory tree" e), h)
      | Panic => (Panic, h)
      | OutOfFuel => (OutOfFuel, h)
      | Ret fileList =>
          match h !! dirPackage with
          | Some (EPkg p) =>
              let h := <[dirPackage := EPkg (set_FilesAnalyzed true p)]> h in
              let '(files, errs) := storeAll w dirPath completion in
              match errs with
              | e :: _ => (Fail e, h)
              | [] =>
                  let pathList := sort_Strings rangeOrder in
                  (Ret (), foldl (addScanned files dirPackage) h pathList)
              end
          | _ => (Panic, h)
          end
      end
  end.

(** ** Lowering the entity graph: [addPackage], [addFile] *)

(** The checksum map as a list sorted by algorithm name. The keys are
    collected in the map's iteration order and then sorted. *)
Definition checksumList (m : gmap string string) : list spdx.Checksum.t :=
  let algos := sort_Strings (map_to_list m).*1 in
  (λ algo, spdx.Checksum.mk algo (m !!! algo)) <$> algos.

(** One turn of the loop of [addPackage] that cycles the files: the
    accumulated [HasFiles], [hashList] and [excluded]. *)
Definition collectFile `{Libs} (h : heap)
    (acc : list string * list string * list string) (rel : relationship.t)
  : list string * list string * list string :=
  let '(hasFiles, hashList, excluded) := acc in
  match h !! relationship.Target rel with
  | Some (EFile f) =>
      let hasFiles := hasFiles ++ [file_ID f] in
      match file.Checksums f !! "SHA1" with
      | Some hsh => (hasFiles, hashList ++ [hsh], excluded)
      | None => (hasFiles, hashList, excluded ++ [file_ID f])
      end
  | _ => acc
  end.

Definition collectFiles `{Libs} (h : heap) (rels : list relationship.t)
  : list string * list string * list string :=
  foldl (collectFile h) ([], [], []) rels.

(** The package record [addPackage] appends to the document. *)
Definition spdxPackage `{Libs} (h : heap) (p : pkg.t) : spdx.Package.t :=
  let '(hasFiles, hashList, excluded) := collectFiles h (pkg.Relationships p) in
  let verificationCode := computeVerificationCode hashList in
  let hasCode := negb (String.eqb verificationCode "") in
  let externalRefs :=
    if negb (String.eqb (pkg.Namespace p) "") then
      let q := if negb (String.eqb (pkg.Arch p) "")
               then [("arch", pkg.Arch p)] else [] in
      [spdx.ExternalRef.mk "PACKAGE_MANAGER"
         (purl_ToString
            (purl.NewPackageURL "apk" (pkg.Namespace p) (pkg.Name p)
                                (pkg.Version p) q ""))
         "purl"]
    else [] in
  spdx.Package.mk
    (pkg_ID p) (pkg.Name p) (pkg.Version p)
    (if hasCode then true else false)
    hasFiles
    (pkg.LicenseConcluded p) (pkg.LicenseDeclared p)
    spdx.NOASSERTION [] (pkg.Copyright p)
    (checksumList (pkg.Checksums p))
    externalRefs
    (if hasCode then
       Some (spdx.PackageVerificationCode.mk verificationCode
               (if (0 <? length excluded)%nat then excluded else []))
     else None).

(** The file record [addFile] appends to the document. *)
Definition spdxFile `{Libs} (f : file.t) : spdx.File.t :=
  spdx.File.mk (file_ID f) (file.Name f) spdx.NOASSERTION [] []
               (checksumList (file.Checksums f)).

(** [sbomHasRelationship]; the conjunction is evaluated left to right and
    stops at the first false operand. *)
Fixpoint hasRelationship `{Libs} (h : heap)
    (rels : list spdx.Relationship.t) (bomRel : relationship.t)
  : outcome bool :=
  match rels with
  | [] => Ret false
  | spdxRel :: rels' =>
      s ← ID_at h (relationship.Source bomRel);
      if String.eqb (spdx.Relationship.Element spdxRel) s then
        t ← ID_at h (relationship.Target bomRel);
        if String.eqb (spdx.Relationship.Related spdxRel) t
           && String.eqb (spdx.Relationship.Type_ spdxRel)
                         (relationship.Type_ bomRel)
        then Ret true
        else hasRelationship h rels' bomRel
      else hasRelationship h rels' bomRel
  end.

Definition sbomHasRelationship `{Libs} (h : heap) (spdxDoc : spdx.Document.t)
    (bomRel : relationship.t) : outcome bool :=
  hasRelationship h (spdx.Document.Relationships spdxDoc) bomRel.

Definition appendRelationship `{Libs} (h : heap) (doc : spdx.Document.t)
    (rel : relationship.t) : outcome spdx.Document.t :=
  s ← ID_at h (relationship.Source rel);
  t ← ID_at h (relationship.Target rel);
  Ret (spdx.Document.set_Relationships
         (spdx.Document.Relationships doc
            ++ [spdx.Relationship.mk s (relationship.Type_ rel) t]) doc).

(** [fuel] bounds the depth of the recursion through relationship
    targets. *)
Fixpoint addPackage `{Libs} (fuel : nat) (h : heap) (doc : spdx.Document.t)
    (p : pkg.t) {struct fuel} : outcome spdx.Document.t :=
  match fuel with
  | O => OutOfFuel
  | S fuel' =>
      let doc :=
        spdx.Document.set_Packages
          (spdx.Document.Packages doc ++ [spdxPackage h p]) doc in
      forRange
        (λ doc rel,
           seen ← sbomHasRelationship h doc rel;
           if (seen : bool) then Ret doc
           else
             doc ← match h !! relationship.Target rel with
                   | Some (EFile v) => addFile fuel' h doc v
                   | Some (EPkg v) => addPackage fuel' h doc v
                   | None => Ret doc
                   end;
             appendRelationship h doc rel)
        doc (pkg.Relationships p)
  end
with addFile `{Libs} (fuel : nat) (h : heap) (doc : spdx.Document.t)
    (f : file.t) {struct fuel} : outcome spdx.Document.t :=
  match fuel with
  | O => OutOfFuel
  | S fuel' =>
      let doc :=
        spdx.Document.set_Files
          (spdx.Document.Files doc ++ [spdxFile f]) doc in
      forRange
        (λ doc rel,
           seen ← sbomHasRelationship h doc rel;
           if (seen : bool) then Ret doc
           else
             match h !! relationship.Target rel with
             | Some (EFile v) => addFile fuel' h doc v
             | Some (EPkg v) => addPackage fuel' h doc v
             | None => Ret doc
             end)
        doc (file.Relationships f)
  end.

(** ** [strconv.ParseInt(v, 10, 64)] *)
Definition digit_value (c : Ascii.ascii) : option Z :=
  let n := Z.of_N (Ascii.N_of_ascii c) in
  if (48 <=? n) && (n <=? 57) then Some (n - 48) else None.

Fixpoint parse_digits (acc : Z) (s : string) : option Z :=
  match s with
  | EmptyString => Some acc
  | String c s' =>
      match digit_value c with
      | Some d => parse_digits (10 * acc + d) s'
      | None => None
      end
  end.

Definition strconv_ParseInt (s : string) : option Z :=
  match s with
  | EmptyString => None
  | String c rest =>
      let '(neg, ds) :=
        if Ascii.eqb c "+"%char then (false, rest)
        else if Ascii.eqb c "-"%char then (true, rest)
        else (false, s) in
      match ds with
      | EmptyString => None
      | _ =>
          match parse_digits 0 ds with
          | None => None
          | Some n =>
              let v := if (neg : bool) then - n else n in
              if (- 2 ^ 63 <=? v) && (v <=? 2 ^ 63 - 1) then Some v else None
          end
      end
  end.

(** ** [buildDocumentSPDX] *)
Definition sbomTime `{Libs} (w : World) : outcome string :=
  match w_environ w !! "SOURCE_DATE_EPOCH" with
  | Some v =>
      match strconv_ParseInt v with
      | None =>
          Fail (fmt_Errorf "failed to parse SOURCE_DATE_EPOCH"
                           (lib_error "strconv.ParseInt"))
      | Some sec => Ret (time_RFC3339 sec)
      end
  | None => Ret (time_RFC3339 (w_now w))
  end.

Definition buildDocumentSPDX `{Libs} (fuel : nat) (w : World) (h : heap)
    (spec : Spec.t) (doc : bom.t) : outcome spdx.Document.t :=
  sbomTime ← sbomTime w;
  let name :=
    "apk-" +:+ Spec.PackageName spec +:+ "-" +:+ Spec.PackageVersion spec in
  let spdxDoc :=
    spdx.Document.mk
      ("SPDXRef-DOCUMENT-" +:+ name) name "SPDX-2.3"
      (spdx.CreationInfo.mk sbomTime
         ["Tool: melange (" +:+ version_GitVersion +:+ ")";
          "Organization: Chainguard, Inc"]
         "3.18")
      "CC0-1.0" "https://spdx.org/spdxdocs/chainguard/melange/"
      [] [] [] [] [] in
  spdxDoc ← forRange
    (λ spdxDoc p,
       addPackage fuel h
         (spdx.Document.set_DocumentDescribes
            (spdx.Document.DocumentDescribes spdxDoc ++ [pkg_ID p]) spdxDoc)
         p)
    spdxDoc (bom.Packages doc);
  forRange
    (λ spdxDoc f,
       addFile fuel h
         (spdx.Document.set_DocumentDescribes
            (spdx.Document.DocumentDescribes spdxDoc ++ [file_ID f]) spdxDoc)
         f)
    spdxDoc (bom.Files doc).

(** ** [ParseBuildSBOM] *)

(** The body of the loop over a package's external references. A panic
    of the parser is not recovered anywhere: it ends the call. *)
Definition spliceRef `{Libs} (p : spdx.Package.t)
    (ret : list spdx.Package.t) (e : spdx.ExternalRef.t)
  : outcome (list spdx.Package.t) :=
  if String.eqb (spdx.ExternalRef.Type_ e) "purl" then
    match purl_FromString (spdx.ExternalRef.Locator e) with
    | purl.Panics => Panic
    | purl.Malformed _ => Ret ret
    | purl.Parsed pl =>
        if String.eqb (purl.Type_ pl) purl.TypeOCI then Ret ret
        else Ret (ret ++ [p])
    end
  else Ret ret.

Definition nonOCIPackages `{Libs} (packages : list spdx.Package.t)
  : outcome (list spdx.Package.t) :=
  forRange (λ ret p,
              if (0 <? length (spdx.Package.ExternalRefs p))%nat
              then forRange (spliceRef p) ret (spdx.Package.ExternalRefs p)
              else Ret ret)
           [] packages.

Definition ParseBuildSBOM `{Libs} (w : World) (spec : Spec.t)
    (apkSBOM : spdx.Document.t) : outcome spdx.Document.t :=
  match w_files w !! Spec_BuildEnvSBOM spec with
  | None =>
      Fail (fmt_Errorf ("opening build environment SBOM from "
                          +:+ Spec_BuildEnvSBOM spec)
                       (lib_error "os.ReadFile"))
  | Some data =>
      match json_Unmarshal data with
      | None =>
          Fail (fmt_Errorf "unmarshaling build time SBOM"
                           (lib_error "json.Unmarshal"))
      | Some buildSBOM =>
          match spdx.Document.DocumentDescribes apkSBOM with
          | [] => Fail (errors_New "apk package sbom has no root elements")
          | rootId :: _ =>
              ret ← nonOCIPackages (spdx.Document.Packages buildSBOM);
              let apkSBOM :=
                spdx.Document.set_Packages
                  (spdx.Document.Packages apkSBOM ++ ret) apkSBOM in
              Ret (foldl
                     (λ apkSBOM p,
                        spdx.Document.set_Relationships
                          (spdx.Document.Relationships apkSBOM
                             ++ [spdx.Relationship.mk (spdx.Package.ID p)
                                   "BUILD_DEPENDENCY_OF" rootId])
                          apkSBOM)
                     apkSBOM ret)
          end
      end
  end.

(** ** [WriteSBOM]

    Returns the outcome and the files as the call leaves them. [os.Create]
    makes the file empty; the encoder then writes the document in one
    [Write]. *)
Definition WriteSBOM `{Libs} (fuel : nat) (w : World) (h : heap)
    (spec : Spec.t) (doc : bom.t) : outcome unit * gmap string string :=
  match buildDocumentSPDX fuel w h spec doc with
  | Fail e => (Fail (fmt_Errorf "building SPDX document" e), w_files w)
  | Panic => (Panic, w_files w)
  | OutOfFuel => (OutOfFuel, w_files w)
  | Ret spdxDoc =>
      match ParseBuildSBOM w spec spdxDoc with
      | Fail e =>
          (Fail (fmt_Errorf "parsing build environment SBOM" e), w_files w)
      | Panic => (Panic, w_files w)
      | OutOfFuel => (OutOfFuel, w_files w)
      | Ret spdxDoc =>
          if w_creatable w (Spec_PackageSBOM spec) then
            let data := json_Encode spdxDoc in
            match w_write_fault w with
            | Some n =>
                (Fail (fmt_Errorf "encoding spdx sbom"
                                  (lib_error "json.Encoder")),
                 <[Spec_PackageSBOM spec := String.substring 0 n data]>
                   (w_files w))
            | None =>
                (Ret (), <[Spec_PackageSBOM spec := data]> (w_files w))
            end
          else
            (Fail (fmt_Errorf "opening SBOM file for writing"
                              (lib_error "os.Create")),
             w_files w)
      end
  end.

(** ** [GenerateDocument] *)
Definition GenerateDocument (spec : Spec.t) : outcome bom.t :=
  Ret (bom.mk [] []).

(** ** [CopyBuildSBOM]

    [join] stands for [filepath.Join]. [os.WriteFile] creates or truncates
    the file and writes the data in one [Write]. Returns the outcome and the
    files as the call leaves them. *)
Definition CopyBuildSBOM `{Libs} (join : string → string → string)
    (w : World) (spec : Spec.t) : outcome unit * gmap string string :=
  match w_files w !! join (Spec.BuildImageSBOM spec)
                          ("sbom-" +:+ Spec.Arch spec +:+ ".spdx.json") with
  | None =>
      (Fail (fmt_Errorf ("reading build environment SBOM from "
                           +:+ Spec.BuildImageSBOM spec)
                        (lib_error "os.ReadFile")),
       w_files w)
  | Some data =>
      if w_creatable w (Spec_BuildEnvSBOM spec) then
        match w_write_fault w with
        | Some n =>
            (Fail (fmt_Errorf "writing build sbom to apk"
                              (lib_error "os.WriteFile")),
             <[Spec_BuildEnvSBOM spec := String.substring 0 n data]>
               (w_files w))
        | None => (Ret (), <[Spec_BuildEnvSBOM spec := data]> (w_files w))
        end
      else
        (Fail (fmt_Errorf "writing build sbom to apk"
                          (lib_error "os.WriteFile")),
         w_files w)
  end.

(** ** An instance of the interface, to run the functions on examples

    It agrees with the libraries it stands for on what the examples rely
    on: a package URL [pkg:type/...] has type [type], and one with a
    qualifier that has no [=] makes the parser panic; the time stamp is the
    RFC 3339 rendering in UTC for years 0 to 9999. Decoding is given by a
    finite table from file contents to documents. *)
Module Sample.

Definition digit (n : Z) : string :=
  String (Ascii.ascii_of_N (Z.to_N (48 + n mod 10))) EmptyString.

Definition dec2 (n : Z) : string := digit (n / 10) +:+ digit n.

Definition dec4 (n : Z) : string := dec2 (n / 100) +:+ dec2 (n mod 100).

Fixpoint decimal (fuel : nat) (n : Z) : string :=
  match fuel with
  | O => ""
  | S fuel' =>
      if n <? 10 then digit n else decimal fuel' (n / 10) +:+ digit n
  end.

(** Days since 1970-01-01 to (year, month, day) in the proleptic
    Gregorian calendar. *)
Definition civil (days : Z) : Z * Z * Z :=
  let z := days + 719468 in
  let era := z / 146097 in
  let doe := z mod 146097 in
  let yoe := (doe - doe / 1460 + doe / 36524 - doe / 146096) / 365 in
  let doy := doe - (365 * yoe + yoe / 4 - yoe / 100) in
  let mp := (5 * doy + 2) / 153 in
  let d := doy - (153 * mp + 2) / 5 + 1 in
  let m := if mp <? 10 then mp + 3 else mp - 9 in
  let y := yoe + era * 400 in
  (if m <=? 2 then y + 1 else y, m, d).

Definition RFC3339 (sec : Z) : string :=
  let '(y, m, d) := civil (sec / 86400) in
  let s := sec mod 86400 in
  dec4 y +:+ "-" +:+ dec2 m +:+ "-" +:+ dec2 d +:+ "T"
    +:+ dec2 (s / 3600) +:+ ":" +:+ dec2 (s mod 3600 / 60) +:+ ":"
    +:+ dec2 (s mod 60) +:+ "Z".

(** The text before the first occurrence of [c], and the text after it. *)
Fixpoint cut (c : Ascii.ascii) (s : string) : option (string * string) :=
  match s with
  | EmptyString => None
  | String x s' =>
      if Ascii.eqb x c then Some ("", s')
      else match cut c s' with
           | Some (a, b) => Some (String x a, b)
           | None => None
           end
  end.

(** The items of a text separated by [c]. *)
Fixpoint split (c : Ascii.ascii) (s : string) : list string :=
  match s with
  | EmptyString => [""]
  | String x s' =>
      match split c s' with
      | item :: items =>
          if Ascii.eqb x c then "" :: item :: items
          else String x item :: items
      | [] => []
      end
  end.

(** The qualifiers, the text after [?], are read first, item by item: an
    item with a key and no [=] makes the parser index past the end of the
    pair, and it panics. The scheme and the type are read after that. *)
Definition FromString (s : string) : purl.result :=
  let '(remainder, items) :=
    match cut "?" s with
    | Some (remainder, qualifier) => (remainder, split "&" qualifier)
    | None => (s, [])
    end in
  if existsb (λ item, negb (String.eqb item "")
                      && negb (bool_decide (is_Some (cut "=" item)))) items
  then purl.Panics
  else
    match cut ":" remainder with
    | Some (scheme, rest) =>
        if String.eqb scheme "pkg" then
          match cut "/" rest with
          | Some (type, rest') => purl.Parsed (purl.mk type "" rest' "" [] "")
          | None => purl.Malformed (errors_New "type is missing")
          end
        else purl.Malformed (errors_New "scheme is missing")
    | None => purl.Malformed (errors_New "scheme is missing")
    end.

Definition ToString (p : purl.PackageURL) : string :=
  "pkg:" +:+ purl.Type_ p +:+ "/" +:+ purl.Namespace p +:+ "/"
    +:+ purl.Name p +:+ "@" +:+ purl.Version p
    +:+ foldr (λ kv acc, "?" +:+ kv.1 +:+ "=" +:+ kv.2 +:+ acc) ""
              (purl.Qualifiers p).

Definition Encode (d : spdx.Document.t) : string :=
  "{SPDXID: " +:+ spdx.Document.ID d +:+ ", packages: "
    +:+ decimal 20 (Z.of_nat (length (spdx.Document.Packages d)))
    +:+ ", files: "
    +:+ decimal 20 (Z.of_nat (length (spdx.Document.Files d)))
    +:+ ", relationships: "
    +:+ decimal 20 (Z.of_nat (length (spdx.Document.Relationships d)))
    +:+ "}".

(** Modelled from the spec: the identifier methods of [pkg] and [file] and
    the path methods of [Spec] are declared outside this file. The
    specification derives a package's identifier from its semantic fields
    (here its name and version), a file's from its path, and names the
    output documents after the package, under the work directory. *)
Definition libs (decode : gmap string spdx.Document.t) : Libs := {|
  pkg_ID p := "SPDXRef-Package-" +:+ pkg.Name p +:+ "-" +:+ pkg.Version p;
  file_ID f := "SPDXRef-File-" +:+ file.Name f;
  Spec_BuildEnvSBOM spec := Spec.Path spec +:+ "/var/lib/db/sbom/sbom-build.spdx.json";
  Spec_PackageSBOM spec :=
    Spec.Path spec +:+ "/var/lib/db/sbom/" +:+ Spec.PackageName spec +:+ "-"
      +:+ Spec.PackageVersion spec +:+ ".spdx.json";
  purl_FromString := FromString;
  purl_ToString := ToString;
  json_Unmarshal data := decode !! data;
  json_Encode := Encode;
  time_RFC3339 := RFC3339;
  version_GitVersion := "devel";
|}.

(** Data of the examples: a package that contains three files, the last
    of them without a SHA-1 digest. *)
Definition sha1_abc : string := "a9993e364706816aba3e25717850c26c9cd0d89d".
Definition sha1_fox : string := "2fd4e1c67a2d28fced849ee1bb76e7391b93eb12".

Definition hello : file.t :=
  file.mk "/usr/bin/hello" {[ "SHA1" := sha1_fox ]} [].
Definition readme : file.t :=
  file.mk "/usr/share/doc/README" {[ "SHA1" := sha1_abc ]} [].
Definition fifo : file.t :=
  file.mk "/var/run/hello.fifo"
          {[ "SHA256" := "e3b0c44298fc1c149afbf4c8996fb92427ae41e4649b934ca495991b7852b855" ]}
          [].

Definition contains (source target : addr) : relationship.t :=
  relationship.mk source target "CONTAINS".

Definition root (rels : list relationship.t) : pkg.t :=
  pkg.mk true "hello" "2.12-r0" rels "GPL-3.0-or-later" "NOASSERTION" ""
         "wolfi" "x86_64" ∅.

Definition rels123 : list relationship.t :=
  [contains 0 1; contains 0 2; contains 0 3].

Definition store : heap :=
  [EPkg (root rels123); EFile hello; EFile readme; EFile fifo].

Definition blank : spdx.Document.t :=
  spdx.Document.mk "SPDXRef-DOCUMENT-apk-hello-2.12-r0" "apk-hello-2.12-r0"
    "SPDX-2.3" (spdx.CreationInfo.mk "1970-01-01T00:00:00Z" [] "3.18")
    "CC0-1.0" "https://spdx.org/spdxdocs/chainguard/melange/" [] [] [] [] [].

(** A build of [hello]: its work directory, the build-environment SBOM in
    it, and the run's environment. *)
Definition spec : Spec.t :=
  Spec.mk "/work" "hello" "2.12-r0" "GPL-3.0-or-later" "" "wolfi" "x86_64"
          "/sbom".

Definition purl_ref (locator : string) : spdx.ExternalRef.t :=
  spdx.ExternalRef.mk "PACKAGE_MANAGER" locator "purl".

Definition upstream (id name : string) (refs : list spdx.ExternalRef.t)
  : spdx.Package.t :=
  spdx.Package.mk id name "1.2.3-r0" false [] "NOASSERTION" "MIT"
                  "NOASSERTION" [] "" [] refs None.

Definition musl : spdx.Package.t :=
  upstream "SPDXRef-Package-musl" "musl" [purl_ref "pkg:apk/alpine/musl@1.2.3-r0"].
Definition image : spdx.Package.t :=
  upstream "SPDXRef-Package-image" "alpine" [purl_ref "pkg:oci/alpine@sha256:0"].
Definition broken : spdx.Package.t :=
  upstream "SPDXRef-Package-broken" "broken" [purl_ref "broken-1.0"].
(** An upstream package with two package URLs, with and without the
    architecture qualifier. *)
Definition busybox : spdx.Package.t :=
  upstream "SPDXRef-Package-busybox" "busybox"
    [purl_ref "pkg:apk/alpine/busybox@1.35.0-r29";
     purl_ref "pkg:apk/alpine/busybox@1.35.0-r29?arch=x86_64"].

Definition buildDocument (packages : list spdx.Package.t) : spdx.Document.t :=
  spdx.Document.mk "SPDXRef-DOCUMENT" "sbom-build" "SPDX-2.3"
    (spdx.CreationInfo.mk "1970-01-01T00:00:00Z" [] "3.18") "CC0-1.0"
    "https://spdx.org/spdxdocs/apko/" [] [] packages [] [].

(** An upstream package whose package URL has a qualifier without a
    value. *)
Definition odd : spdx.Package.t :=
  upstream "SPDXRef-Package-odd" "odd" [purl_ref "pkg:apk/alpine/odd@1.0?arch"].

Definition buildEnvPath : string := "/work/var/lib/db/sbom/sbom-build.spdx.json".
Definition buildEnvData : string := "{spdxVersion: SPDX-2.3, packages: 3}".
Definition busyboxData : string := "{spdxVersion: SPDX-2.3, packages: 1}".
Definition oddData : string := "{spdxVersion: SPDX-2.3, packages: [odd]}".

(** The instance that decodes the build-environment SBOMs of the
    examples. *)
Definition decoding : Libs :=
  libs {[ buildEnvData := buildDocument [musl; image; broken];
          busyboxData := buildDocument [busybox];
          oddData := buildDocument [odd] ]}.

Definition world (epoch : option string) (buildEnv : option string)
    (fault : option nat) : World := {|
  w_environ := match epoch with
               | Some v => {[ "SOURCE_DATE_EPOCH" := v ]}
               | None => ∅
               end;
  w_now := 1667433600;
  w_files := match buildEnv with
             | Some data => {[ buildEnvPath := data ]}
             | None => ∅
             end;
  w_abs path := Some path;
  w_walk root := None;
  w_creatable path := true;
  w_write_fault := fault;
|}.

Definition hello_bom : bom.t := bom.mk [root rels123] [].

(** A package that records a relationship whose source is another entity:
    the file [hello] is generated from the source package [hello-src], which
    is not part of the graph that is lowered. *)
Definition named (name : string) (rels : list relationship.t) : pkg.t :=
  pkg.mk false name "1.0" rels "NOASSERTION" "NOASSERTION" "" "" "" ∅.

Definition foreign_store : heap := [EPkg (named "hello-src" []); EFile hello].

Definition foreign_bom : bom.t :=
  bom.mk [named "hello" [relationship.mk 0 1 "GENERATES"]] [].

(** The source package is a top-level element too. *)
Definition two_bom : bom.t :=
  bom.mk [named "hello-src" []; named "hello" [relationship.mk 0 1 "GENERATES"]]
         [].

(** A package that depends on a package that contains a file. *)
Definition chain_store : heap :=
  [EPkg (named "app" [relationship.mk 0 1 "DEPENDS_ON"]);
   EPkg (named "lib" [relationship.mk 1 2 "CONTAINS"]);
   EFile hello].

Definition chain_bom : bom.t :=
  bom.mk [named "app" [relationship.mk 0 1 "DEPENDS_ON"]] [].

(** Two packages that depend on each other, held as values: [app] depends
    on [lib], whose dependency is a copy of [app], whose dependency is a
    copy of [lib]. Every relationship has its owner as source. *)
Definition depends (source target : addr) : relationship.t :=
  relationship.mk source target "DEPENDS_ON".

Definition mutual_store : heap :=
  [EPkg (named "app" [depends 0 1]);
   EPkg (named "lib" [depends 1 2]);
   EPkg (named "app" [depends 2 3]);
   EPkg (named "lib" [])].

Definition mutual_bom : bom.t := bom.mk [named "app" [depends 0 1]] [].

(** The tree of the work directory as [fs.WalkDir] visits it, with a
    symbolic link next to the two regular files. *)
Definition tree : list (string * FileMode) :=
  [(".", ModeDir); ("usr", ModeDir); ("usr/bin", ModeDir);
   ("usr/bin/hello", ModeRegular); ("usr/bin/hi", ModeSymlink);
   ("usr/share", ModeDir); ("usr/share/doc", ModeDir);
   ("usr/share/doc/README", ModeRegular)].

Definition scan_world : World := {|
  w_environ := {[ "SOURCE_DATE_EPOCH" := "1667433600" ]};
  w_now := 1700000000;
  w_files := {[ "/work/usr/bin/hello" := "The quick brown fox jumps over the lazy dog";
                "/work/usr/share/doc/README" := "abc";
                "/work/var/lib/db/sbom/sbom-build.spdx.json"
                  := "{spdxVersion: SPDX-2.3, packages: 3}" ]};
  w_abs path := Some path;
  w_walk root := if String.eqb root "/work" then Some tree else None;
  w_creatable path := true;
  w_write_fault := None;
|}.

(** The package [GenerateAPKPackage] builds for [spec]. *)
Definition apk : pkg.t :=
  pkg.mk false "hello" "2.12-r0" [] "GPL-3.0-or-later" "NOASSERTION" ""
         "wolfi" "x86_64" ∅.

(** A work directory whose tree lists a file that cannot be read. *)
Definition unreadable_world : World := {|
  w_environ := ∅;
  w_now := 1700000000;
  w_files := {[ "/work/usr/bin/hello" := "The quick brown fox jumps over the lazy dog" ]};
  w_abs path := Some path;
  w_walk root := if String.eqb root "/work" then Some tree else None;
  w_creatable path := true;
  w_write_fault := None;
|}.

(** [filepath.Join] on a clean directory and a file name. *)
Definition join (dir name : string) : string := dir +:+ "/" +:+ name.

(** The build image holds the SBOM of the build environment; the work
    directory does not yet. *)
Definition image_world : World := {|
  w_environ := ∅;
  w_now := 1700000000;
  w_files := {[ "/sbom/sbom-x86_64.spdx.json" := buildEnvData ]};
  w_abs path := Some path;
  w_walk root := None;
  w_creatable path := true;
  w_write_fault := None;
|}.

(** A file that records a relationship to another file. *)
Definition link : file.t :=
  file.mk "/usr/bin/hi" ∅ [relationship.mk 0 1 "DEPENDS_ON"].

Definition linked_store : heap := [EFile link; EFile hello].

(** The instance with an empty decoding table. *)
Definition plain : Libs := libs ∅.

(** The value a call returned. *)
Definition returned {A} (default : A) (o : outcome A) : A :=
  match o with
  | Ret a => a
  | _ => default
  end.

(** The store and the package after the scan of the work directory. *)
Definition scanned_store : heap :=
  Eval vm_compute in
    (ScanFiles scan_world
       ["/usr/share/doc/README"; "/usr/bin/hello"]
       ["/usr/share/doc/README"; "/usr/bin/hello"] spec 0 [EPkg apk]).2.

Definition scanned_apk : pkg.t :=
  Eval vm_compute in
    match scanned_store !! 0%nat with
    | Some (EPkg p) => p
    | _ => apk
    end.

End Sample.


(** ** Notions the statements are phrased in *)

(** The SHA-1 digests of the file targets of a relationship list, in the
    order of the list. *)
Definition fileDigests (h : heap) (rels : list relationship.t) : list string :=
  omap (λ rel,
          match h !! relationship.Target rel with
          | Some (EFile f) => file.Checksums f !! "SHA1"
          | _ => None
          end) rels.

(** The identifiers of the file targets that have no SHA-1 digest. *)
Definition filesWithoutDigest `{Libs} (h : heap) (rels : list relationship.t)
  : list string :=
  omap (λ rel,
          match h !! relationship.Target rel with
          | Some (EFile f) =>
              match file.Checksums f !! "SHA1" with
              | Some _ => None
              | None => Some (file_ID f)
              end
          | _ => None
          end) rels.

(** The identifiers of all file targets. *)
Definition fileTargets `{Libs} (h : heap) (rels : list relationship.t)
  : list string :=
  omap (λ rel,
          match h !! relationship.Target rel with
          | Some (EFile f) => Some (file_ID f)
          | _ => None
          end) rels.

(** The value of the verification code of a package record, if any. *)
Definition codeValue (p : spdx.Package.t) : option string :=
  spdx.PackageVerificationCode.Value <$> spdx.Package.VerificationCode p.

(** A reference that splices its package: a package URL that parses and
    whose type is not the container-image type. *)
Definition keepsRef `{Libs} (e : spdx.ExternalRef.t) : bool :=
  String.eqb (spdx.ExternalRef.Type_ e) "purl"
  && match purl_FromString (spdx.ExternalRef.Locator e) with
     | purl.Parsed pl => negb (String.eqb (purl.Type_ pl) purl.TypeOCI)
     | _ => false
     end.

(** A reference on which the merge panics: a package URL on which the
    parser panics. *)
Definition panicsOn `{Libs} (e : spdx.ExternalRef.t) : bool :=
  String.eqb (spdx.ExternalRef.Type_ e) "purl"
  && match purl_FromString (spdx.ExternalRef.Locator e) with
     | purl.Panics => true
     | _ => false
     end.

(** The upstream packages the merge splices: each one once for each of its
    references that keeps it. *)
Definition splicedPackages `{Libs} (packages : list spdx.Package.t)
  : list spdx.Package.t :=
  packages
    ≫= (λ p, (λ _, p) <$> filter keepsRef (spdx.Package.ExternalRefs p)).

(** The relationship that links a spliced package to the root. *)
Definition buildDependency (rootId : string) (p : spdx.Package.t)
  : spdx.Relationship.t :=
  spdx.Relationship.mk (spdx.Package.ID p) "BUILD_DEPENDENCY_OF" rootId.

(** The identifiers of the package and file records of a document. *)
Definition recordIDs (d : spdx.Document.t) : list string :=
  (spdx.Package.ID <$> spdx.Document.Packages d)
    ++ (spdx.File.ID <$> spdx.Document.Files d).

(** Every relationship of the document is between identifiers of its
    records. *)
Definition relationshipsResolve (d : spdx.Document.t) : Prop :=
  ∀ r, r ∈ spdx.Document.Relationships d →
       spdx.Relationship.Element r ∈ recordIDs d
       ∧ spdx.Relationship.Related r ∈ recordIDs d.

(** No dangling reference: relationships and described roots resolve. *)
Definition noDangling (d : spdx.Document.t) : Prop :=
  relationshipsResolve d
  ∧ ∀ i, i ∈ spdx.Document.DocumentDescribes d → i ∈ recordIDs d.

(** The relationships recorded on a package have that package as source:
    the source is an entity with the identifier [owner]. *)
Definition sourcesAre `{Libs} (h : heap) (owner : string)
    (rels : list relationship.t) : Prop :=
  ∀ rel s, rel ∈ rels → h !! relationship.Source rel = Some s →
           element_ID s = owner.

Definition sourcesOwned `{Libs} (h : heap) (doc : bom.t) : Prop :=
  (∀ p, p ∈ bom.Packages doc → sourcesAre h (pkg_ID p) (pkg.Relationships p))
  ∧ (∀ a p, h !! a = Some (EPkg p) →
            sourcesAre h (pkg_ID p) (pkg.Relationships p)).

(** The file entity a digesting unit stores for a path. *)
Definition scannedFile (w : World) (dirPath path : string) : file.t :=
  (digestUnit w dirPath path).1.

(** One "CONTAINS" relationship from [dirPackage] to each of the [n]
    addresses that follow [base]. *)
Definition containsRels (dirPackage base : addr) (n : nat)
  : list relationship.t :=
  (λ target, relationship.mk dirPackage target "CONTAINS") <$> seq base n.

(** The package once its files are analyzed and [rels] are appended. *)
Definition withScanned (p : pkg.t) (rels : list relationship.t) : pkg.t :=
  pkg.mk true (pkg.Name p) (pkg.Version p) (pkg.Relationships p ++ rels)
         (pkg.LicenseDeclared p) (pkg.LicenseConcluded p) (pkg.Copyright p)
         (pkg.Namespace p) (pkg.Arch p) (pkg.Checksums p).

(** The store after a scan that found [paths]: the file entities are
    allocated after the entities of [h], in the order of [paths], and the
    package at [dirPackage] points to them. *)
Definition scanned (w : World) (dirPath : string) (dirPackage : addr)
    (p : pkg.t) (h : heap) (paths : list string) : heap :=
  <[dirPackage := EPkg (withScanned p
                          (containsRels dirPackage (length h) (length paths)))]>
    (h ++ (EFile ∘ scannedFile w dirPath <$> paths)).

(** The relationships recorded on an entity. *)
Definition element_Relationships (e : element) : list relationship.t :=
  match e with
  | EPkg p => pkg.Relationships p
  | EFile f => file.Relationships f
  end.

(** [bounded h n e]: every relationship reachable from [e] through targets
    has a source and a target in the store, and the chains of targets that
    start at [e] have fewer than [n] links. *)
Fixpoint bounded (h : heap) (n : nat) (e : element) : Prop :=
  match n with
  | O => False
  | S n' =>
      ∀ rel, rel ∈ element_Relationships e →
             ∃ s t, h !! relationship.Source rel = Some s
                    ∧ h !! relationship.Target rel = Some t
                    ∧ bounded h n' t
  end.

(** The error [WriteSBOM] returns when the encoder fails. *)
Definition encodingFailed : error :=
  fmt_Errorf "encoding spdx sbom" (lib_error "json.Encoder").

(** [d'] has the header of [d] and extends its three lists. *)
Record extends (d d' : spdx.Document.t) : Prop := {
  ext_ID : spdx.Document.ID d' = spdx.Document.ID d;
  ext_Name : spdx.Document.Name d' = spdx.Document.Name d;
  ext_Version : spdx.Document.Version d' = spdx.Document.Version d;
  ext_CreationInfo :
    spdx.Document.CreationInfo d' = spdx.Document.CreationInfo d;
  ext_DataLicense : spdx.Document.DataLicense d' = spdx.Document.DataLicense d;
  ext_Namespace : spdx.Document.Namespace d' = spdx.Document.Namespace d;
  ext_DocumentDescribes :
    spdx.Document.DocumentDescribes d' = spdx.Document.DocumentDescribes d;
  ext_ExternalDocumentRefs :
    spdx.Document.ExternalDocumentRefs d'
    = spdx.Document.ExternalDocumentRefs d;
  ext_Packages :
    spdx.Document.Packages d `prefix_of` spdx.Document.Packages d';
  ext_Files : spdx.Document.Files d `prefix_of` spdx.Document.Files d';
  ext_Relationships :
    spdx.Document.Relationships d `prefix_of` spdx.Document.Relationships d';
}.

(** An entry of the walk that [getDirectoryTree] keeps: neither a directory
    nor a symbolic link. *)
Definition keptEntry (e : string * FileMode) : bool :=
  match e.2 with
  | ModeDir | ModeSymlink => false
  | _ => true
  end.

(** A lower-case hexadecimal digit. *)
Definition is_lower_hex (c : Ascii.ascii) : bool :=
  let n := Z.of_N (Ascii.N_of_ascii c) in
  ((48 <=? n) && (n <=? 57)) || ((97 <=? n) && (n <=? 102)).

(** The SHA-1 digest a digesting unit records for a path: that of the
    file's content, or the empty string when the file cannot be read. *)
Definition scannedSHA1 (w : World) (dirPath path : string) : string :=
  match w_files w !! filepath_Join dirPath path with
  | Some content => hash_SHA1 content
  | None => ""
  end.

(** The run's environment once a call has left [files] behind. *)
Definition with_files (w : World) (files : gmap string string) : World := {|
  w_environ := w_environ w;
  w_now := w_now w;
  w_files := files;
  w_abs := w_abs w;
  w_walk := w_walk w;
  w_creatable := w_creatable w;
  w_write_fault := w_write_fault w;
|}.

(** The record [appendRelationship] appends for a relationship, when both
    of its endpoints are in the store. *)
Definition relationshipRecord `{Libs} (h : heap) (rel : relationship.t)
  : option spdx.Relationship.t :=
  s ← h !! relationship.Source rel;
  t ← h !! relationship.Target rel;
  Some (spdx.Relationship.mk (element_ID s) (relationship.Type_ rel)
                             (element_ID t)).

(** The file records of the file targets of [rels]. *)
Definition targetRecords `{Libs} (h : heap) (rels : list relationship.t)
  : list spdx.File.t :=
  omap (λ rel,
          match h !! relationship.Target rel with
          | Some (EFile f) => Some (spdxFile f)
          | _ => None
          end) rels.

(** Every target of [rels] that is in the store is a file without
    relationships of its own. *)
Definition leafTargets (h : heap) (rels : list relationship.t) : Prop :=
  ∀ rel t, rel ∈ rels → h !! relationship.Target rel = Some t →
           ∃ f, t = EFile f ∧ file.Relationships f = [].

(** ** The entity graph

    [reaches h e z]: [z] is [e] or is reached from it through the targets
    of relationships. *)
Inductive reaches (h : heap) : element → element → Prop :=
  | reaches_refl (e : element) : reaches h e e
  | reaches_step (e : element) (rel : relationship.t) (t z : element) :
      rel ∈ element_Relationships e →
      h !! relationship.Target rel = Some t →
      reaches h t z →
      reaches h e z.

(** The top-level elements of a document, in the order in which
    [buildDocumentSPDX] lowers them. *)
Definition roots (doc : bom.t) : list element :=
  (EPkg <$> bom.Packages doc) ++ (EFile <$> bom.Files doc).

(** The entities of the graph of a document, and the relationships they
    hold. *)
Definition inGraph (h : heap) (doc : bom.t) (z : element) : Prop :=
  ∃ r, r ∈ roots doc ∧ reaches h r z.

Definition graphRel (h : heap) (doc : bom.t) (rel : relationship.t) : Prop :=
  ∃ z, inGraph h doc z ∧ rel ∈ element_Relationships z.

(** An identifier names one entity: two targets of relationships of the
    graph that have the same identifier hold the same relationships. Files
    without relationships, as [ScanFiles] builds them, satisfy this
    whatever their identifiers. *)
Definition idsNameTargets `{Libs} (h : heap) (doc : bom.t) : Prop :=
  ∀ rel1 rel2 u v,
    graphRel h doc rel1 → graphRel h doc rel2 →
    h !! relationship.Target rel1 = Some u →
    h !! relationship.Target rel2 = Some v →
    element_ID u = element_ID v →
    element_Relationships u = element_Relationships v.

(** The graph is closed under sources: the source of a relationship of the
    graph has the identifier of an entity of the graph. *)
Definition sourcesInGraph `{Libs} (h : heap) (doc : bom.t) : Prop :=
  ∀ rel s,
    graphRel h doc rel → h !! relationship.Source rel = Some s →
    ∃ z, inGraph h doc z ∧ element_ID z = element_ID s.

(** The relationships whose targets are being lowered when an entity is
    lowered: each with the list it is taken from. *)
Abbreviation frame := (list relationship.t * relationship.t)%type
  (only parsing).

(** No record of the document is the triple of a relationship whose target
    is still being lowered. *)
Definition pendingFree `{Libs} (h : heap) (stack : list frame)
    (d : spdx.Document.t) : Prop :=
  ∀ F x, F ∈ stack → relationshipRecord h F.2 = Some x →
         x ∉ spdx.Document.Relationships d.

(** [onStack stack rels]: an entity that holds [rels] is being lowered. *)
Definition onStack (stack : list frame) (rels : list relationship.t) : Prop :=
  ∃ F, F ∈ stack ∧ F.1 = rels.

(** Every pending relationship is one of the list it is taken from, and its
    target is the entity being lowered ([cur] are its relationships) or one
    that is being lowered further up. *)
Definition closedStack (h : heap) (G : relationship.t → Prop)
    (stack : list frame) (cur : list relationship.t) : Prop :=
  ∀ F, F ∈ stack →
       F.2 ∈ F.1 ∧ G F.2
       ∧ ∃ u, h !! relationship.Target F.2 = Some u
              ∧ (element_Relationships u = cur
                 ∨ onStack stack (element_Relationships u)).

(** Every entity reached from [e] has a record in the document. *)
Definition resolvesFrom `{Libs} (h : heap) (d : spdx.Document.t)
    (e : element) : Prop :=
  ∀ z, reaches h e z → element_ID z ∈ recordIDs d.

(** The records of the document were emitted for relationships of the
    graph, and what is reached from their targets has a record. *)
Definition emittedFromGraph `{Libs} (h : heap) (doc : bom.t)
    (d : spdx.Document.t) : Prop :=
  ∀ x, x ∈ spdx.Document.Relationships d →
       ∃ rel s t,
         graphRel h doc rel
         ∧ h !! relationship.Source rel = Some s
         ∧ h !! relationship.Target rel = Some t
         ∧ x = spdx.Relationship.mk (element_ID s) (relationship.Type_ rel)
                                    (element_ID t).

Definition relatedLowered `{Libs} (h : heap) (doc : bom.t)
    (d : spdx.Document.t) : Prop :=
  ∀ x rel t,
    x ∈ spdx.Document.Relationships d →
    graphRel h doc rel → h !! relationship.Target rel = Some t →
    element_ID t = spdx.Relationship.Related x →
    resolvesFrom h d t.

(** * Properties *)

(** ** Sorting *)

Lemma sort_Strings_Sorted (l : list string) : Sorted String.le (sort_Strings l).
Proof. apply (Sorted_merge_sort String.le). Qed.

Lemma sort_Strings_Permutation (l : list string) : sort_Strings l ≡ₚ l.
Proof. apply merge_sort_Permutation. Qed.

Lemma Sorted_le_unique (l1 l2 : list string) :
  Sorted String.le l1 → Sorted String.le l2 → l1 ≡ₚ l2 → l1 = l2.
Proof. apply (Sorted_unique String.le). Qed.

Lemma sort_Strings_unique (l sorted : list string) :
  sorted ≡ₚ l → Sorted String.le sorted → sort_Strings l = sorted.
Proof.
  intros Hp Hs. apply Sorted_le_unique; auto using sort_Strings_Sorted.
  by rewrite sort_Strings_Permutation.
Qed.

Lemma sort_Strings_perm (l1 l2 : list string) :
  l1 ≡ₚ l2 → sort_Strings l1 = sort_Strings l2.
Proof.
  intros Hp. apply sort_Strings_unique; auto using sort_Strings_Sorted.
  by rewrite sort_Strings_Permutation.
Qed.

(** ** Test vectors of the digests (FIPS 180-1 and 180-4) *)

Example sha1_of_empty :
  hash_SHA1 "" = "da39a3ee5e6b4b0d3255bfef95601890afd80709".
Proof. vm_compute. reflexivity. Qed.

Example sha1_of_abc :
  hash_SHA1 "abc" = "a9993e364706816aba3e25717850c26c9cd0d89d".
Proof. vm_compute. reflexivity. Qed.

Example sha1_of_two_blocks :
  hash_SHA1 "abcdbcdecdefdefgefghfghighijhijkijkljklmklmnlmnomnopnopq"
  = "84983e441c3bd26ebaae4aa1f95129e5e54670f1".
Proof. vm_compute. reflexivity. Qed.

Example sha256_of_abc :
  hash_SHA256 "abc"
  = "ba7816bf8f01cfea414140de5dae2223b00361a396177a9cb410ff61f20015ad".
Proof. vm_compute. reflexivity. Qed.

Example sha256_of_two_blocks :
  hash_SHA256 "abcdbcdecdefdefgefghfghighijhijkijkljklmklmnlmnomnopnopq"
  = "248d6a61d20638b8e5c026930c3e6039a33ce45964ff2167f6ecedd419db06c1".
Proof. vm_compute. reflexivity. Qed.

Example sha512_of_abc :
  hash_SHA512 "abc"
  = "ddaf35a193617abacc417349ae20413112e6fa4e89a97ea20a9eeee64b55d39a"
      +:+ "2192992a274fc1a836ba3c23a3feebbd454d4423643ce80e2a9ac94fa54ca49f".
Proof. vm_compute. reflexivity. Qed.

(** ** The digest is never the empty string *)

Lemma be_bytes_4 (x : Z) : ∃ b bs, be_bytes 4 x = b :: bs.
Proof. unfold be_bytes. simpl. eauto. Qed.

Lemma sha1_Sum_cons (msg : list Z) : ∃ b bs, sha1.Sum msg = b :: bs.
Proof.
  unfold sha1.Sum.
  destruct (foldl sha1.block_step sha1.init _) as [[[[h0 h1] h2] h3] h4].
  destruct (be_bytes_4 h0) as (b & bs & ->). simpl. eauto.
Qed.

Lemma hash_SHA1_nonempty (content : string) : hash_SHA1 content ≠ "".
Proof.
  unfold hash_SHA1.
  destruct (sha1_Sum_cons (bytes_of_string content)) as (b & bs & ->).
  discriminate.
Qed.

Lemma computeVerificationCode_nonempty (hashList : list string) :
  computeVerificationCode hashList ≠ "".
Proof. apply hash_SHA1_nonempty. Qed.

Lemma computeVerificationCode_eqb (hashList : list string) :
  String.eqb (computeVerificationCode hashList) "" = false.
Proof. apply String.eqb_neq, computeVerificationCode_nonempty. Qed.

(** ** The loop over the files of a package *)

Lemma collectFiles_from `{Libs} (h : heap) (rels : list relationship.t)
    (a b c : list string) :
  foldl (collectFile h) (a, b, c) rels
  = (a ++ fileTargets h rels, b ++ fileDigests h rels,
     c ++ filesWithoutDigest h rels).
Proof.
  revert a b c. induction rels as [|rel rels IH]; intros a b c; simpl.
  - by rewrite !app_nil_r.
  - unfold collectFile at 1.
    destruct (h !! relationship.Target rel) as [[q|f]|]; simpl;
      [apply IH| |apply IH].
    destruct (file.Checksums f !! "SHA1"); simpl;
      rewrite IH, <- ?app_assoc; reflexivity.
Qed.

Lemma collectFiles_spec `{Libs} (h : heap) (rels : list relationship.t) :
  collectFiles h rels
  = (fileTargets h rels, fileDigests h rels, filesWithoutDigest h rels).
Proof. unfold collectFiles. by rewrite collectFiles_from. Qed.

Lemma spdxPackage_VerificationCode `{Libs} (h : heap) (p : pkg.t) :
  spdx.Package.VerificationCode (spdxPackage h p)
  = Some (spdx.PackageVerificationCode.mk
            (computeVerificationCode (fileDigests h (pkg.Relationships p)))
            (filesWithoutDigest h (pkg.Relationships p))).
Proof.
  unfold spdxPackage. rewrite collectFiles_spec.
  rewrite computeVerificationCode_eqb. simpl. do 2 f_equal.
  by destruct (filesWithoutDigest h (pkg.Relationships p)).
Qed.

Lemma spdxPackage_FilesAnalyzed `{Libs} (h : heap) (p : pkg.t) :
  spdx.Package.FilesAnalyzed (spdxPackage h p) = true.
Proof.
  unfold spdxPackage. rewrite collectFiles_spec.
  by rewrite computeVerificationCode_eqb.
Qed.

Lemma spdxPackage_ID `{Libs} (h : heap) (p : pkg.t) :
  spdx.Package.ID (spdxPackage h p) = pkg_ID p.
Proof. unfold spdxPackage. by destruct (collectFiles h _) as [[? ?] ?]. Qed.

(** ** Loops *)

Lemma forRange_Ret_inv {A S} (I : S → Prop) (body : S → A → outcome S)
    (l : list A) (s s' : S) :
  I s →
  (∀ s1 x s2, x ∈ l → I s1 → body s1 x = Ret s2 → I s2) →
  forRange body s l = Ret s' → I s'.
Proof.
  revert s. induction l as [|x l IH]; intros s Hs Hbody Hrun; simpl in Hrun.
  - by inversion Hrun; subst.
  - destruct (body s x) as [s1| | |] eqn:Hx; try discriminate.
    simpl in Hrun. apply (IH s1); [|intros; eapply Hbody; eauto; by right|done].
    eapply Hbody; eauto. by left.
Qed.

(** ** Lowering only appends *)

Lemma extends_refl (d : spdx.Document.t) : extends d d.
Proof. by split. Qed.

Lemma extends_trans (d1 d2 d3 : spdx.Document.t) :
  extends d1 d2 → extends d2 d3 → extends d1 d3.
Proof.
  intros [] []. split; try congruence; etrans; eauto.
Qed.

Lemma extends_set_Packages (d : spdx.Document.t) (x : spdx.Package.t) :
  extends d (spdx.Document.set_Packages (spdx.Document.Packages d ++ [x]) d).
Proof. split; try done. simpl. by apply prefix_app_r. Qed.

Lemma extends_set_Files (d : spdx.Document.t) (x : spdx.File.t) :
  extends d (spdx.Document.set_Files (spdx.Document.Files d ++ [x]) d).
Proof. split; try done. simpl. by apply prefix_app_r. Qed.

Lemma extends_set_Relationships (d : spdx.Document.t)
    (x : spdx.Relationship.t) :
  extends d (spdx.Document.set_Relationships
               (spdx.Document.Relationships d ++ [x]) d).
Proof. split; try done. simpl. by apply prefix_app_r. Qed.

Lemma appendRelationship_Ret `{Libs} (h : heap) (doc doc' : spdx.Document.t)
    (rel : relationship.t) :
  appendRelationship h doc rel = Ret doc' →
  ∃ s t, h !! relationship.Source rel = Some s
         ∧ h !! relationship.Target rel = Some t
         ∧ doc' = spdx.Document.set_Relationships
                    (spdx.Document.Relationships doc
                       ++ [spdx.Relationship.mk (element_ID s)
                             (relationship.Type_ rel) (element_ID t)]) doc.
Proof.
  unfold appendRelationship, ID_at.
  destruct (h !! relationship.Source rel) as [s|]; [|discriminate].
  destruct (h !! relationship.Target rel) as [t|]; [|discriminate].
  simpl. intros [= <-]. eauto.
Qed.

Lemma appendRelationship_extends `{Libs} (h : heap)
    (doc doc' : spdx.Document.t) (rel : relationship.t) :
  appendRelationship h doc rel = Ret doc' → extends doc doc'.
Proof.
  intros (s & t & _ & _ & ->)%appendRelationship_Ret.
  apply extends_set_Relationships.
Qed.

Lemma lowering_extends `{Libs} (h : heap) (fuel : nat) :
  (∀ doc p doc',
     addPackage fuel h doc p = Ret doc' →
     extends (spdx.Document.set_Packages
                (spdx.Document.Packages doc ++ [spdxPackage h p]) doc) doc')
  ∧ (∀ doc f doc',
       addFile fuel h doc f = Ret doc' →
       extends (spdx.Document.set_Files
                  (spdx.Document.Files doc ++ [spdxFile f]) doc) doc').
Proof.
  induction fuel as [|fuel [IHp IHf]]; [by split|].
  assert (Htarget : ∀ doc rel doc',
            match h !! relationship.Target rel with
            | Some (EFile v) => addFile fuel h doc v
            | Some (EPkg v) => addPackage fuel h doc v
            | None => Ret doc
            end = Ret doc' → extends doc doc').
  { intros doc rel doc' Hrun.
    destruct (h !! relationship.Target rel) as [[q|g]|].
    - eapply extends_trans; [apply extends_set_Packages|by apply IHp].
    - eapply extends_trans; [apply extends_set_Files|by apply IHf].
    - inversion Hrun; subst. apply extends_refl. }
  split; intros doc x doc' Hrun; simpl in Hrun;
    revert Hrun; apply forRange_Ret_inv; try apply extends_refl;
    intros d1 rel d2 _ Hd1 Hbody;
    (eapply extends_trans; [exact Hd1|]);
    destruct (sbomHasRelationship h d1 rel) as [[|]| | |];
      try discriminate; simpl in Hbody.
  - inversion Hbody; subst. apply extends_refl.
  - destruct (match h !! relationship.Target rel with
              | Some (EPkg v) => addPackage fuel h d1 v
              | Some (EFile v) => addFile fuel h d1 v
              | None => Ret d1 end) as [d3| | |] eqn:Ht; try discriminate.
    simpl in Hbody. eapply extends_trans; [by eapply Htarget|].
    by eapply appendRelationship_extends.
  - inversion Hbody; subst. apply extends_refl.
  - by eapply Htarget.
Qed.

Lemma addPackage_extends `{Libs} (h : heap) (fuel : nat)
    (doc doc' : spdx.Document.t) (p : pkg.t) :
  addPackage fuel h doc p = Ret doc' →
  extends (spdx.Document.set_Packages
             (spdx.Document.Packages doc ++ [spdxPackage h p]) doc) doc'.
Proof. apply lowering_extends. Qed.

Lemma addFile_extends `{Libs} (h : heap) (fuel : nat)
    (doc doc' : spdx.Document.t) (f : file.t) :
  addFile fuel h doc f = Ret doc' →
  extends (spdx.Document.set_Files
             (spdx.Document.Files doc ++ [spdxFile f]) doc) doc'.
Proof. apply lowering_extends. Qed.

Lemma addPackage_emits `{Libs} (h : heap) (fuel : nat)
    (doc doc' : spdx.Document.t) (p : pkg.t) :
  addPackage fuel h doc p = Ret doc' →
  spdx.Document.Packages doc' !! length (spdx.Document.Packages doc)
  = Some (spdxPackage h p).
Proof.
  intros [_ _ _ _ _ _ _ _ [k Hk] _ _]%addPackage_extends.
  rewrite Hk. simpl. rewrite <- app_assoc.
  rewrite lookup_app_r by lia. by rewrite Nat.sub_diag.
Qed.

(** ** Lowering returns *)

Lemma forRange_total {A S} (body : S → A → outcome S) (l : list A) (s : S) :
  (∀ s1 x, x ∈ l → ∃ s2, body s1 x = Ret s2) →
  ∃ s', forRange body s l = Ret s'.
Proof.
  revert s. induction l as [|x l IH]; intros s Hbody; simpl; [eauto|].
  destruct (Hbody s x) as [s1 ->]; [by left|]. simpl.
  apply IH. intros s2 y Hy. apply Hbody. by right.
Qed.

Lemma hasRelationship_total `{Libs} (h : heap)
    (rels : list spdx.Relationship.t) (bomRel : relationship.t)
    (s t : element) :
  h !! relationship.Source bomRel = Some s →
  h !! relationship.Target bomRel = Some t →
  ∃ b, hasRelationship h rels bomRel = Ret b.
Proof.
  intros Hs Ht. induction rels as [|r rels [b IH]]; simpl; [eauto|].
  unfold ID_at. rewrite Hs, Ht. simpl.
  destruct (String.eqb _ (element_ID s)); [|eauto].
  destruct (_ && _); eauto.
Qed.

Lemma lowering_total `{Libs} (h : heap) (fuel : nat) :
  (∀ doc p, bounded h fuel (EPkg p) → ∃ doc', addPackage fuel h doc p = Ret doc')
  ∧ (∀ doc f, bounded h fuel (EFile f) → ∃ doc', addFile fuel h doc f = Ret doc').
Proof.
  induction fuel as [|fuel [IHp IHf]]; [by split|].
  assert (Htarget : ∀ doc rel t,
            h !! relationship.Target rel = Some t → bounded h fuel t →
            ∃ doc',
              match h !! relationship.Target rel with
              | Some (EFile v) => addFile fuel h doc v
              | Some (EPkg v) => addPackage fuel h doc v
              | None => Ret doc
              end = Ret doc').
  { intros doc rel t -> Hb. destruct t; auto. }
  split; intros doc x Hb; simpl; apply forRange_total;
    intros d1 rel Hrel; destruct (Hb rel Hrel) as (s & t & Hs & Ht & Hbt);
    unfold sbomHasRelationship;
    destruct (hasRelationship_total h (spdx.Document.Relationships d1)
                rel s t Hs Ht) as [[|] ->]; simpl; eauto.
  destruct (Htarget d1 rel t Ht Hbt) as [d3 ->]. simpl.
  unfold appendRelationship, ID_at. rewrite Hs, Ht. simpl. eauto.
Qed.

Lemma forRange_Ret_mono {A S} (body body' : S → A → outcome S) (l : list A)
    (s s' : S) :
  (∀ s1 x s2, body s1 x = Ret s2 → body' s1 x = Ret s2) →
  forRange body s l = Ret s' → forRange body' s l = Ret s'.
Proof.
  intros Hbody. revert s. induction l as [|x l IH]; intros s; simpl; [done|].
  destruct (body s x) as [s1| | |] eqn:Hx; try discriminate.
  rewrite (Hbody _ _ _ Hx). simpl. apply IH.
Qed.

(** The equations of the two functions. *)
Lemma addPackage_S `{Libs} (fuel : nat) (h : heap) (doc : spdx.Document.t)
    (p : pkg.t) :
  addPackage (S fuel) h doc p
  = forRange
      (λ doc rel,
         seen ← sbomHasRelationship h doc rel;
         if (seen : bool) then Ret doc
         else
           doc ← match h !! relationship.Target rel with
                 | Some (EFile v) => addFile fuel h doc v
                 | Some (EPkg v) => addPackage fuel h doc v
                 | None => Ret doc
                 end;
           appendRelationship h doc rel)
      (spdx.Document.set_Packages
         (spdx.Document.Packages doc ++ [spdxPackage h p]) doc)
      (pkg.Relationships p).
Proof. reflexivity. Qed.

Lemma addFile_S `{Libs} (fuel : nat) (h : heap) (doc : spdx.Document.t)
    (f : file.t) :
  addFile (S fuel) h doc f
  = forRange
      (λ doc rel,
         seen ← sbomHasRelationship h doc rel;
         if (seen : bool) then Ret doc
         else
           match h !! relationship.Target rel with
           | Some (EFile v) => addFile fuel h doc v
           | Some (EPkg v) => addPackage fuel h doc v
           | None => Ret doc
           end)
      (spdx.Document.set_Files (spdx.Document.Files doc ++ [spdxFile f]) doc)
      (file.Relationships f).
Proof. reflexivity. Qed.

(** More fuel does not change a document that was returned. *)
Lemma lowering_fuel_mono `{Libs} (h : heap) (fuel : nat) :
  (∀ doc p doc', addPackage fuel h doc p = Ret doc' →
                 addPackage (S fuel) h doc p = Ret doc')
  ∧ (∀ doc f doc', addFile fuel h doc f = Ret doc' →
                   addFile (S fuel) h doc f = Ret doc').
Proof.
  induction fuel as [|fuel [IHp IHf]]; [by split|].
  assert (Htarget : ∀ doc rel doc',
            match h !! relationship.Target rel with
            | Some (EFile v) => addFile fuel h doc v
            | Some (EPkg v) => addPackage fuel h doc v
            | None => Ret doc
            end = Ret doc' →
            match h !! relationship.Target rel with
            | Some (EFile v) => addFile (S fuel) h doc v
            | Some (EPkg v) => addPackage (S fuel) h doc v
            | None => Ret doc
            end = Ret doc').
  { intros doc rel doc'. destruct (h !! relationship.Target rel) as [[q|g]|];
      auto. }
  split; intros doc x doc'.
  - rewrite (addPackage_S fuel), (addPackage_S (S fuel)).
    apply forRange_Ret_mono. intros d1 rel d2.
    destruct (sbomHasRelationship h d1 rel) as [[|]| | |];
      cbn -[addPackage addFile]; try done.
    destruct (match h !! relationship.Target rel with
              | Some (EPkg v) => addPackage fuel h d1 v
              | Some (EFile v) => addFile fuel h d1 v
              | None => Ret d1 end) as [d3| | |] eqn:Hlow; try discriminate.
    by rewrite (Htarget _ _ _ Hlow).
  - rewrite (addFile_S fuel), (addFile_S (S fuel)).
    apply forRange_Ret_mono. intros d1 rel d2.
    destruct (sbomHasRelationship h d1 rel) as [[|]| | |];
      cbn -[addPackage addFile]; try done.
    apply Htarget.
Qed.

Lemma bounded_S (h : heap) (n : nat) (e : element) :
  bounded h n e → bounded h (S n) e.
Proof.
  revert e. induction n as [|n IH]; intros e; [done|].
  intros Hb rel Hrel. destruct (Hb rel Hrel) as (s & t & Hs & Ht & Hbt).
  exists s, t. auto.
Qed.

(** X1. When the creation time is known and the entity graph has depth less
    than [fuel], with every relationship between entities of the store,
    [buildDocumentSPDX] returns a document. *)
Theorem buildDocumentSPDX_returns `{Libs} (fuel : nat) (w : World) (h : heap)
    (spec : Spec.t) (doc : bom.t) (t : string) :
  sbomTime w = Ret t →
  (∀ p, p ∈ bom.Packages doc → bounded h fuel (EPkg p)) →
  (∀ f, f ∈ bom.Files doc → bounded h fuel (EFile f)) →
  ∃ d, buildDocumentSPDX fuel w h spec doc = Ret d.
Proof.
  intros Ht Hps Hfs. unfold buildDocumentSPDX. rewrite Ht. simpl.
  match goal with
  | |- context [forRange ?b ?d0 (bom.Packages doc)] =>
      destruct (forRange_total b (bom.Packages doc) d0) as [d1 ->]
  end.
  { intros d p Hp. by apply lowering_total, Hps. }
  simpl. apply forRange_total.
  intros d f Hf. by apply lowering_total, Hfs.
Qed.

Section examples_returns.
#[local] Existing Instance Sample.plain.

Lemma buildDocumentSPDX_returns_witness :
  ∃ d, buildDocumentSPDX 2 (Sample.world (Some "1667433600") None None)
         Sample.store Sample.spec Sample.hello_bom = Ret d.
Proof.
  apply (buildDocumentSPDX_returns 2
           (Sample.world (Some "1667433600") None None) Sample.store
           Sample.spec Sample.hello_bom "2022-11-03T00:00:00Z").
  - vm_compute. reflexivity.
  - intros p ->%list_elem_of_singleton rel Hrel.
    repeat (apply elem_of_cons in Hrel as [->|Hrel];
            [eexists _, _; split; [reflexivity|];
             split; [reflexivity|]; by intros ? ?%elem_of_nil|]).
    by apply elem_of_nil in Hrel.
  - by intros f ?%elem_of_nil.
Defined.

End examples_returns.

(** ** The package assembler *)

(** C10. [GenerateAPKPackage] returns an error exactly when the package
    name is empty. A package it returns has no relationships, its concluded
    license is the no-assertion sentinel whatever license is supplied, and
    its declared license is the supplied license when that is non-empty and
    the sentinel otherwise. *)
Theorem GenerateAPKPackage_spec (spec : Spec.t) :
  ((∃ e, GenerateAPKPackage spec = Fail e) ↔ Spec.PackageName spec = "")
  ∧ ((∃ p, GenerateAPKPackage spec = Ret p) ↔ Spec.PackageName spec ≠ "")
  ∧ (∀ p, GenerateAPKPackage spec = Ret p →
          pkg.Relationships p = []
          ∧ pkg.LicenseConcluded p = spdx.NOASSERTION
          ∧ pkg.LicenseDeclared p
            = (if decide (Spec.License spec = "") then spdx.NOASSERTION
               else Spec.License spec)).
Proof.
  unfold GenerateAPKPackage.
  destruct (String.eqb_spec (Spec.PackageName spec) "") as [Hn|Hn].
  - split; [|split].
    + split; eauto.
    + split; [intros [p [=]]|done].
    + intros p [=].
  - split; [|split].
    + split; [intros [e [=]]|done].
    + split; eauto.
    + intros p [= <-].
      destruct (String.eqb_spec (Spec.License spec) "") as [Hl|Hl]; simpl;
        by rewrite ?decide_True, ?decide_False by done.
Qed.

Lemma GenerateAPKPackage_spec_witness :
  let spec := Spec.mk "/work" "hello" "2.12-r0" "GPL-3.0-or-later" "" "wolfi"
                      "x86_64" "/sbom" in
  ∃ p, GenerateAPKPackage spec = Ret p
       ∧ pkg.Relationships p = []
       ∧ pkg.LicenseConcluded p = "NOASSERTION"
       ∧ pkg.LicenseDeclared p = "GPL-3.0-or-later".
Proof.
  intros spec.
  destruct (GenerateAPKPackage_spec spec) as (_ & _ & Hp).
  eexists. split; [reflexivity|]. apply (Hp _ eq_refl).
Defined.

(** ** The verification code *)

(** C2. The verification code is the SHA-1 digest of the concatenation of
    the file digests in sorted order: whatever the order [hashList] lists
    them in, [computeVerificationCode] returns the digest of the joined
    sorted list, so two discovery orders of the same digests give the same
    code; and the code of a lowered package is that of the digests of its
    file targets, unchanged when its relationships are permuted. *)
Theorem verification_code_sorted_digest `{Libs} (h : heap) (p p' : pkg.t)
    (hashList hashList' sorted : list string) :
  hashList ≡ₚ hashList' →
  sorted ≡ₚ hashList →
  Sorted String.le sorted →
  pkg.Relationships p ≡ₚ pkg.Relationships p' →
  computeVerificationCode hashList = hash_SHA1 (strings_Join sorted)
  ∧ computeVerificationCode hashList' = computeVerificationCode hashList
  ∧ codeValue (spdxPackage h p)
    = Some (hash_SHA1 (strings_Join
                         (sort_Strings (fileDigests h (pkg.Relationships p)))))
  ∧ codeValue (spdxPackage h p') = codeValue (spdxPackage h p).
Proof.
  intros Hperm Hsorted Hs Hrels. repeat split.
  - unfold computeVerificationCode, hash_SHA1.
    by rewrite (sort_Strings_unique hashList sorted).
  - unfold computeVerificationCode.
    by rewrite (sort_Strings_perm hashList' hashList).
  - unfold codeValue. by rewrite spdxPackage_VerificationCode.
  - unfold codeValue. rewrite !spdxPackage_VerificationCode. simpl.
    unfold computeVerificationCode, fileDigests.
    by rewrite (sort_Strings_perm _ _ (omap_Permutation _ _ _ (symmetry Hrels))).
Qed.

(** C1, as the code has it. The package record that [addPackage] emits
    always carries a verification code and is marked as analyzed: the
    digest is never the empty string, also when no file target has a SHA-1
    digest. Its value is the code of the SHA-1 digests of the file targets
    that have one, and every file target without a SHA-1 digest is listed in
    its excluded files; each file target is in exactly one of the two
    lists. *)
Theorem verification_code_always_present `{Libs} (fuel : nat) (h : heap)
    (doc doc' : spdx.Document.t) (p : pkg.t) :
  addPackage fuel h doc p = Ret doc' →
  ∃ record code,
    spdx.Document.Packages doc' !! length (spdx.Document.Packages doc)
    = Some record
    ∧ spdx.Package.ID record = pkg_ID p
    ∧ spdx.Package.FilesAnalyzed record = true
    ∧ spdx.Package.VerificationCode record = Some code
    ∧ spdx.PackageVerificationCode.Value code
      = computeVerificationCode (fileDigests h (pkg.Relationships p))
    ∧ spdx.PackageVerificationCode.Value code ≠ ""
    ∧ spdx.PackageVerificationCode.ExcludedFiles code
      = filesWithoutDigest h (pkg.Relationships p)
    ∧ (∀ rel f,
         rel ∈ pkg.Relationships p →
         h !! relationship.Target rel = Some (EFile f) →
         file.Checksums f !! "SHA1" = None →
         file_ID f ∈ spdx.PackageVerificationCode.ExcludedFiles code)
    ∧ (length (fileDigests h (pkg.Relationships p))
       + length (filesWithoutDigest h (pkg.Relationships p))
       = length (fileTargets h (pkg.Relationships p)))%nat.
Proof.
  intros Hrun.
  exists (spdxPackage h p),
         (spdx.PackageVerificationCode.mk
            (computeVerificationCode (fileDigests h (pkg.Relationships p)))
            (filesWithoutDigest h (pkg.Relationships p))).
  split; [by eapply addPackage_emits|].
  split; [apply spdxPackage_ID|].
  split; [apply spdxPackage_FilesAnalyzed|].
  split; [apply spdxPackage_VerificationCode|]. simpl.
  split; [done|]. split; [apply computeVerificationCode_nonempty|].
  split; [done|]. split.
  - intros rel f Hrel Ht Hnone. apply list_elem_of_omap.
    exists rel. split; [done|]. by rewrite Ht, Hnone.
  - unfold fileDigests, filesWithoutDigest, fileTargets.
    induction (pkg.Relationships p) as [|rel rels IH]; csimpl; [done|].
    destruct (h !! relationship.Target rel) as [[q|f]|]; csimpl; try done.
    destruct (file.Checksums f !! "SHA1"); csimpl; lia.
Qed.

Section examples_verification_code.
#[local] Existing Instance Sample.plain.

Lemma verification_code_sorted_digest_witness :
  let p := Sample.root Sample.rels123 in
  let p' := Sample.root (reverse Sample.rels123) in
  computeVerificationCode [Sample.sha1_fox; Sample.sha1_abc]
  = hash_SHA1 (strings_Join [Sample.sha1_fox; Sample.sha1_abc])
  ∧ computeVerificationCode [Sample.sha1_abc; Sample.sha1_fox]
    = computeVerificationCode [Sample.sha1_fox; Sample.sha1_abc]
  ∧ codeValue (spdxPackage Sample.store p')
    = codeValue (spdxPackage Sample.store p).
Proof.
  intros p p'.
  destruct (verification_code_sorted_digest Sample.store p p'
              [Sample.sha1_fox; Sample.sha1_abc]
              [Sample.sha1_abc; Sample.sha1_fox]
              [Sample.sha1_fox; Sample.sha1_abc])
    as (H1 & H2 & _ & H4).
  - apply perm_swap.
  - reflexivity.
  - repeat constructor; vm_compute; exact I.
  - symmetry. apply reverse_Permutation.
  - split; [exact H1|]. split; [exact H2|exact H4].
Defined.

Lemma verification_code_always_present_witness :
  ∃ doc' record code,
    addPackage 2 Sample.store Sample.blank (Sample.root Sample.rels123)
    = Ret doc'
    ∧ spdx.Document.Packages doc' !! 0%nat = Some record
    ∧ spdx.Package.VerificationCode record = Some code
    ∧ spdx.PackageVerificationCode.ExcludedFiles code
      = ["SPDXRef-File-/var/run/hello.fifo"].
Proof.
  assert (∃ doc', addPackage 2 Sample.store Sample.blank
                    (Sample.root Sample.rels123) = Ret doc') as [doc' Hrun].
  { eexists. vm_compute. reflexivity. }
  destruct (verification_code_always_present 2 Sample.store
              Sample.blank doc' (Sample.root Sample.rels123) Hrun)
    as (record & code & H1 & _ & _ & H3 & _ & _ & H6 & _).
  exists doc', record, code. split; [exact Hrun|].
  split; [exact H1|]. split; [exact H3|]. rewrite H6.
  vm_compute. reflexivity.
Defined.

(** C1, as stated, fails: a package with no file target at all is lowered
    to a record that carries a verification code, the digest of the empty
    string. *)
Lemma package_without_files_has_code :
  let p := Sample.root [] in
  fileTargets [] (pkg.Relationships p) = []
  ∧ ∃ doc',
      addPackage 1 [] Sample.blank p = Ret doc'
      ∧ spdx.Package.VerificationCode <$> spdx.Document.Packages doc'
        = [Some (spdx.PackageVerificationCode.mk
                   "da39a3ee5e6b4b0d3255bfef95601890afd80709" [])].
Proof.
  intros p. split; [reflexivity|].
  eexists. split; [vm_compute; reflexivity|]. vm_compute. reflexivity.
Qed.

End examples_verification_code.

(** ** The file scanner *)

Section scan.
Context (w : World) (dirPath : string).

Lemma storeAll_from (completion : list string)
    (acc : gmap string file.t * list error) :
  foldl (λ acc path,
           let '(f, errs) := digestUnit w dirPath path in
           (<[path := f]> acc.1, acc.2 ++ errs)) acc completion
  = (foldl (λ m path, <[path := scannedFile w dirPath path]> m) acc.1
           completion,
     acc.2 ++ (completion ≫= λ path, (digestUnit w dirPath path).2)).
Proof.
  revert acc. induction completion as [|path l IH]; intros [m errs]; csimpl.
  - by rewrite app_nil_r.
  - rewrite IH. unfold scannedFile.
    destruct (digestUnit w dirPath path) as [f es]. simpl.
    by rewrite <- app_assoc.
Qed.

Lemma stored_lookup (completion : list string) (m : gmap string file.t)
    (path : string) :
  foldl (λ m path, <[path := scannedFile w dirPath path]> m) m completion
    !! path
  = if decide (path ∈ completion) then Some (scannedFile w dirPath path)
    else m !! path.
Proof.
  revert m. induction completion as [|x l IH]; intros m; simpl; [done|].
  rewrite IH. destruct (decide (path ∈ l)) as [Hin|Hin].
  - rewrite decide_True; [done|by right].
  - destruct (decide (path = x)) as [->|Hne].
    + rewrite decide_True by (by left). by rewrite lookup_insert_eq.
    + rewrite decide_False by (by intros [?|?]%elem_of_cons).
      by rewrite lookup_insert_ne.
Qed.

Lemma storeAll_lookup (completion : list string) (path : string) :
  path ∈ completion →
  (storeAll w dirPath completion).1 !! path
  = Some (scannedFile w dirPath path).
Proof.
  intros Hin. unfold storeAll. rewrite storeAll_from. simpl.
  rewrite stored_lookup. by rewrite decide_True.
Qed.

Lemma storeAll_errors (completion : list string) :
  (storeAll w dirPath completion).2
  = completion ≫= λ path, (digestUnit w dirPath path).2.
Proof. unfold storeAll. by rewrite storeAll_from. Qed.

(** Whether a unit failed does not depend on the order of completion. *)
Lemma storeAll_errors_perm (completion completion' : list string) :
  completion ≡ₚ completion' →
  (storeAll w dirPath completion).2 = [] →
  (storeAll w dirPath completion').2 = [].
Proof.
  rewrite !storeAll_errors. intros Hperm Hnil.
  apply Permutation_nil_r. rewrite <- Hnil. by rewrite Hperm.
Qed.

Lemma containsRels_S (a base n : nat) :
  containsRels a base (S n)
  = relationship.mk a base "CONTAINS" :: containsRels a (S base) n.
Proof. reflexivity. Qed.

Lemma withScanned_nil (p : pkg.t) :
  withScanned p [] = set_FilesAnalyzed true p.
Proof. unfold withScanned, set_FilesAnalyzed. by rewrite app_nil_r. Qed.

Lemma withScanned_append (p : pkg.t) (rel : relationship.t)
    (rels : list relationship.t) :
  withScanned (append_Relationship rel p) rels = withScanned p (rel :: rels).
Proof.
  unfold withScanned, append_Relationship. simpl. by rewrite <- app_assoc.
Qed.

Lemma set_FilesAnalyzed_withScanned (p : pkg.t) (rels : list relationship.t) :
  withScanned (set_FilesAnalyzed true p) rels = withScanned p rels.
Proof. reflexivity. Qed.

(** The loop that adds the files, from a store whose package has already
    been marked as analyzed. *)
Lemma addScanned_all (files : gmap string file.t) (a : addr)
    (paths : list string) (h : heap) (p : pkg.t) :
  (∀ path, path ∈ paths → files !! path = Some (scannedFile w dirPath path)) →
  h !! a = Some (EPkg p) →
  pkg.FilesAnalyzed p = true →
  foldl (addScanned files a) h paths
  = <[a := EPkg (withScanned p (containsRels a (length h) (length paths)))]>
      (h ++ (EFile ∘ scannedFile w dirPath <$> paths)).
Proof.
  revert h p. induction paths as [|path l IH]; intros h p Hfiles Ha Hfa.
  - simpl. rewrite app_nil_r, withScanned_nil.
    replace (set_FilesAnalyzed true p) with p
      by (destruct p; simpl in Hfa; by subst).
    symmetry. by apply list_insert_id.
  - pose proof (lookup_lt_Some _ _ _ Ha) as Hlt.
    simpl foldl. unfold addScanned at 2.
    rewrite (Hfiles path) by (by left). rewrite Ha.
    rewrite (IH _ (append_Relationship (relationship.mk a (length h) "CONTAINS") p)).
    + rewrite withScanned_append, length_insert, length_app. simpl.
      rewrite Nat.add_1_r, <- containsRels_S.
      rewrite <- insert_app_l by (rewrite length_app; simpl; lia).
      rewrite list_insert_insert_eq. by rewrite <- app_assoc.
    + intros path' Hin. apply Hfiles. by right.
    + apply list_lookup_insert_eq. rewrite length_app. simpl. lia.
    + done.
Qed.

End scan.

Lemma scannedFile_Name (w : World) (dirPath path : string) :
  file.Name (scannedFile w dirPath path) = path.
Proof.
  unfold scannedFile, digestUnit. by destruct (foldl _ _ hashers).
Qed.

Lemma ScanFiles_unfold (w : World) (completion rangeOrder : list string)
    (spec : Spec.t) (a : addr) (h : heap) (p : pkg.t) (dirPath : string)
    (fileList : list string) :
  w_abs w (Spec.Path spec) = Some dirPath →
  getDirectoryTree w dirPath = Ret fileList →
  h !! a = Some (EPkg p) →
  ScanFiles w completion rangeOrder spec a h
  = match (storeAll w dirPath completion).2 with
    | e :: _ => (Fail e, <[a := EPkg (set_FilesAnalyzed true p)]> h)
    | [] =>
        (Ret (),
         foldl (addScanned (storeAll w dirPath completion).1 a)
               (<[a := EPkg (set_FilesAnalyzed true p)]> h)
               (sort_Strings rangeOrder))
    end.
Proof.
  intros Habs Htree Ha. unfold ScanFiles. rewrite Habs, Htree, Ha.
  by destruct (storeAll w dirPath completion) as [files [|e errs]].
Qed.

Lemma rangeOrder_sorted (rangeOrder completion fileList : list string) :
  completion ≡ₚ fileList →
  NoDup rangeOrder →
  (∀ k, k ∈ rangeOrder ↔ k ∈ completion) →
  sort_Strings rangeOrder = sort_Strings (remove_dups fileList).
Proof.
  intros Hperm Hnd Hkeys. apply sort_Strings_perm.
  apply NoDup_Permutation; [done|apply NoDup_remove_dups|].
  intros k. rewrite Hkeys, elem_of_remove_dups. by rewrite Hperm.
Qed.

Lemma ScanFiles_scanned (w : World) (completion rangeOrder : list string)
    (spec : Spec.t) (a : addr) (h : heap) (p : pkg.t) (dirPath : string)
    (fileList : list string) :
  w_abs w (Spec.Path spec) = Some dirPath →
  getDirectoryTree w dirPath = Ret fileList →
  h !! a = Some (EPkg p) →
  completion ≡ₚ fileList →
  NoDup rangeOrder →
  (∀ k, k ∈ rangeOrder ↔ k ∈ completion) →
  (storeAll w dirPath completion).2 = [] →
  ScanFiles w completion rangeOrder spec a h
  = (Ret (), scanned w dirPath a p h (sort_Strings (remove_dups fileList))).
Proof.
  intros Habs Htree Ha Hperm Hnd Hkeys Herrs.
  pose proof (lookup_lt_Some _ _ _ Ha) as Hlt.
  rewrite (ScanFiles_unfold w completion rangeOrder spec a h p dirPath fileList)
    by done.
  rewrite Herrs. f_equal.
  rewrite (rangeOrder_sorted rangeOrder completion fileList) by done.
  rewrite (addScanned_all w dirPath _ a _ _ (set_FilesAnalyzed true p)).
  - unfold scanned. rewrite length_insert, set_FilesAnalyzed_withScanned.
    rewrite <- insert_app_l by lia.
    by rewrite list_insert_insert_eq.
  - intros path Hin. apply storeAll_lookup.
    rewrite Hperm. apply elem_of_remove_dups.
    by rewrite <- (sort_Strings_Permutation (remove_dups fileList)).
  - by apply list_lookup_insert_eq.
  - done.
Qed.

(** C8. After [ScanFiles] has returned without error, the relationships of
    the scanned package are those it had, followed by one "CONTAINS"
    relationship per key of the keyed store (the distinct paths of the
    directory tree), in the sorted order of the paths, each with the package
    as source and a file entity of that path as target. The store it leaves
    is the same for every order of completion of the digesting units and
    every order in which the keys are enumerated. *)
Theorem ScanFiles_sorted_contains (w : World)
    (completion rangeOrder : list string) (spec : Spec.t) (a : addr)
    (h h' : heap) (p : pkg.t) (dirPath : string) (fileList : list string) :
  w_abs w (Spec.Path spec) = Some dirPath →
  getDirectoryTree w dirPath = Ret fileList →
  h !! a = Some (EPkg p) →
  completion ≡ₚ fileList →
  NoDup rangeOrder →
  (∀ k, k ∈ rangeOrder ↔ k ∈ completion) →
  ScanFiles w completion rangeOrder spec a h = (Ret (), h') →
  let paths := sort_Strings (remove_dups fileList) in
  (Sorted String.le paths ∧ NoDup paths ∧ ∀ k, k ∈ paths ↔ k ∈ completion)
  ∧ (∃ p',
       h' !! a = Some (EPkg p')
       ∧ pkg.Relationships p'
         = pkg.Relationships p
             ++ containsRels a (length h) (length paths))
  ∧ (∀ i path,
       paths !! i = Some path →
       ∃ f, h' !! (length h + i)%nat = Some (EFile f) ∧ file.Name f = path)
  ∧ (∀ completion' rangeOrder',
       completion' ≡ₚ fileList →
       NoDup rangeOrder' →
       (∀ k, k ∈ rangeOrder' ↔ k ∈ completion') →
       ScanFiles w completion' rangeOrder' spec a h = (Ret (), h')).
Proof.
  intros Habs Htree Ha Hperm Hnd Hkeys Hrun paths.
  pose proof (lookup_lt_Some _ _ _ Ha) as Hlt.
  assert (Herrs : (storeAll w dirPath completion).2 = []).
  { rewrite (ScanFiles_unfold w completion rangeOrder spec a h p dirPath
               fileList) in Hrun by done.
    by destruct ((storeAll w dirPath completion).2). }
  assert (Hh' : h' = scanned w dirPath a p h paths).
  { rewrite (ScanFiles_scanned w completion rangeOrder spec a h p dirPath
               fileList) in Hrun by done.
    by inversion Hrun. }
  split; [|split; [|split]].
  - split; [apply sort_Strings_Sorted|]. split.
    + unfold paths. rewrite sort_Strings_Permutation. apply NoDup_remove_dups.
    + intros k. unfold paths.
      rewrite sort_Strings_Permutation, elem_of_remove_dups. by rewrite Hperm.
  - eexists. split.
    + rewrite Hh'. unfold scanned. apply list_lookup_insert_eq.
      rewrite length_app. lia.
    + done.
  - intros i path Hi. exists (scannedFile w dirPath path).
    split; [|apply scannedFile_Name].
    rewrite Hh'. unfold scanned.
    rewrite list_lookup_insert_ne by lia.
    rewrite lookup_app_r by lia.
    replace (length h + i - length h)%nat with i by lia.
    by rewrite list_lookup_fmap, Hi.
  - intros completion' rangeOrder' Hperm' Hnd' Hkeys'. rewrite Hh'.
    apply (ScanFiles_scanned w completion' rangeOrder' spec a h p dirPath
             fileList); try done.
    apply (storeAll_errors_perm w dirPath completion); [|done].
    by rewrite Hperm, Hperm'.
Qed.

Section examples_scan.

Example sample_apk : GenerateAPKPackage Sample.spec = Ret Sample.apk.
Proof. reflexivity. Qed.

Example sample_tree :
  getDirectoryTree Sample.scan_world "/work"
  = Ret ["/usr/bin/hello"; "/usr/share/doc/README"].
Proof. vm_compute. reflexivity. Qed.

Lemma ScanFiles_sorted_contains_witness :
  ∃ h' p' f,
    ScanFiles Sample.scan_world
      ["/usr/share/doc/README"; "/usr/bin/hello"]
      ["/usr/share/doc/README"; "/usr/bin/hello"]
      Sample.spec 0 [EPkg Sample.apk] = (Ret (), h')
    ∧ h' !! 0%nat = Some (EPkg p')
    ∧ pkg.Relationships p' = [Sample.contains 0 1; Sample.contains 0 2]
    ∧ h' !! 1%nat = Some (EFile f)
    ∧ file.Name f = "/usr/bin/hello".
Proof.
  assert (∃ h', ScanFiles Sample.scan_world
                  ["/usr/share/doc/README"; "/usr/bin/hello"]
                  ["/usr/share/doc/README"; "/usr/bin/hello"]
                  Sample.spec 0 [EPkg Sample.apk] = (Ret (), h'))
    as [h' Hrun].
  { eexists. vm_compute. reflexivity. }
  destruct (ScanFiles_sorted_contains Sample.scan_world
              ["/usr/share/doc/README"; "/usr/bin/hello"]
              ["/usr/share/doc/README"; "/usr/bin/hello"]
              Sample.spec 0 [EPkg Sample.apk] h' Sample.apk "/work"
              ["/usr/bin/hello"; "/usr/share/doc/README"])
    as (_ & (p' & Hp' & Hrels) & Hfiles & _).
  - reflexivity.
  - vm_compute. reflexivity.
  - reflexivity.
  - apply perm_swap.
  - apply (bool_decide_unpack _). vm_compute. exact I.
  - intros k. reflexivity.
  - exact Hrun.
  - destruct (Hfiles 0%nat "/usr/bin/hello") as (f & Hf & Hname).
    { vm_compute. reflexivity. }
    exists h', p', f. split; [exact Hrun|]. split; [exact Hp'|].
    split; [rewrite Hrels; vm_compute; reflexivity|].
    split; [exact Hf|exact Hname].
Defined.

End examples_scan.

(** ** Where the check against the document does suppress duplicates *)

Lemma hasRelationship_false `{Libs} (h : heap)
    (rels : list spdx.Relationship.t) (bomRel : relationship.t)
    (s t : element) :
  h !! relationship.Source bomRel = Some s →
  h !! relationship.Target bomRel = Some t →
  hasRelationship h rels bomRel = Ret false →
  spdx.Relationship.mk (element_ID s) (relationship.Type_ bomRel)
                       (element_ID t) ∉ rels.
Proof.
  intros Hs Ht. induction rels as [|r rels IH]; simpl;
    [intros _ []%elem_of_nil|].
  unfold ID_at. rewrite Hs, Ht. simpl.
  destruct (String.eqb_spec (spdx.Relationship.Element r) (element_ID s))
    as [He|He].
  - destruct (String.eqb_spec (spdx.Relationship.Related r) (element_ID t))
      as [Hr|Hr]; simpl.
    + destruct (String.eqb_spec (spdx.Relationship.Type_ r)
                  (relationship.Type_ bomRel)) as [Hty|Hty]; [discriminate|].
      intros Hrest [Heq|Hin]%elem_of_cons; [by subst r|by apply IH].
    + intros Hrest [Heq|Hin]%elem_of_cons; [by subst r|by apply IH].
  - intros Hrest [Heq|Hin]%elem_of_cons; [by subst r|by apply IH].
Qed.

(** X3. A package whose targets are files without relationships of their own,
    as [ScanFiles] builds it, is lowered without emitting a triple twice. *)
Theorem leaf_files_no_duplicate `{Libs} (fuel : nat) (h : heap)
    (doc doc' : spdx.Document.t) (p : pkg.t) :
  (∀ rel t, rel ∈ pkg.Relationships p →
            h !! relationship.Target rel = Some t →
            ∃ f, t = EFile f ∧ file.Relationships f = []) →
  NoDup (spdx.Document.Relationships doc) →
  addPackage fuel h doc p = Ret doc' →
  NoDup (spdx.Document.Relationships doc').
Proof.
  intros Hleaf Hnd. destruct fuel as [|fuel]; [discriminate|]. simpl.
  apply (forRange_Ret_inv (λ d, NoDup (spdx.Document.Relationships d)));
    [done|].
  intros d1 rel d2 Hrel Hd1 Hbody.
  destruct (sbomHasRelationship h d1 rel) as [[|]| | |] eqn:Hseen;
    try discriminate; simpl in Hbody.
  { by inversion Hbody; subst. }
  destruct (match h !! relationship.Target rel with
            | Some (EPkg v) => addPackage fuel h d1 v
            | Some (EFile v) => addFile fuel h d1 v
            | None => Ret d1 end) as [d3| | |] eqn:Hlow; try discriminate.
  simpl in Hbody.
  destruct (appendRelationship_Ret _ _ _ _ Hbody) as (s & t & Hs & Ht & ->).
  destruct (Hleaf rel t Hrel Ht) as (f & -> & Hnone).
  rewrite Ht in Hlow. destruct fuel as [|fuel]; [discriminate|].
  simpl in Hlow. rewrite Hnone in Hlow. simpl in Hlow.
  inversion Hlow; subst d3. simpl.
  apply NoDup_app. split; [done|]. split; [|apply NoDup_singleton].
  intros r Hr ->%list_elem_of_singleton.
  by eapply (hasRelationship_false h _ rel s (EFile f)).
Qed.

Section examples_no_duplicate.
#[local] Existing Instance Sample.plain.

Lemma leaf_files_no_duplicate_witness :
  ∃ doc',
    addPackage 2 Sample.store Sample.blank (Sample.root Sample.rels123)
    = Ret doc'
    ∧ NoDup (spdx.Document.Relationships doc').
Proof.
  assert (∃ doc', addPackage 2 Sample.store Sample.blank
                    (Sample.root Sample.rels123) = Ret doc') as [doc' Hrun].
  { eexists. vm_compute. reflexivity. }
  exists doc'. split; [exact Hrun|].
  apply (leaf_files_no_duplicate 2 Sample.store Sample.blank doc'
           (Sample.root Sample.rels123)); [|apply NoDup_nil_2|exact Hrun].
  intros rel t Hrel Ht.
  repeat (apply elem_of_cons in Hrel as [->|Hrel];
          [inversion Ht; subst; by eexists|]).
  by apply elem_of_nil in Hrel.
Defined.

(** Where one identifier names two entities with different relationships
    the check misses a triple: the relationship from [app] to [lib] is
    checked against the document before [lib] is lowered; lowering [lib]
    emits the same triple through the copies, and it is then appended
    again. *)
Example duplicate_relationship_emitted :
  ∃ d,
    buildDocumentSPDX 4 (Sample.world None None None) Sample.mutual_store
      Sample.spec Sample.mutual_bom = Ret d
    ∧ spdx.Document.Relationships d
      = [spdx.Relationship.mk "SPDXRef-Package-app-1.0" "DEPENDS_ON"
                              "SPDXRef-Package-lib-1.0";
         spdx.Relationship.mk "SPDXRef-Package-lib-1.0" "DEPENDS_ON"
                              "SPDXRef-Package-app-1.0";
         spdx.Relationship.mk "SPDXRef-Package-app-1.0" "DEPENDS_ON"
                              "SPDXRef-Package-lib-1.0"].
Proof. eexists. split; vm_compute; reflexivity. Qed.

End examples_no_duplicate.

(** ** The document header *)

(** What [strconv_ParseInt] rejects: a text with a character that is not a
    decimal digit, the first character apart, which may be a sign. *)
Lemma parse_digits_non_digit (acc : Z) (s1 s2 : string) (c : Ascii.ascii) :
  digit_value c = None → parse_digits acc (s1 +:+ String c s2) = None.
Proof.
  intros Hc. revert acc. induction s1 as [|x s1 IH]; intros acc; simpl.
  - by rewrite Hc.
  - destruct (digit_value x); [apply IH|done].
Qed.

Lemma strconv_ParseInt_non_digit (c0 c : Ascii.ascii) (s1 s2 : string) :
  digit_value c = None →
  strconv_ParseInt (String c0 (s1 +:+ String c s2)) = None.
Proof.
  intros Hc. unfold strconv_ParseInt.
  assert (Hrest : ∀ acc, parse_digits acc (s1 +:+ String c s2) = None)
    by (intros; by apply parse_digits_non_digit).
  assert (Hne : ∃ x s, s1 +:+ String c s2 = String x s)
    by (destruct s1; simpl; eauto).
  destruct Hne as (x & s & Hxs).
  destruct (Ascii.eqb c0 "+"); [|destruct (Ascii.eqb c0 "-")].
  - rewrite Hxs, <- Hxs. by rewrite Hrest.
  - rewrite Hxs, <- Hxs. by rewrite Hrest.
  - simpl. destruct (digit_value c0); [by rewrite Hrest|done].
Qed.

Lemma strconv_ParseInt_range (s : string) (n : Z) :
  strconv_ParseInt s = Some n → - 2 ^ 63 ≤ n ≤ 2 ^ 63 - 1.
Proof.
  unfold strconv_ParseInt. destruct s as [|c rest]; [done|].
  destruct (if Ascii.eqb c "+" then _ else _) as [neg ds].
  destruct ds; [done|]. destruct (parse_digits _ _); [|done].
  destruct (_ && _) eqn:Hr; [|done]. intros [= <-].
  apply andb_true_iff in Hr as [?%Z.leb_le ?%Z.leb_le]. lia.
Qed.

Lemma sbomTime_cases `{Libs} (w : World) :
  sbomTime w
  = match w_environ w !! "SOURCE_DATE_EPOCH" with
    | Some v =>
        match strconv_ParseInt v with
        | Some sec => Ret (time_RFC3339 sec)
        | None => Fail (fmt_Errorf "failed to parse SOURCE_DATE_EPOCH"
                                   (lib_error "strconv.ParseInt"))
        end
    | None => Ret (time_RFC3339 (w_now w))
    end.
Proof. reflexivity. Qed.

(** The two loops of [buildDocumentSPDX] keep the creation information of
    the document they start from. *)
Lemma describe_packages_CreationInfo `{Libs} (fuel : nat) (h : heap)
    (ps : list pkg.t) (d d' : spdx.Document.t) :
  forRange
    (λ spdxDoc p,
       addPackage fuel h
         (spdx.Document.set_DocumentDescribes
            (spdx.Document.DocumentDescribes spdxDoc ++ [pkg_ID p]) spdxDoc)
         p) d ps = Ret d' →
  spdx.Document.CreationInfo d' = spdx.Document.CreationInfo d.
Proof.
  apply (forRange_Ret_inv
           (λ x, spdx.Document.CreationInfo x = spdx.Document.CreationInfo d));
    [done|].
  intros d1 p d2 _ Hd1 [? ? ? Hc ? ? ? ? ? ? ?]%addPackage_extends.
  by rewrite Hc.
Qed.

Lemma describe_files_CreationInfo `{Libs} (fuel : nat) (h : heap)
    (fs : list file.t) (d d' : spdx.Document.t) :
  forRange
    (λ spdxDoc f,
       addFile fuel h
         (spdx.Document.set_DocumentDescribes
            (spdx.Document.DocumentDescribes spdxDoc ++ [file_ID f]) spdxDoc)
         f) d fs = Ret d' →
  spdx.Document.CreationInfo d' = spdx.Document.CreationInfo d.
Proof.
  apply (forRange_Ret_inv
           (λ x, spdx.Document.CreationInfo x = spdx.Document.CreationInfo d));
    [done|].
  intros d1 p d2 _ Hd1 [? ? ? Hc ? ? ? ? ? ? ?]%addFile_extends.
  by rewrite Hc.
Qed.

Lemma buildDocumentSPDX_Created `{Libs} (fuel : nat) (w : World) (h : heap)
    (spec : Spec.t) (doc : bom.t) (d : spdx.Document.t) :
  buildDocumentSPDX fuel w h spec doc = Ret d →
  sbomTime w = Ret (spdx.CreationInfo.Created (spdx.Document.CreationInfo d)).
Proof.
  unfold buildDocumentSPDX.
  destruct (sbomTime w) as [t| | |]; try discriminate. simpl.
  match goal with
  | |- context [forRange ?b ?d0 (bom.Packages doc)] =>
      destruct (forRange b d0 (bom.Packages doc)) as [d1| | |] eqn:Hp
  end; try discriminate.
  simpl. intros Hf.
  apply describe_files_CreationInfo in Hf.
  apply describe_packages_CreationInfo in Hp.
  by rewrite Hf, Hp.
Qed.

Lemma buildDocumentSPDX_bad_epoch `{Libs} (fuel : nat) (w : World) (h : heap)
    (spec : Spec.t) (doc : bom.t) (e : error) :
  sbomTime w = Fail e → buildDocumentSPDX fuel w h spec doc = Fail e.
Proof. unfold buildDocumentSPDX. by intros ->. Qed.

(** C5. When [SOURCE_DATE_EPOCH] is set and parses as a base-10 64-bit
    integer, the creation time of the document is that number of seconds
    rendered as RFC 3339 in UTC, whatever the clock says; when it is set and
    does not parse, [WriteSBOM] fails with the parse error and leaves the
    files as they were, so no output file comes into existence. *)
Theorem SOURCE_DATE_EPOCH_override `{Libs} (fuel : nat) (w : World)
    (h : heap) (spec : Spec.t) (doc : bom.t) (v : string) :
  w_environ w !! "SOURCE_DATE_EPOCH" = Some v →
  match strconv_ParseInt v with
  | Some sec =>
      sbomTime w = Ret (time_RFC3339 sec)
      ∧ ∀ d, buildDocumentSPDX fuel w h spec doc = Ret d →
             spdx.CreationInfo.Created (spdx.Document.CreationInfo d)
             = time_RFC3339 sec
  | None =>
      WriteSBOM fuel w h spec doc
      = (Fail (fmt_Errorf "building SPDX document"
                 (fmt_Errorf "failed to parse SOURCE_DATE_EPOCH"
                             (lib_error "strconv.ParseInt"))),
         w_files w)
  end.
Proof.
  intros Henv. pose proof (sbomTime_cases w) as Ht. rewrite Henv in Ht.
  destruct (strconv_ParseInt v) as [sec|].
  - split; [done|]. intros d Hd%buildDocumentSPDX_Created. congruence.
  - unfold WriteSBOM.
    by rewrite (buildDocumentSPDX_bad_epoch fuel w h spec doc _ Ht).
Qed.

(** ** The merge of the build-environment SBOM *)

Lemma spliceRef_spec `{Libs} (p : spdx.Package.t) (ret : list spdx.Package.t)
    (e : spdx.ExternalRef.t) :
  spliceRef p ret e
  = if panicsOn e then Panic
    else Ret (ret ++ (if keepsRef e then [p] else [])).
Proof.
  unfold spliceRef, keepsRef, panicsOn.
  destruct (String.eqb _ "purl"); simpl; [|by rewrite app_nil_r].
  destruct (purl_FromString _) as [pl|err|]; [|by rewrite app_nil_r|done].
  destruct (String.eqb (purl.Type_ pl) _); simpl; by rewrite ?app_nil_r.
Qed.

Lemma spliceRefs_spec `{Libs} (p : spdx.Package.t)
    (refs : list spdx.ExternalRef.t) (ret : list spdx.Package.t) :
  forRange (spliceRef p) ret refs
  = if existsb panicsOn refs then Panic
    else Ret (ret ++ ((λ _, p) <$> filter keepsRef refs)).
Proof.
  revert ret. induction refs as [|e refs IH]; intros ret; simpl.
  - by rewrite app_nil_r.
  - rewrite spliceRef_spec. destruct (panicsOn e); simpl; [done|].
    rewrite IH. destruct (existsb panicsOn refs); [done|].
    rewrite filter_cons.
    case_decide as Hk; destruct (keepsRef e); try done; simpl.
    + by rewrite <- app_assoc.
    + by rewrite app_nil_r.
Qed.

(** The loops over the upstream packages and their references: a panic of
    the parser on a reference of type "purl" ends the call; otherwise each
    upstream package is spliced once for each reference that keeps it. *)
Lemma nonOCIPackages_spec `{Libs} (packages : list spdx.Package.t) :
  nonOCIPackages packages
  = if existsb (λ p, existsb panicsOn (spdx.Package.ExternalRefs p)) packages
    then Panic
    else Ret (splicedPackages packages).
Proof.
  unfold nonOCIPackages, splicedPackages.
  enough (∀ ret,
            forRange
              (λ ret p,
                 if (0 <? length (spdx.Package.ExternalRefs p))%nat
                 then forRange (spliceRef p) ret (spdx.Package.ExternalRefs p)
                 else Ret ret) ret packages
            = if existsb (λ p, existsb panicsOn (spdx.Package.ExternalRefs p))
                         packages
              then Panic
              else Ret (ret ++ (packages ≫= (λ p, (λ _, p) <$>
                          filter keepsRef (spdx.Package.ExternalRefs p)))))
    as Hgen by apply Hgen.
  induction packages as [|p packages IH]; intros ret; csimpl.
  - by rewrite app_nil_r.
  - assert (Hp : (if (0 <? length (spdx.Package.ExternalRefs p))%nat
                  then forRange (spliceRef p) ret (spdx.Package.ExternalRefs p)
                  else Ret ret)
                 = forRange (spliceRef p) ret (spdx.Package.ExternalRefs p))
      by (by destruct (spdx.Package.ExternalRefs p)).
    rewrite Hp, spliceRefs_spec.
    destruct (existsb panicsOn (spdx.Package.ExternalRefs p)); simpl; [done|].
    rewrite IH. destruct (existsb _ packages); [done|].
    by rewrite app_assoc.
Qed.

Lemma elem_of_splicedPackages `{Libs} (packages : list spdx.Package.t)
    (p : spdx.Package.t) :
  p ∈ splicedPackages packages
  ↔ p ∈ packages ∧ ∃ e, e ∈ spdx.Package.ExternalRefs p ∧ keepsRef e = true.
Proof.
  unfold splicedPackages. rewrite list_elem_of_bind. split.
  - intros (q & (e & -> & (Hk & He)%list_elem_of_filter)%list_elem_of_fmap & Hq).
    split; [done|]. exists e. split; [done|]. by destruct (keepsRef e).
  - intros (Hp & e & He & Hk). exists p. split; [|done].
    apply list_elem_of_fmap. exists e. split; [done|].
    apply list_elem_of_filter. split; [|done]. by rewrite Hk.
Qed.

Lemma merge_Relationships (rootId : string) (ret : list spdx.Package.t)
    (d : spdx.Document.t) :
  foldl (λ apkSBOM p,
           spdx.Document.set_Relationships
             (spdx.Document.Relationships apkSBOM
                ++ [spdx.Relationship.mk (spdx.Package.ID p)
                      "BUILD_DEPENDENCY_OF" rootId]) apkSBOM) d ret
  = spdx.Document.set_Relationships
      (spdx.Document.Relationships d ++ (buildDependency rootId <$> ret)) d.
Proof.
  revert d. induction ret as [|p ret IH]; intros d; simpl.
  - rewrite app_nil_r. by destruct d.
  - rewrite IH. simpl. by rewrite <- app_assoc.
Qed.

(** X18. The outcomes of [ParseBuildSBOM], in the order of the code: the
    error of reading the build-environment SBOM; the error of decoding it;
    the error of a package document without a described root; a panic when
    the parser panics on the locator of a reference of type "purl" of an
    upstream package; otherwise the merged document. A locator that the
    parser rejects with an error neither splices its package nor stops the
    merge. *)
Theorem ParseBuildSBOM_outcomes `{Libs} (w : World) (spec : Spec.t)
    (apkSBOM : spdx.Document.t) :
  ParseBuildSBOM w spec apkSBOM
  = match w_files w !! Spec_BuildEnvSBOM spec with
    | None =>
        Fail (fmt_Errorf ("opening build environment SBOM from "
                            +:+ Spec_BuildEnvSBOM spec)
                         (lib_error "os.ReadFile"))
    | Some data =>
        match json_Unmarshal data with
        | None =>
            Fail (fmt_Errorf "unmarshaling build time SBOM"
                             (lib_error "json.Unmarshal"))
        | Some buildSBOM =>
            match spdx.Document.DocumentDescribes apkSBOM with
            | [] => Fail (errors_New "apk package sbom has no root elements")
            | rootId :: _ =>
                if existsb (λ p, existsb panicsOn (spdx.Package.ExternalRefs p))
                           (spdx.Document.Packages buildSBOM)
                then Panic
                else
                  Ret (spdx.Document.set_Relationships
                         (spdx.Document.Relationships apkSBOM
                            ++ (buildDependency rootId
                                  <$> splicedPackages
                                        (spdx.Document.Packages buildSBOM)))
                         (spdx.Document.set_Packages
                            (spdx.Document.Packages apkSBOM
                               ++ splicedPackages
                                    (spdx.Document.Packages buildSBOM))
                            apkSBOM))
            end
        end
    end
  ∧ ∀ e err,
      purl_FromString (spdx.ExternalRef.Locator e) = purl.Malformed err →
      keepsRef e = false ∧ panicsOn e = false.
Proof.
  split.
  - unfold ParseBuildSBOM.
    destruct (w_files w !! Spec_BuildEnvSBOM spec) as [data|]; [|done].
    destruct (json_Unmarshal data) as [buildSBOM|]; [|done].
    destruct (spdx.Document.DocumentDescribes apkSBOM) as [|rootId ids];
      [done|].
    rewrite nonOCIPackages_spec.
    destruct (existsb _ (spdx.Document.Packages buildSBOM)); [done|].
    simpl. by rewrite merge_Relationships.
  - intros e err Hbad. unfold keepsRef, panicsOn. rewrite Hbad.
    by rewrite !andb_false_r.
Qed.

Lemma ParseBuildSBOM_Ret `{Libs} (w : World) (spec : Spec.t)
    (apkSBOM d : spdx.Document.t) :
  ParseBuildSBOM w spec apkSBOM = Ret d →
  ∃ data buildSBOM rootId ids,
    w_files w !! Spec_BuildEnvSBOM spec = Some data
    ∧ json_Unmarshal data = Some buildSBOM
    ∧ spdx.Document.DocumentDescribes apkSBOM = rootId :: ids
    ∧ d = spdx.Document.set_Relationships
            (spdx.Document.Relationships apkSBOM
               ++ (buildDependency rootId
                     <$> splicedPackages (spdx.Document.Packages buildSBOM)))
            (spdx.Document.set_Packages
               (spdx.Document.Packages apkSBOM
                  ++ splicedPackages (spdx.Document.Packages buildSBOM))
               apkSBOM).
Proof.
  unfold ParseBuildSBOM.
  destruct (w_files w !! Spec_BuildEnvSBOM spec) as [data|] eqn:Hread;
    [|discriminate].
  destruct (json_Unmarshal data) as [buildSBOM|] eqn:Hdec; [|discriminate].
  destruct (spdx.Document.DocumentDescribes apkSBOM) as [|rootId ids] eqn:Hd;
    [discriminate|].
  rewrite nonOCIPackages_spec.
  destruct (existsb _ (spdx.Document.Packages buildSBOM)); [discriminate|].
  simpl. rewrite merge_Relationships. intros [= <-].
  by exists data, buildSBOM, rootId, ids.
Qed.

Section examples_merge.
#[local] Existing Instance Sample.decoding.

(** C3 fails on the code: an upstream package with two package URLs that
    are not container images is spliced twice and gets two relationship
    records. *)
Theorem package_with_two_urls_spliced_twice :
  ParseBuildSBOM (Sample.world None (Some Sample.busyboxData) None)
    Sample.spec
    (spdx.Document.set_DocumentDescribes ["SPDXRef-Package-hello-2.12-r0"]
       Sample.blank)
  = Ret (spdx.Document.set_Relationships
           [buildDependency "SPDXRef-Package-hello-2.12-r0" Sample.busybox;
            buildDependency "SPDXRef-Package-hello-2.12-r0" Sample.busybox]
           (spdx.Document.set_Packages [Sample.busybox; Sample.busybox]
              (spdx.Document.set_DocumentDescribes
                 ["SPDXRef-Package-hello-2.12-r0"] Sample.blank))).
Proof. vm_compute. reflexivity. Qed.

(** C4 fails on the code: the comment on the loop says that malformed
    package URLs are skipped, but a locator whose qualifier has no value
    makes the parser panic, and the merge panics with it. *)
Theorem malformed_locator_panics :
  purl_FromString "pkg:apk/alpine/odd@1.0?arch" = purl.Panics
  ∧ ParseBuildSBOM (Sample.world None (Some Sample.oddData) None)
      Sample.spec
      (spdx.Document.set_DocumentDescribes ["SPDXRef-Package-hello-2.12-r0"]
         Sample.blank)
    = Panic.
Proof. split; vm_compute; reflexivity. Qed.

End examples_merge.

(** ** What the merge adds *)

(** X2. On success the merge appends, for each upstream package and each of its
    references of type "purl" whose locator parses to a type other than
    the container-image type, one copy of the package and one
    "BUILD_DEPENDENCY_OF" relationship from it to the first described root;
    a package is among the spliced ones exactly when it has such a
    reference. Nothing else of the document changes. *)
Theorem ParseBuildSBOM_splices `{Libs} (w : World) (spec : Spec.t)
    (apkSBOM d : spdx.Document.t) :
  ParseBuildSBOM w spec apkSBOM = Ret d →
  ∃ data buildSBOM rootId spliced,
    w_files w !! Spec_BuildEnvSBOM spec = Some data
    ∧ json_Unmarshal data = Some buildSBOM
    ∧ head (spdx.Document.DocumentDescribes apkSBOM) = Some rootId
    ∧ spliced
      = spdx.Document.Packages buildSBOM
          ≫= (λ p, (λ _, p) <$> filter keepsRef (spdx.Package.ExternalRefs p))
    ∧ (∀ p, p ∈ spliced
            ↔ p ∈ spdx.Document.Packages buildSBOM
              ∧ ∃ e, e ∈ spdx.Package.ExternalRefs p ∧ keepsRef e = true)
    ∧ spdx.Document.Packages d = spdx.Document.Packages apkSBOM ++ spliced
    ∧ spdx.Document.Relationships d
      = spdx.Document.Relationships apkSBOM
          ++ (buildDependency rootId <$> spliced)
    ∧ spdx.Document.Files d = spdx.Document.Files apkSBOM
    ∧ spdx.Document.DocumentDescribes d
      = spdx.Document.DocumentDescribes apkSBOM.
Proof.
  intros (data & buildSBOM & rootId & ids & Hread & Hdec & Hroot & ->)
    %ParseBuildSBOM_Ret.
  exists data, buildSBOM, rootId,
         (splicedPackages (spdx.Document.Packages buildSBOM)).
  split; [done|]. split; [done|]. split; [by rewrite Hroot|].
  split; [done|].
  split; [apply elem_of_splicedPackages|]. done.
Qed.

Section examples_splices.
#[local] Existing Instance Sample.decoding.

Lemma ParseBuildSBOM_splices_witness :
  ∃ d,
    ParseBuildSBOM (Sample.world None (Some Sample.buildEnvData) None)
      Sample.spec
      (spdx.Document.set_DocumentDescribes ["SPDXRef-Package-hello-2.12-r0"]
         Sample.blank) = Ret d
    ∧ spdx.Document.Packages d = [Sample.musl]
    ∧ spdx.Document.Relationships d
      = [buildDependency "SPDXRef-Package-hello-2.12-r0" Sample.musl].
Proof.
  assert (∃ d, ParseBuildSBOM
                 (Sample.world None (Some Sample.buildEnvData) None)
                 Sample.spec
                 (spdx.Document.set_DocumentDescribes
                    ["SPDXRef-Package-hello-2.12-r0"] Sample.blank) = Ret d)
    as [d Hd].
  { eexists. vm_compute. reflexivity. }
  destruct (ParseBuildSBOM_splices _ _ _ _ Hd)
    as (data & buildSBOM & rootId & spliced & Hread & Hdec & Hroot & Hs
        & _ & Hp & Hr & _).
  exists d. split; [exact Hd|].
  assert (data = Sample.buildEnvData) as -> by (by inversion Hread).
  assert (buildSBOM = Sample.buildDocument
                        [Sample.musl; Sample.image; Sample.broken])
    as -> by (by inversion Hdec).
  assert (rootId = "SPDXRef-Package-hello-2.12-r0") as ->
    by (by inversion Hroot).
  assert (spliced = [Sample.musl]) as -> by (rewrite Hs; by vm_compute).
  split; [exact Hp|exact Hr].
Defined.

End examples_splices.

(** ** The writer *)

(** C9, as the code has it. When [WriteSBOM] succeeds, the file at the
    package SBOM path holds the complete encoding of the built and merged
    document. When it fails while building, merging or creating the file,
    the files are as they were. When the write of the encoding fails, the
    created file stays, holding the part that was written. *)
Theorem WriteSBOM_outcomes `{Libs} (fuel : nat) (w : World) (h : heap)
    (spec : Spec.t) (doc : bom.t) :
  match WriteSBOM fuel w h spec doc with
  | (Ret _, files) =>
      ∃ d d',
        buildDocumentSPDX fuel w h spec doc = Ret d
        ∧ ParseBuildSBOM w spec d = Ret d'
        ∧ files = <[Spec_PackageSBOM spec := json_Encode d']> (w_files w)
  | (Fail e, files) =>
      (e ≠ encodingFailed ∧ files = w_files w)
      ∨ (e = encodingFailed
         ∧ ∃ n d d',
             w_write_fault w = Some n
             ∧ buildDocumentSPDX fuel w h spec doc = Ret d
             ∧ ParseBuildSBOM w spec d = Ret d'
             ∧ files = <[Spec_PackageSBOM spec :=
                           String.substring 0 n (json_Encode d')]>
                         (w_files w))
  | (_, files) => files = w_files w
  end.
Proof.
  unfold WriteSBOM.
  destruct (buildDocumentSPDX fuel w h spec doc) as [d| | |]; auto.
  destruct (ParseBuildSBOM w spec d) as [d'| | |] eqn:Hparse; auto.
  destruct (w_creatable w (Spec_PackageSBOM spec)); auto.
  destruct (w_write_fault w) as [n|].
  - right. split; [done|]. by exists n, d, d'.
  - by exists d, d'.
Qed.

Section examples_writer.
#[local] Existing Instance Sample.decoding.

Lemma SOURCE_DATE_EPOCH_override_witness :
  (∃ d,
     buildDocumentSPDX 2 (Sample.world (Some "1667433600") None None)
       Sample.store Sample.spec Sample.hello_bom = Ret d
     ∧ spdx.CreationInfo.Created (spdx.Document.CreationInfo d)
       = time_RFC3339 1667433600)
  ∧ WriteSBOM 2 (Sample.world (Some "yesterday") None None)
      Sample.store Sample.spec Sample.hello_bom
    = (Fail (fmt_Errorf "building SPDX document"
               (fmt_Errorf "failed to parse SOURCE_DATE_EPOCH"
                           (lib_error "strconv.ParseInt"))), ∅).
Proof.
  split.
  - assert (∃ d, buildDocumentSPDX 2
                   (Sample.world (Some "1667433600") None None)
                   Sample.store Sample.spec Sample.hello_bom = Ret d)
      as [d Hd].
    { eexists. vm_compute. reflexivity. }
    exists d. split; [exact Hd|].
    exact (proj2 (SOURCE_DATE_EPOCH_override 2
                    (Sample.world (Some "1667433600") None None)
                    Sample.store Sample.spec Sample.hello_bom "1667433600"
                    eq_refl) d Hd).
  - exact (SOURCE_DATE_EPOCH_override 2
             (Sample.world (Some "yesterday") None None)
             Sample.store Sample.spec Sample.hello_bom "yesterday" eq_refl).
Defined.

Example sample_epoch : time_RFC3339 1667433600 = "2022-11-03T00:00:00Z".
Proof. vm_compute. reflexivity. Qed.

(** C9, as stated, fails: the write of the encoding fails after the output
    file was created, [WriteSBOM] returns an error, and the file exists,
    empty, where there was none before. *)
Lemma failed_write_leaves_a_file :
  let w := Sample.world None (Some Sample.buildEnvData) (Some 0%nat) in
  let '(written, files) :=
    WriteSBOM 2 w Sample.store Sample.spec Sample.hello_bom in
  w_files w !! Spec_PackageSBOM Sample.spec = None
  ∧ written = Fail encodingFailed
  ∧ files !! Spec_PackageSBOM Sample.spec = Some "".
Proof. vm_compute. repeat split. Qed.

End examples_writer.

(** ** No dangling reference *)

Lemma recordIDs_extends (d d' : spdx.Document.t) (i : string) :
  extends d d' → i ∈ recordIDs d → i ∈ recordIDs d'.
Proof.
  intros [_ _ _ _ _ _ _ _ [ps Hps] [fs Hfs] _]. unfold recordIDs.
  rewrite Hps, Hfs, !fmap_app, !elem_of_app. tauto.
Qed.

Lemma recordIDs_package (d d' : spdx.Document.t) (x : spdx.Package.t) :
  extends (spdx.Document.set_Packages (spdx.Document.Packages d ++ [x]) d) d' →
  spdx.Package.ID x ∈ recordIDs d'.
Proof.
  intros Hext. eapply recordIDs_extends; [exact Hext|].
  unfold recordIDs. simpl. rewrite fmap_app, !elem_of_app. left. right.
  by apply list_elem_of_singleton.
Qed.

Lemma recordIDs_file (d d' : spdx.Document.t) (x : spdx.File.t) :
  extends (spdx.Document.set_Files (spdx.Document.Files d ++ [x]) d) d' →
  spdx.File.ID x ∈ recordIDs d'.
Proof.
  intros Hext. eapply recordIDs_extends; [exact Hext|].
  unfold recordIDs. simpl. rewrite fmap_app, !elem_of_app. right. right.
  by apply list_elem_of_singleton.
Qed.

Lemma resolve_more_records (d d' : spdx.Document.t) :
  relationshipsResolve d →
  spdx.Document.Relationships d' = spdx.Document.Relationships d →
  (∀ i, i ∈ recordIDs d → i ∈ recordIDs d') →
  relationshipsResolve d'.
Proof.
  intros Hres Hrels Hids r Hr. rewrite Hrels in Hr.
  destruct (Hres r Hr). auto.
Qed.

Lemma resolve_set_Packages (d : spdx.Document.t) (x : spdx.Package.t) :
  relationshipsResolve d →
  relationshipsResolve
    (spdx.Document.set_Packages (spdx.Document.Packages d ++ [x]) d).
Proof.
  intros Hres. eapply resolve_more_records; [exact Hres|done|].
  intros i. apply recordIDs_extends, extends_set_Packages.
Qed.

Lemma resolve_set_Files (d : spdx.Document.t) (x : spdx.File.t) :
  relationshipsResolve d →
  relationshipsResolve
    (spdx.Document.set_Files (spdx.Document.Files d ++ [x]) d).
Proof.
  intros Hres. eapply resolve_more_records; [exact Hres|done|].
  intros i. apply recordIDs_extends, extends_set_Files.
Qed.

Lemma resolve_append (d : spdx.Document.t) (s ty t : string) :
  relationshipsResolve d → s ∈ recordIDs d → t ∈ recordIDs d →
  relationshipsResolve
    (spdx.Document.set_Relationships
       (spdx.Document.Relationships d ++ [spdx.Relationship.mk s ty t]) d).
Proof.
  intros Hres Hs Ht r. simpl.
  intros [Hr| ->%list_elem_of_singleton]%elem_of_app; [by apply Hres|done].
Qed.

(** The target of a relationship, once lowered, has a record. *)
Lemma target_lowered `{Libs} (h : heap) (fuel : nat) (rel : relationship.t)
    (t : element) (d d' : spdx.Document.t) :
  h !! relationship.Target rel = Some t →
  match h !! relationship.Target rel with
  | Some (EFile v) => addFile fuel h d v
  | Some (EPkg v) => addPackage fuel h d v
  | None => Ret d
  end = Ret d' →
  extends d d' ∧ element_ID t ∈ recordIDs d'.
Proof.
  intros ->. destruct t as [q|f]; simpl.
  - intros Hq%addPackage_extends. split.
    + eapply extends_trans; [apply extends_set_Packages|done].
    + rewrite <- (spdxPackage_ID h q). by eapply recordIDs_package.
  - intros Hf%addFile_extends. split.
    + eapply extends_trans; [apply extends_set_Files|done].
    + change (file_ID f) with (spdx.File.ID (spdxFile f)).
      by eapply recordIDs_file.
Qed.

Section lowering_resolves.
Context `{Libs} (h : heap).
Hypothesis heap_owned :
  ∀ a p, h !! a = Some (EPkg p) → sourcesAre h (pkg_ID p) (pkg.Relationships p).

Lemma lowering_resolves (fuel : nat) :
  (∀ doc p doc',
     sourcesAre h (pkg_ID p) (pkg.Relationships p) →
     relationshipsResolve doc →
     addPackage fuel h doc p = Ret doc' →
     relationshipsResolve doc')
  ∧ (∀ doc f doc',
       relationshipsResolve doc →
       addFile fuel h doc f = Ret doc' →
       relationshipsResolve doc').
Proof.
  induction fuel as [|fuel [IHp IHf]]; [by split|].
  assert (Htarget : ∀ doc rel doc',
            relationshipsResolve doc →
            match h !! relationship.Target rel with
            | Some (EFile v) => addFile fuel h doc v
            | Some (EPkg v) => addPackage fuel h doc v
            | None => Ret doc
            end = Ret doc' → relationshipsResolve doc').
  { intros doc rel doc' Hres Hrun.
    destruct (h !! relationship.Target rel) as [[q|g]|] eqn:Ht.
    - eapply IHp; eauto.
    - eapply IHf; eauto.
    - by inversion Hrun; subst. }
  split.
  - intros doc p doc' Hown Hres Hrun. simpl in Hrun.
    set (doc0 := spdx.Document.set_Packages
                   (spdx.Document.Packages doc ++ [spdxPackage h p]) doc)
      in Hrun.
    enough (relationshipsResolve doc' ∧ extends doc0 doc') by tauto.
    revert Hrun.
    apply (forRange_Ret_inv (λ d, relationshipsResolve d ∧ extends doc0 d)).
    { split; [by apply resolve_set_Packages|apply extends_refl]. }
    intros d1 rel d2 Hrel [Hres1 Hext1] Hbody.
    destruct (sbomHasRelationship h d1 rel) as [[|]| | |];
      try discriminate; simpl in Hbody.
    { by inversion Hbody; subst. }
    destruct (match h !! relationship.Target rel with
              | Some (EPkg v) => addPackage fuel h d1 v
              | Some (EFile v) => addFile fuel h d1 v
              | None => Ret d1 end) as [d3| | |] eqn:Hlow; try discriminate.
    simpl in Hbody.
    destruct (appendRelationship_Ret _ _ _ _ Hbody) as (s & t & Hs & Ht & ->).
    destruct (target_lowered h fuel rel t d1 d3 Ht Hlow) as [Hext3 Hid].
    split.
    + apply resolve_append; [by eapply Htarget| |done].
      rewrite (Hown rel s Hrel Hs), <- (spdxPackage_ID h p).
      eapply recordIDs_package, extends_trans; [exact Hext1|exact Hext3].
    + eapply extends_trans; [exact Hext1|].
      eapply extends_trans; [exact Hext3|apply extends_set_Relationships].
  - intros doc f doc' Hres Hrun. simpl in Hrun.
    revert Hrun. apply forRange_Ret_inv; [by apply resolve_set_Files|].
    intros d1 rel d2 _ Hres1 Hbody.
    destruct (sbomHasRelationship h d1 rel) as [[|]| | |];
      try discriminate; simpl in Hbody.
    + by inversion Hbody; subst.
    + by eapply Htarget.
Qed.

Lemma addPackage_resolves (fuel : nat) (doc doc' : spdx.Document.t)
    (p : pkg.t) :
  sourcesAre h (pkg_ID p) (pkg.Relationships p) →
  relationshipsResolve doc →
  addPackage fuel h doc p = Ret doc' →
  relationshipsResolve doc'.
Proof. apply lowering_resolves. Qed.

Lemma addFile_resolves (fuel : nat) (doc doc' : spdx.Document.t)
    (f : file.t) :
  relationshipsResolve doc →
  addFile fuel h doc f = Ret doc' →
  relationshipsResolve doc'.
Proof. apply lowering_resolves. Qed.

End lowering_resolves.

Lemma buildDocumentSPDX_noDangling `{Libs} (fuel : nat) (w : World) (h : heap)
    (spec : Spec.t) (doc : bom.t) (d : spdx.Document.t) :
  sourcesOwned h doc →
  buildDocumentSPDX fuel w h spec doc = Ret d →
  noDangling d.
Proof.
  intros [Htop Hheap]. unfold buildDocumentSPDX.
  destruct (sbomTime w) as [t| | |]; try discriminate. simpl.
  match goal with
  | |- context [forRange ?b ?d0 (bom.Packages doc)] =>
      destruct (forRange b d0 (bom.Packages doc)) as [d1| | |] eqn:Hp;
      [assert (noDangling d0) as Hd0 by (split; intros ? []%elem_of_nil)
      |discriminate..]
  end.
  simpl. intros Hf.
  assert (noDangling d1) as Hd1.
  { revert Hp. apply (forRange_Ret_inv noDangling); [exact Hd0|].
    intros x p y Hp [Hres Hdesc] Hrun.
    pose proof (addPackage_extends _ _ _ _ _ Hrun) as Hext.
    split.
    - eapply (addPackage_resolves h Hheap); [by apply Htop| |exact Hrun].
      by eapply resolve_more_records.
    - intros i. rewrite (ext_DocumentDescribes _ _ Hext). simpl.
      intros [Hi| ->%list_elem_of_singleton]%elem_of_app.
      + eapply recordIDs_extends; [exact Hext|].
        eapply recordIDs_extends; [apply extends_set_Packages|]. by apply Hdesc.
      + rewrite <- (spdxPackage_ID h p). by eapply recordIDs_package. }
  revert Hf. apply (forRange_Ret_inv noDangling); [exact Hd1|].
  intros x f y _ [Hres Hdesc] Hrun.
  pose proof (addFile_extends _ _ _ _ _ Hrun) as Hext.
  split.
  - eapply (addFile_resolves h Hheap); [|exact Hrun].
    by eapply resolve_more_records.
  - intros i. rewrite (ext_DocumentDescribes _ _ Hext). simpl.
    intros [Hi| ->%list_elem_of_singleton]%elem_of_app.
    + eapply recordIDs_extends; [exact Hext|].
      eapply recordIDs_extends; [apply extends_set_Files|]. by apply Hdesc.
    + change (file_ID f) with (spdx.File.ID (spdxFile f)).
      by eapply recordIDs_file.
Qed.

Lemma ParseBuildSBOM_noDangling `{Libs} (w : World) (spec : Spec.t)
    (d d' : spdx.Document.t) :
  noDangling d → ParseBuildSBOM w spec d = Ret d' → noDangling d'.
Proof.
  intros [Hres Hdesc]
    (data & buildSBOM & rootId & ids & _ & _ & Hroot & ->)%ParseBuildSBOM_Ret.
  set (ret := splicedPackages (spdx.Document.Packages buildSBOM)).
  assert (Hids : ∀ i, i ∈ recordIDs d →
            i ∈ (spdx.Package.ID <$> spdx.Document.Packages d ++ ret)
                ++ (spdx.File.ID <$> spdx.Document.Files d)).
  { intros i. unfold recordIDs. rewrite fmap_app, !elem_of_app. tauto. }
  split.
  - intros r. simpl. intros [Hr|Hr]%elem_of_app.
    + destruct (Hres r Hr). split; by apply Hids.
    + apply list_elem_of_fmap in Hr as (p & -> & Hp). simpl. split.
      * unfold recordIDs. simpl. rewrite fmap_app, !elem_of_app.
        left. right. by apply list_elem_of_fmap_2.
      * apply Hids, Hdesc. rewrite Hroot. by left.
  - intros i Hi. by apply Hids, Hdesc.
Qed.

(** X19. When every relationship recorded on a package has that package as
    its source (an entity with the package's identifier), the document that
    [buildDocumentSPDX] builds and [ParseBuildSBOM] then merges has no
    dangling reference, also when several entities share an identifier. *)
Theorem owned_sources_no_dangling `{Libs} (fuel : nat) (w : World) (h : heap)
    (spec : Spec.t) (doc : bom.t) (d d' : spdx.Document.t) :
  sourcesOwned h doc →
  buildDocumentSPDX fuel w h spec doc = Ret d →
  ParseBuildSBOM w spec d = Ret d' →
  noDangling d'.
Proof.
  intros Hown Hbuild Hmerge.
  eapply ParseBuildSBOM_noDangling; [|exact Hmerge].
  by eapply buildDocumentSPDX_noDangling.
Qed.

Section examples_graph.
#[local] Existing Instance Sample.decoding.

Lemma sample_sourcesOwned : sourcesOwned Sample.store Sample.hello_bom.
Proof.
  assert (Hroot : sourcesAre Sample.store (pkg_ID (Sample.root Sample.rels123))
                    Sample.rels123).
  { intros rel s Hrel Hs.
    repeat (apply elem_of_cons in Hrel as [->|Hrel];
            [by inversion Hs; subst|]).
    by apply elem_of_nil in Hrel. }
  split.
  - intros p ->%list_elem_of_singleton. exact Hroot.
  - intros [|[|[|[|a]]]] p; intros [=]; subst. exact Hroot.
Qed.

Lemma owned_sources_no_dangling_witness :
  ∃ d d',
    buildDocumentSPDX 2 (Sample.world None (Some Sample.buildEnvData) None)
      Sample.store Sample.spec Sample.hello_bom = Ret d
    ∧ ParseBuildSBOM (Sample.world None (Some Sample.buildEnvData) None)
        Sample.spec d = Ret d'
    ∧ length (spdx.Document.Relationships d') = 4%nat
    ∧ noDangling d'.
Proof.
  eexists _, _.
  split; [vm_compute; reflexivity|].
  split; [vm_compute; reflexivity|].
  split; [vm_compute; reflexivity|].
  eapply (owned_sources_no_dangling 2
            (Sample.world None (Some Sample.buildEnvData) None) Sample.store
            Sample.spec Sample.hello_bom).
  - exact sample_sourcesOwned.
  - vm_compute. reflexivity.
  - vm_compute. reflexivity.
Defined.

(** In a graph that is not closed under sources the element of a record
    has no record: a relationship recorded on a package with an entity from
    outside the graph as its source is emitted with that entity's
    identifier. *)
Example foreign_source_dangles :
  ∃ d d' r,
    buildDocumentSPDX 2 (Sample.world None (Some Sample.buildEnvData) None)
      Sample.foreign_store Sample.spec Sample.foreign_bom = Ret d
    ∧ ParseBuildSBOM (Sample.world None (Some Sample.buildEnvData) None)
        Sample.spec d = Ret d'
    ∧ r ∈ spdx.Document.Relationships d'
    ∧ spdx.Relationship.Element r = "SPDXRef-Package-hello-src-1.0"
    ∧ spdx.Relationship.Element r ∉ recordIDs d'.
Proof.
  eexists _, _, _.
  split; [vm_compute; reflexivity|].
  split; [vm_compute; reflexivity|].
  split; [vm_compute; left|].
  split; [vm_compute; reflexivity|].
  apply (bool_decide_unpack _). vm_compute. exact I.
Qed.

End examples_graph.

(** ** A whole run *)

Section examples_run.
#[local] Existing Instance Sample.decoding.

(** The package of [hello] is assembled, its two files are scanned, and the
    document with the spliced build dependency is written. *)
Example whole_run :
  match GenerateAPKPackage Sample.spec with
  | Ret p0 =>
      let '(scan, h1) :=
        ScanFiles Sample.scan_world
          ["/usr/share/doc/README"; "/usr/bin/hello"]
          ["/usr/bin/hello"; "/usr/share/doc/README"]
          Sample.spec 0 [EPkg p0] in
      match scan, h1 !! 0%nat with
      | Ret _, Some (EPkg p) =>
          let '(written, files) :=
            WriteSBOM 2 Sample.scan_world h1 Sample.spec (bom.mk [p] []) in
          (written, files !! Spec_PackageSBOM Sample.spec)
      | _, _ => (Panic, None)
      end
  | _ => (Panic, None)
  end
  = (Ret (),
     Some ("{SPDXID: SPDXRef-DOCUMENT-apk-hello-2.12-r0, packages: 2, "
             +:+ "files: 2, relationships: 3}")).
Proof. vm_compute. reflexivity. Qed.

End examples_run.

(** ** The directory tree *)

Lemma getDirectoryTree_loop (entries : list (string * FileMode))
    (fileList : list string) :
  foldl (λ fileList '(path, d),
           match d with
           | ModeDir => fileList
           | ModeSymlink => fileList
           | _ => fileList ++ ["/" +:+ path]
           end) fileList entries
  = fileList ++ ((λ e, "/" +:+ e.1) <$> filter keptEntry entries).
Proof.
  revert fileList. induction entries as [|[path d] entries IH];
    intros fileList; simpl.
  - by rewrite app_nil_r.
  - rewrite IH, filter_cons. unfold keptEntry at 1. simpl.
    destruct d; simpl; try done; by rewrite <- app_assoc.
Qed.

(** X4. [getDirectoryTree] fails exactly when the walk reports an error.
    Otherwise it returns, in sorted order, the path of every entry of the
    walk that is neither a directory nor a symbolic link, prefixed with the
    separator, once for each such entry; directories and symbolic links
    never appear. *)
Theorem getDirectoryTree_spec (w : World) (dirPath : string) :
  match getDirectoryTree w dirPath with
  | Ret fileList =>
      ∃ entries,
        w_walk w dirPath = Some entries
        ∧ Sorted String.le fileList
        ∧ fileList ≡ₚ (λ e, "/" +:+ e.1) <$> filter keptEntry entries
        ∧ ∀ path, path ∈ fileList
                  ↔ ∃ p d, (p, d) ∈ entries ∧ d ≠ ModeDir ∧ d ≠ ModeSymlink
                           ∧ path = "/" +:+ p
  | Fail e =>
      w_walk w dirPath = None
      ∧ e = fmt_Errorf "buiding directory tree" (lib_error "fs.WalkDir")
  | _ => False
  end.
Proof.
  unfold getDirectoryTree.
  destruct (w_walk w dirPath) as [entries|]; [|done].
  exists entries. rewrite getDirectoryTree_loop. simpl.
  split; [done|]. split; [apply sort_Strings_Sorted|].
  split; [apply sort_Strings_Permutation|].
  intros path. rewrite sort_Strings_Permutation, list_elem_of_fmap. split.
  - intros ([p d] & -> & [Hk Hin]%list_elem_of_filter).
    exists p, d. unfold keptEntry in Hk. simpl in *.
    by destruct d.
  - intros (p & d & Hin & Hd & Hs & ->). exists (p, d). split; [done|].
    apply list_elem_of_filter. split; [|done].
    unfold keptEntry. simpl. by destruct d.
Qed.

(** ** The checksum lists *)

Lemma checksumList_algorithms (m : gmap string string) :
  spdx.Checksum.Algorithm <$> checksumList m
  = sort_Strings (map_to_list m).*1.
Proof.
  unfold checksumList. rewrite <- list_fmap_compose.
  induction (sort_Strings _) as [|algo l IH]; simpl; [done|]. by f_equal.
Qed.

(** X5. The checksum list of a package or file record is the checksum map
    of the entity, turned into a list: its entries are exactly the pairs of
    the map, each algorithm once, in the sorted order of the algorithm
    names. *)
Theorem checksumList_spec (m : gmap string string) :
  Sorted String.le (spdx.Checksum.Algorithm <$> checksumList m)
  ∧ NoDup (spdx.Checksum.Algorithm <$> checksumList m)
  ∧ length (checksumList m) = size m
  ∧ ∀ algo value,
      spdx.Checksum.mk algo value ∈ checksumList m ↔ m !! algo = Some value.
Proof.
  split; [rewrite checksumList_algorithms; apply sort_Strings_Sorted|].
  split.
  { rewrite checksumList_algorithms, sort_Strings_Permutation.
    apply NoDup_fst_map_to_list. }
  split.
  { unfold checksumList.
    rewrite length_fmap, sort_Strings_Permutation, length_fmap.
    apply length_map_to_list. }
  intros algo value. unfold checksumList. rewrite list_elem_of_fmap. split.
  - intros (a & [= -> ->] & Ha).
    rewrite sort_Strings_Permutation in Ha.
    apply list_elem_of_fmap in Ha as ([a' v] & -> & Hin%elem_of_map_to_list).
    simpl. by rewrite (lookup_total_correct m a' v).
  - intros Hm. exists algo. split.
    + by rewrite (lookup_total_correct m algo value).
    + rewrite sort_Strings_Permutation. apply list_elem_of_fmap.
      exists (algo, value). split; [done|]. by apply elem_of_map_to_list.
Qed.

(** ** The shape of a digest *)

Lemma length_be_bytes (n : nat) (x : Z) : length (be_bytes n x) = n.
Proof. unfold be_bytes. by rewrite length_fmap, length_rev, length_seq. Qed.

Lemma be_bytes_range (n : nat) (x b : Z) :
  b ∈ be_bytes n x → 0 ≤ b < 256.
Proof.
  unfold be_bytes. intros (i & -> & _)%list_elem_of_fmap.
  change 255 with (Z.ones 8). rewrite Z.land_ones by lia.
  apply Z.mod_pos_bound. lia.
Qed.

Lemma sha1_Sum_length (msg : list Z) : length (sha1.Sum msg) = 20%nat.
Proof.
  unfold sha1.Sum.
  destruct (foldl sha1.block_step sha1.init _) as [[[[h0 h1] h2] h3] h4].
  by rewrite !length_app, !length_be_bytes.
Qed.

Lemma sha1_Sum_range (msg : list Z) (b : Z) :
  b ∈ sha1.Sum msg → 0 ≤ b < 256.
Proof.
  unfold sha1.Sum.
  destruct (foldl sha1.block_step sha1.init _) as [[[[h0 h1] h2] h3] h4].
  rewrite !elem_of_app. intros [?|[?|[?|[?|?]]]]; by eapply be_bytes_range.
Qed.

Lemma hex_digit_lower (n : Z) : 0 ≤ n < 16 → is_lower_hex (hex_digit n) = true.
Proof.
  intros Hn.
  assert (n = 0 ∨ n = 1 ∨ n = 2 ∨ n = 3 ∨ n = 4 ∨ n = 5 ∨ n = 6 ∨ n = 7
          ∨ n = 8 ∨ n = 9 ∨ n = 10 ∨ n = 11 ∨ n = 12 ∨ n = 13 ∨ n = 14
          ∨ n = 15) as Hcases by lia.
  repeat (destruct Hcases as [->|Hcases]; [reflexivity|]). by subst.
Qed.

Lemma hex_of_bytes_shape (bs : list Z) :
  (∀ b, b ∈ bs → 0 ≤ b < 256) →
  String.length (hex_of_bytes bs) = (2 * length bs)%nat
  ∧ Forall (λ c, is_lower_hex c = true)
           (String.list_ascii_of_string (hex_of_bytes bs)).
Proof.
  induction bs as [|b bs IH]; intros Hbs; simpl; [by split|].
  destruct IH as [Hlen Hhex]; [intros; apply Hbs; by right|].
  assert (0 ≤ b < 256) as Hb by (apply Hbs; by left).
  split; [rewrite Hlen; lia|].
  repeat constructor; [apply hex_digit_lower..|done].
  - split; [apply Z.div_pos; lia|apply Z.div_lt_upper_bound; lia].
  - apply Z.mod_pos_bound. lia.
Qed.

(** X10. Whatever the list of digests, the verification code is a text of
    40 lower-case hexadecimal digits. *)
Theorem computeVerificationCode_shape (hashList : list string) :
  String.length (computeVerificationCode hashList) = 40%nat
  ∧ Forall (λ c, is_lower_hex c = true)
           (String.list_ascii_of_string (computeVerificationCode hashList)).
Proof.
  unfold computeVerificationCode. simpl.
  destruct (hex_of_bytes_shape
              (sha1.Sum (bytes_of_string
                           (strings_Join (sort_Strings hashList)))))
    as [Hlen Hhex]; [apply sha1_Sum_range|].
  split; [|done]. by rewrite Hlen, sha1_Sum_length.
Qed.

(** ** What a digesting unit stores *)

Lemma digestUnit_eq (w : World) (dirPath path : string) :
  digestUnit w dirPath path
  = match w_files w !! filepath_Join dirPath path with
    | Some content =>
        (file.mk path
           (<["SHA512" := hash_SHA512 content]>
              (<["SHA256" := hash_SHA256 content]>
                 (<["SHA1" := hash_SHA1 content]> ∅))) [],
         [])
    | None =>
        (file.mk path
           (<["SHA512" := ""]> (<["SHA256" := ""]> (<["SHA1" := ""]> ∅))) [],
         [fmt_Errorf ("hashing SHA1 file " +:+ path) (lib_error "hash");
          fmt_Errorf ("hashing SHA256 file " +:+ path) (lib_error "hash");
          fmt_Errorf ("hashing SHA512 file " +:+ path) (lib_error "hash")])
    end.
Proof.
  unfold digestUnit, hashers. cbn [foldl].
  by destruct (w_files w !! filepath_Join dirPath path).
Qed.

Lemma checksumList_three (a b c : string) :
  checksumList (<["SHA512" := c]> (<["SHA256" := b]> (<["SHA1" := a]> ∅)))
  = [spdx.Checksum.mk "SHA1" a; spdx.Checksum.mk "SHA256" b;
     spdx.Checksum.mk "SHA512" c].
Proof. vm_compute. reflexivity. Qed.

Lemma scannedFile_SHA1 (w : World) (dirPath path : string) :
  file.Checksums (scannedFile w dirPath path) !! "SHA1"
  = Some (scannedSHA1 w dirPath path).
Proof.
  unfold scannedFile, scannedSHA1. rewrite digestUnit_eq.
  by destruct (w_files w !! filepath_Join dirPath path).
Qed.

(** X6. The file record lowered from the entity that a digesting unit
    stores has the path as name and exactly three checksums, in the order
    SHA1, SHA256, SHA512: the digests of the file's content, or three empty
    strings when the file could not be read. *)
Theorem scanned_file_record `{Libs} (w : World) (dirPath path : string) :
  spdx.File.Name (spdxFile (scannedFile w dirPath path)) = path
  ∧ spdx.File.ID (spdxFile (scannedFile w dirPath path))
    = file_ID (scannedFile w dirPath path)
  ∧ spdx.File.Checksums (spdxFile (scannedFile w dirPath path))
    = match w_files w !! filepath_Join dirPath path with
      | Some content =>
          [spdx.Checksum.mk "SHA1" (hash_SHA1 content);
           spdx.Checksum.mk "SHA256" (hash_SHA256 content);
           spdx.Checksum.mk "SHA512" (hash_SHA512 content)]
      | None =>
          [spdx.Checksum.mk "SHA1" ""; spdx.Checksum.mk "SHA256" "";
           spdx.Checksum.mk "SHA512" ""]
      end.
Proof.
  split; [apply scannedFile_Name|]. split; [done|].
  unfold spdxFile, scannedFile. simpl. rewrite digestUnit_eq.
  destruct (w_files w !! filepath_Join dirPath path); simpl;
    apply checksumList_three.
Qed.

(** ** When the scan fails *)

Lemma digestUnit_errors (w : World) (dirPath path : string) (e : error) :
  e ∈ (digestUnit w dirPath path).2 →
  w_files w !! filepath_Join dirPath path = None
  ∧ ∃ algo, e = fmt_Errorf ("hashing " +:+ algo +:+ " file " +:+ path)
                           (lib_error "hash").
Proof.
  rewrite digestUnit_eq.
  destruct (w_files w !! filepath_Join dirPath path); simpl;
    [by intros ?%elem_of_nil|].
  intros Hin. split; [done|].
  apply elem_of_cons in Hin as [->|Hin]; [by exists "SHA1"|].
  apply elem_of_cons in Hin as [->|Hin]; [by exists "SHA256"|].
  apply elem_of_cons in Hin as [->|Hin]; [by exists "SHA512"|].
  by apply elem_of_nil in Hin.
Qed.

Lemma digestUnit_readable (w : World) (dirPath path : string) :
  (digestUnit w dirPath path).2 = [] →
  is_Some (w_files w !! filepath_Join dirPath path).
Proof.
  rewrite digestUnit_eq.
  by destruct (w_files w !! filepath_Join dirPath path).
Qed.

(** X7. Once the tree is listed, [ScanFiles] succeeds only if every listed
    file can be read. Otherwise it returns the hashing error of a listed
    file that cannot be read, whatever the order in which the units
    finished; the package is then already marked as analyzed, but no
    relationship has been attached to it and no file entity exists. *)
Theorem ScanFiles_hashing_failure (w : World)
    (completion rangeOrder : list string) (spec : Spec.t) (a : addr)
    (h : heap) (p : pkg.t) (dirPath : string) (fileList : list string) :
  w_abs w (Spec.Path spec) = Some dirPath →
  getDirectoryTree w dirPath = Ret fileList →
  h !! a = Some (EPkg p) →
  completion ≡ₚ fileList →
  match ScanFiles w completion rangeOrder spec a h with
  | (Ret _, _) =>
      ∀ path, path ∈ fileList →
              is_Some (w_files w !! filepath_Join dirPath path)
  | (Fail e, h') =>
      h' = <[a := EPkg (set_FilesAnalyzed true p)]> h
      ∧ ∃ path algo,
          path ∈ fileList
          ∧ w_files w !! filepath_Join dirPath path = None
          ∧ e = fmt_Errorf ("hashing " +:+ algo +:+ " file " +:+ path)
                           (lib_error "hash")
  | _ => False
  end.
Proof.
  intros Habs Htree Ha Hperm.
  rewrite (ScanFiles_unfold w completion rangeOrder spec a h p dirPath fileList)
    by done.
  pose proof (storeAll_errors w dirPath completion) as Herrs.
  destruct ((storeAll w dirPath completion).2) as [|e errs].
  - intros path Hin. apply digestUnit_readable.
    apply elem_of_nil_inv. intros e He.
    assert (e ∈ completion ≫= λ path, (digestUnit w dirPath path).2) as Hbad.
    { apply list_elem_of_bind. exists path. by rewrite Hperm. }
    rewrite <- Herrs in Hbad. by apply elem_of_nil in Hbad.
  - split; [done|].
    assert (e ∈ completion ≫= λ path, (digestUnit w dirPath path).2) as Hbad
      by (rewrite <- Herrs; by left).
    apply list_elem_of_bind in Hbad as (path & He & Hin).
    destruct (digestUnit_errors w dirPath path e He) as [Hnone [algo ->]].
    exists path, algo. by rewrite <- Hperm.
Qed.

Lemma ScanFiles_hashing_failure_witness :
  ∃ e h',
    ScanFiles Sample.unreadable_world
      ["/usr/share/doc/README"; "/usr/bin/hello"]
      ["/usr/share/doc/README"; "/usr/bin/hello"]
      Sample.spec 0 [EPkg Sample.apk] = (Fail e, h')
    ∧ h' = [EPkg (set_FilesAnalyzed true Sample.apk)].
Proof.
  pose proof (ScanFiles_hashing_failure Sample.unreadable_world
                ["/usr/share/doc/README"; "/usr/bin/hello"]
                ["/usr/share/doc/README"; "/usr/bin/hello"]
                Sample.spec 0 [EPkg Sample.apk] Sample.apk "/work"
                ["/usr/bin/hello"; "/usr/share/doc/README"]
                eq_refl) as Hthm.
  destruct (ScanFiles Sample.unreadable_world _ _ Sample.spec 0
              [EPkg Sample.apk]) as [[u|e| |] h'] eqn:Hrun.
  - vm_compute in Hrun. discriminate.
  - exists e, h'. split; [reflexivity|].
    apply Hthm; [vm_compute; reflexivity|reflexivity|apply perm_swap].
  - vm_compute in Hrun. discriminate.
  - vm_compute in Hrun. discriminate.
Defined.

(** ** The record of a scanned package *)

Lemma omap_seq_lookup {A B} (F : nat → option B) (ψ : A → option B)
    (l : list A) (base : nat) :
  (∀ i x, l !! i = Some x → F (base + i)%nat = ψ x) →
  omap F (seq base (length l)) = omap ψ l.
Proof.
  revert base. induction l as [|x l IH]; intros base HF; [done|].
  simpl length. simpl seq. csimpl.
  rewrite <- (HF 0%nat x eq_refl), Nat.add_0_r.
  rewrite (IH (S base)); [done|].
  intros i y Hi. rewrite <- (HF (S i) y Hi). f_equal. lia.
Qed.

Lemma scanned_lookup_file (w : World) (dirPath : string) (a : addr)
    (p : pkg.t) (h : heap) (paths : list string) (i : nat) (path : string) :
  (a < length h)%nat →
  paths !! i = Some path →
  scanned w dirPath a p h paths !! (length h + i)%nat
  = Some (EFile (scannedFile w dirPath path)).
Proof.
  intros Hlt Hi. unfold scanned.
  rewrite list_lookup_insert_ne by lia.
  rewrite lookup_app_r by lia.
  replace (length h + i - length h)%nat with i by lia.
  by rewrite list_lookup_fmap, Hi.
Qed.

(** What the loop over the files of [addPackage] sees of the targets of a
    scanned package. *)
Lemma scanned_targets {B} (w : World) (dirPath : string) (a : addr)
    (p : pkg.t) (h : heap) (paths : list string) (φ : file.t → option B) :
  (a < length h)%nat →
  omap (λ rel,
          match scanned w dirPath a p h paths !! relationship.Target rel with
          | Some (EFile f) => φ f
          | _ => None
          end) (containsRels a (length h) (length paths))
  = omap (φ ∘ scannedFile w dirPath) paths.
Proof.
  intros Hlt. unfold containsRels.
  rewrite <- (omap_seq_lookup
                (λ t, match scanned w dirPath a p h paths !! t with
                      | Some (EFile f) => φ f
                      | _ => None
                      end) (φ ∘ scannedFile w dirPath) paths (length h)).
  - induction (seq (length h) (length paths)) as [|t ts IH]; csimpl; [done|].
    by rewrite IH.
  - intros i path Hi. by rewrite (scanned_lookup_file w dirPath a p h paths i path).
Qed.

(** X8. A package without relationships that [ScanFiles] has scanned is
    lowered to a record that lists the identifiers of the scanned files in
    the sorted order of their paths, excludes no file from the verification
    code, and whose verification code is computed from the SHA-1 digests of
    the contents of all the files. *)
Theorem scanned_package_record `{Libs} (w : World)
    (completion rangeOrder : list string) (spec : Spec.t) (a : addr)
    (h h' : heap) (p : pkg.t) (dirPath : string) (fileList : list string) :
  w_abs w (Spec.Path spec) = Some dirPath →
  getDirectoryTree w dirPath = Ret fileList →
  h !! a = Some (EPkg p) →
  pkg.Relationships p = [] →
  completion ≡ₚ fileList →
  NoDup rangeOrder →
  (∀ k, k ∈ rangeOrder ↔ k ∈ completion) →
  ScanFiles w completion rangeOrder spec a h = (Ret (), h') →
  let paths := sort_Strings (remove_dups fileList) in
  ∃ p',
    h' !! a = Some (EPkg p')
    ∧ spdx.Package.HasFiles (spdxPackage h' p')
      = (λ path, file_ID (scannedFile w dirPath path)) <$> paths
    ∧ spdx.Package.VerificationCode (spdxPackage h' p')
      = Some (spdx.PackageVerificationCode.mk
                (computeVerificationCode (scannedSHA1 w dirPath <$> paths))
                [])
    ∧ ∀ path, path ∈ paths →
              ∃ content,
                w_files w !! filepath_Join dirPath path = Some content
                ∧ scannedSHA1 w dirPath path = hash_SHA1 content.
Proof.
  intros Habs Htree Ha Hrels Hperm Hnd Hkeys Hrun paths.
  pose proof (lookup_lt_Some _ _ _ Ha) as Hlt.
  assert (Herrs : (storeAll w dirPath completion).2 = []).
  { rewrite (ScanFiles_unfold w completion rangeOrder spec a h p dirPath
               fileList) in Hrun by done.
    by destruct ((storeAll w dirPath completion).2). }
  assert (Hh' : h' = scanned w dirPath a p h paths).
  { rewrite (ScanFiles_scanned w completion rangeOrder spec a h p dirPath
               fileList) in Hrun by done.
    by inversion Hrun. }
  exists (withScanned p (containsRels a (length h) (length paths))).
  split.
  { rewrite Hh'. unfold scanned. apply list_lookup_insert_eq.
    rewrite length_app. lia. }
  assert (Hcollect :
    collectFiles h'
      (pkg.Relationships
         (withScanned p (containsRels a (length h) (length paths))))
    = ((λ path, file_ID (scannedFile w dirPath path)) <$> paths,
       scannedSHA1 w dirPath <$> paths, [])).
  { rewrite collectFiles_spec. simpl. rewrite Hrels. simpl.
    unfold fileTargets, fileDigests, filesWithoutDigest. rewrite Hh'.
    rewrite !(scanned_targets w dirPath a p h paths) by done.
    clear. repeat f_equal;
      (induction paths as [|x l IH]; csimpl; [done|]);
      rewrite ?scannedFile_SHA1; by rewrite ?IH. }
  split; [|split].
  - unfold spdxPackage. by rewrite Hcollect.
  - rewrite spdxPackage_VerificationCode.
    rewrite collectFiles_spec in Hcollect. by inversion Hcollect.
  - intros path Hin. unfold scannedSHA1.
    assert (path ∈ completion) as Hc.
    { rewrite Hperm. apply elem_of_remove_dups.
      by rewrite <- (sort_Strings_Permutation (remove_dups fileList)). }
    destruct (w_files w !! filepath_Join dirPath path) as [content|] eqn:Hc';
      [by exists content|].
    exfalso. rewrite storeAll_errors in Herrs.
    assert (fmt_Errorf ("hashing SHA1 file " +:+ path) (lib_error "hash")
            ∈ completion ≫= λ path, (digestUnit w dirPath path).2) as Hbad.
    { apply list_elem_of_bind. exists path. split; [|done].
      rewrite digestUnit_eq, Hc'. by left. }
    rewrite Herrs in Hbad. by apply elem_of_nil in Hbad.
Qed.

Section examples_scanned_package.
#[local] Existing Instance Sample.plain.

Lemma scanned_package_record_witness :
  ∃ h' p',
    ScanFiles Sample.scan_world
      ["/usr/share/doc/README"; "/usr/bin/hello"]
      ["/usr/share/doc/README"; "/usr/bin/hello"]
      Sample.spec 0 [EPkg Sample.apk] = (Ret (), h')
    ∧ h' !! 0%nat = Some (EPkg p')
    ∧ spdx.Package.HasFiles (spdxPackage h' p')
      = (λ path, file_ID (scannedFile Sample.scan_world "/work" path))
          <$> ["/usr/bin/hello"; "/usr/share/doc/README"]
    ∧ spdx.Package.VerificationCode (spdxPackage h' p')
      = Some (spdx.PackageVerificationCode.mk
                (computeVerificationCode
                   (scannedSHA1 Sample.scan_world "/work"
                      <$> ["/usr/bin/hello"; "/usr/share/doc/README"]))
                []).
Proof.
  assert (∃ h', ScanFiles Sample.scan_world
                  ["/usr/share/doc/README"; "/usr/bin/hello"]
                  ["/usr/share/doc/README"; "/usr/bin/hello"]
                  Sample.spec 0 [EPkg Sample.apk] = (Ret (), h'))
    as [h' Hrun].
  { eexists. vm_compute. reflexivity. }
  destruct (scanned_package_record Sample.scan_world
              ["/usr/share/doc/README"; "/usr/bin/hello"]
              ["/usr/share/doc/README"; "/usr/bin/hello"]
              Sample.spec 0 [EPkg Sample.apk] h' Sample.apk "/work"
              ["/usr/bin/hello"; "/usr/share/doc/README"])
    as (p' & Hp' & Hfiles & Hcode & _).
  - reflexivity.
  - vm_compute. reflexivity.
  - reflexivity.
  - reflexivity.
  - apply perm_swap.
  - apply (bool_decide_unpack _). vm_compute. exact I.
  - intros k. reflexivity.
  - exact Hrun.
  - exists h', p'. split; [exact Hrun|]. split; [exact Hp'|].
    split; [exact Hfiles|exact Hcode].
Defined.

End examples_scanned_package.

(** ** The check against the document *)

Lemma hasRelationship_true `{Libs} (h : heap)
    (rels : list spdx.Relationship.t) (bomRel : relationship.t)
    (s t : element) :
  h !! relationship.Source bomRel = Some s →
  h !! relationship.Target bomRel = Some t →
  hasRelationship h rels bomRel = Ret true →
  spdx.Relationship.mk (element_ID s) (relationship.Type_ bomRel)
                       (element_ID t) ∈ rels.
Proof.
  intros Hs Ht. induction rels as [|r rels IH]; simpl; [discriminate|].
  unfold ID_at. rewrite Hs, Ht. simpl.
  destruct (String.eqb_spec (spdx.Relationship.Element r) (element_ID s))
    as [He|He]; [|intros Hrest; right; by apply IH].
  destruct (String.eqb_spec (spdx.Relationship.Related r) (element_ID t))
    as [Hr|Hr]; simpl; [|intros Hrest; right; by apply IH].
  destruct (String.eqb_spec (spdx.Relationship.Type_ r)
              (relationship.Type_ bomRel)) as [Hty|Hty];
    [|intros Hrest; right; by apply IH].
  intros _. apply elem_of_cons. left. destruct r; simpl in *. by subst.
Qed.

(** X9. [sbomHasRelationship] answers whether the document holds the triple
    of the identifiers of the source, the type and the identifier of the
    target. The endpoints are only dereferenced while records are compared:
    on a document without relationships the answer is no even for a
    relationship whose source is nil; with a nil source and a record to
    compare the call panics; with a nil target it panics exactly when a
    record carries the identifier of the source. *)
Theorem sbomHasRelationship_spec `{Libs} (h : heap) (spdxDoc : spdx.Document.t)
    (bomRel : relationship.t) :
  match h !! relationship.Source bomRel, h !! relationship.Target bomRel with
  | Some s, Some t =>
      ∃ b, sbomHasRelationship h spdxDoc bomRel = Ret b
           ∧ (b = true
              ↔ spdx.Relationship.mk (element_ID s) (relationship.Type_ bomRel)
                                     (element_ID t)
                ∈ spdx.Document.Relationships spdxDoc)
  | Some s, None =>
      sbomHasRelationship h spdxDoc bomRel
      = if existsb (λ r, String.eqb (spdx.Relationship.Element r)
                                    (element_ID s))
                   (spdx.Document.Relationships spdxDoc)
        then Panic else Ret false
  | None, _ =>
      sbomHasRelationship h spdxDoc bomRel
      = match spdx.Document.Relationships spdxDoc with
        | [] => Ret false
        | _ :: _ => Panic
        end
  end.
Proof.
  unfold sbomHasRelationship.
  destruct (h !! relationship.Source bomRel) as [s|] eqn:Hs.
  - destruct (h !! relationship.Target bomRel) as [t|] eqn:Ht.
    + destruct (hasRelationship_total h (spdx.Document.Relationships spdxDoc)
                  bomRel s t Hs Ht) as [b Hb].
      exists b. split; [done|]. destruct b.
      * split; [intros _|done]. by eapply hasRelationship_true.
      * split; [done|]. intros Hin.
        by destruct (hasRelationship_false h _ bomRel s t Hs Ht Hb).
    + induction (spdx.Document.Relationships spdxDoc) as [|r rels IH];
        simpl; [done|].
      unfold ID_at. rewrite Hs, Ht. simpl.
      by destruct (String.eqb (spdx.Relationship.Element r) (element_ID s)).
  - destruct (spdx.Document.Relationships spdxDoc) as [|r rels]; simpl; [done|].
    unfold ID_at. by rewrite Hs.
Qed.

(** ** What lowering a package with leaf files emits *)

Lemma relationshipRecord_Some `{Libs} (h : heap) (rel : relationship.t)
    (r : spdx.Relationship.t) :
  relationshipRecord h rel = Some r →
  ∃ s t, h !! relationship.Source rel = Some s
         ∧ h !! relationship.Target rel = Some t
         ∧ r = spdx.Relationship.mk (element_ID s) (relationship.Type_ rel)
                                    (element_ID t).
Proof.
  unfold relationshipRecord.
  destruct (h !! relationship.Source rel) as [s|]; [|discriminate].
  destruct (h !! relationship.Target rel) as [t|]; [|discriminate].
  simpl. intros [= <-]. by exists s, t.
Qed.

Lemma leaf_loop `{Libs} (fuel : nat) (h : heap) (rels : list relationship.t)
    (triples : list spdx.Relationship.t) :
  leafTargets h rels →
  Forall2 (λ rel r, relationshipRecord h rel = Some r) rels triples →
  NoDup triples →
  ∀ d, (∀ r, r ∈ triples → r ∉ spdx.Document.Relationships d) →
  ∃ d',
    forRange
      (λ doc rel,
         seen ← sbomHasRelationship h doc rel;
         if (seen : bool) then Ret doc
         else
           doc ← match h !! relationship.Target rel with
                 | Some (EFile v) => addFile (S fuel) h doc v
                 | Some (EPkg v) => addPackage (S fuel) h doc v
                 | None => Ret doc
                 end;
           appendRelationship h doc rel) d rels = Ret d'
    ∧ extends d d'
    ∧ spdx.Document.Packages d' = spdx.Document.Packages d
    ∧ spdx.Document.Files d'
      = spdx.Document.Files d ++ targetRecords h rels
    ∧ spdx.Document.Relationships d'
      = spdx.Document.Relationships d ++ triples.
Proof.
  intros Hleaf Hrecs. induction Hrecs as [|rel r rels triples Hr Hrecs IH];
    intros Hnd d Hnew.
  { exists d. simpl. rewrite !app_nil_r. split; [done|].
    split; [apply extends_refl|done]. }
  destruct (relationshipRecord_Some h rel r Hr) as (s & t & Hs & Ht & Hrec).
  destruct (Hleaf rel t) as (f & -> & Hnone); [by left|done|].
  apply NoDup_cons in Hnd as [Hr_new Hnd].
  assert (Hseen : sbomHasRelationship h d rel = Ret false).
  { unfold sbomHasRelationship.
    destruct (hasRelationship_total h (spdx.Document.Relationships d) rel s
                (EFile f) Hs Ht) as [[|] Hb]; [|done].
    apply (hasRelationship_true h _ rel s (EFile f) Hs Ht) in Hb.
    rewrite <- Hrec in Hb. destruct (Hnew r); [by left|done]. }
  set (d1 := spdx.Document.set_Relationships
               (spdx.Document.Relationships d ++ [r])
               (spdx.Document.set_Files
                  (spdx.Document.Files d ++ [spdxFile f]) d)).
  assert (Hleaf' : leafTargets h rels).
  { intros rel' t' Hin. apply Hleaf. by right. }
  destruct (IH Hleaf' Hnd d1) as (d' & Hrun & Hext & Hp & Hf & Hrel).
  { intros r' Hr' [Hin|Heq%list_elem_of_singleton]%elem_of_app.
    - destruct (Hnew r'); [by right|done].
    - by subst r'. }
  exists d'. split; [|split; [|split; [|split]]].
  - cbn -[addPackage addFile]. rewrite Hseen. cbn -[addPackage addFile].
    rewrite Ht, addFile_S, Hnone. cbn -[addPackage addFile].
    unfold appendRelationship, ID_at. rewrite Hs, Ht.
    cbn -[addPackage addFile]. subst r. exact Hrun.
  - eapply extends_trans; [|exact Hext]. subst d1.
    eapply extends_trans; [apply extends_set_Files|].
    exact (extends_set_Relationships
             (spdx.Document.set_Files
                (spdx.Document.Files d ++ [spdxFile f]) d) r).
  - by rewrite Hp.
  - rewrite Hf. unfold targetRecords. csimpl. rewrite Ht. simpl.
    by rewrite <- app_assoc.
  - rewrite Hrel. simpl. by rewrite <- app_assoc.
Qed.

(** X12. A package whose relationships all have their endpoints in the
    store, with targets that are files without relationships of their own
    and with triples that are distinct and new to the document, is lowered
    to its package record, one file record per relationship and one
    relationship record per relationship, each in the order of the
    package's relationships, after what the document held. *)
Theorem addPackage_leaf_files `{Libs} (fuel : nat) (h : heap)
    (doc : spdx.Document.t) (p : pkg.t)
    (triples : list spdx.Relationship.t) :
  leafTargets h (pkg.Relationships p) →
  mapM (relationshipRecord h) (pkg.Relationships p) = Some triples →
  NoDup triples →
  (∀ r, r ∈ triples → r ∉ spdx.Document.Relationships doc) →
  ∃ doc',
    addPackage (S (S fuel)) h doc p = Ret doc'
    ∧ extends doc doc'
    ∧ spdx.Document.Packages doc'
      = spdx.Document.Packages doc ++ [spdxPackage h p]
    ∧ spdx.Document.Files doc'
      = spdx.Document.Files doc ++ targetRecords h (pkg.Relationships p)
    ∧ length (targetRecords h (pkg.Relationships p))
      = length (pkg.Relationships p)
    ∧ spdx.Document.Relationships doc'
      = spdx.Document.Relationships doc ++ triples.
Proof.
  intros Hleaf Hrecs%mapM_Some Hnd Hnew.
  destruct (leaf_loop fuel h (pkg.Relationships p) triples Hleaf Hrecs Hnd
              (spdx.Document.set_Packages
                 (spdx.Document.Packages doc ++ [spdxPackage h p]) doc) Hnew)
    as (doc' & Hrun & Hext & Hp & Hf & Hrel).
  exists doc'. rewrite addPackage_S.
  split; [exact Hrun|]. split; [|split; [done|split; [done|split; [|done]]]].
  - eapply extends_trans; [apply extends_set_Packages|exact Hext].
  - clear -Hleaf Hrecs. revert Hleaf.
    induction Hrecs as [|rel r rels triples Hr Hrecs IH]; intros Hleaf;
      [done|].
    destruct (relationshipRecord_Some h rel r Hr) as (s & t & Hs & Ht & Hrec).
    destruct (Hleaf rel t) as (f & -> & Hnone); [by left|done|].
    unfold targetRecords. csimpl. rewrite Ht. simpl. f_equal.
    apply IH. intros rel' t' Hin. apply Hleaf. by right.
Qed.

Section examples_leaf_files.
#[local] Existing Instance Sample.plain.

Lemma addPackage_leaf_files_witness :
  ∃ doc',
    addPackage 2 Sample.store Sample.blank (Sample.root Sample.rels123)
    = Ret doc'
    ∧ spdx.Document.Files doc'
      = spdxFile <$> [Sample.hello; Sample.readme; Sample.fifo]
    ∧ spdx.Document.Relationships doc'
      = [spdx.Relationship.mk "SPDXRef-Package-hello-2.12-r0" "CONTAINS"
                              "SPDXRef-File-/usr/bin/hello";
         spdx.Relationship.mk "SPDXRef-Package-hello-2.12-r0" "CONTAINS"
                              "SPDXRef-File-/usr/share/doc/README";
         spdx.Relationship.mk "SPDXRef-Package-hello-2.12-r0" "CONTAINS"
                              "SPDXRef-File-/var/run/hello.fifo"].
Proof.
  destruct (addPackage_leaf_files 0 Sample.store Sample.blank
              (Sample.root Sample.rels123)
              [spdx.Relationship.mk "SPDXRef-Package-hello-2.12-r0" "CONTAINS"
                                    "SPDXRef-File-/usr/bin/hello";
               spdx.Relationship.mk "SPDXRef-Package-hello-2.12-r0" "CONTAINS"
                                    "SPDXRef-File-/usr/share/doc/README";
               spdx.Relationship.mk "SPDXRef-Package-hello-2.12-r0" "CONTAINS"
                                    "SPDXRef-File-/var/run/hello.fifo"])
    as (doc' & Hrun & _ & _ & Hf & _ & Hrel).
  - intros rel t Hrel Ht.
    repeat (apply elem_of_cons in Hrel as [->|Hrel];
            [inversion Ht; subst; by eexists|]).
    by apply elem_of_nil in Hrel.
  - vm_compute. reflexivity.
  - repeat (apply NoDup_cons; split;
            [intros Hin;
             repeat (apply elem_of_cons in Hin as [Hin|Hin]; [discriminate|]);
             by apply elem_of_nil in Hin|]).
    apply NoDup_nil_2.
  - intros r _ Hin. by apply elem_of_nil in Hin.
  - exists doc'. split; [exact Hrun|]. split.
    + rewrite Hf. vm_compute. reflexivity.
    + exact Hrel.
Defined.

End examples_leaf_files.

(** ** Writing the generated document *)

(** X13. The document [GenerateDocument] returns has no packages and no
    files, so the document built from it describes nothing and the merge
    rejects it: [WriteSBOM] on it returns an error, whatever the
    environment, and leaves the files as they were. The error is that of the
    time stamp when [SOURCE_DATE_EPOCH] does not parse, else that of reading
    or decoding the build-environment SBOM, else that of the missing root
    element. *)
Theorem generated_document_not_written `{Libs} (fuel : nat) (w : World)
    (h : heap) (spec : Spec.t) :
  match GenerateDocument spec with
  | Ret doc =>
      WriteSBOM fuel w h spec doc
      = (Fail
           match sbomTime w with
           | Ret _ =>
               fmt_Errorf "parsing build environment SBOM"
                 match w_files w !! Spec_BuildEnvSBOM spec with
                 | None =>
                     fmt_Errorf ("opening build environment SBOM from "
                                   +:+ Spec_BuildEnvSBOM spec)
                                (lib_error "os.ReadFile")
                 | Some data =>
                     match json_Unmarshal data with
                     | None => fmt_Errorf "unmarshaling build time SBOM"
                                          (lib_error "json.Unmarshal")
                     | Some _ =>
                         errors_New "apk package sbom has no root elements"
                     end
                 end
           | _ =>
               fmt_Errorf "building SPDX document"
                 (fmt_Errorf "failed to parse SOURCE_DATE_EPOCH"
                             (lib_error "strconv.ParseInt"))
           end,
         w_files w)
  | _ => False
  end.
Proof.
  unfold GenerateDocument, WriteSBOM, buildDocumentSPDX.
  pose proof (sbomTime_cases w) as Ht.
  destruct (w_environ w !! "SOURCE_DATE_EPOCH") as [v|];
    [destruct (strconv_ParseInt v)|]; rewrite Ht; simpl;
    try done; unfold ParseBuildSBOM; simpl;
    destruct (w_files w !! Spec_BuildEnvSBOM spec) as [data|]; try done;
    by destruct (json_Unmarshal data).
Qed.

(** ** The copy of the build-environment SBOM *)

(** X14. When [CopyBuildSBOM] succeeds, the file it wrote holds the data of
    the SBOM of the build image and no other file changed; [ParseBuildSBOM],
    run on the files the copy left, reads that data: for a package document
    with a root it returns the decoding error when the data does not
    decode, panics when the parser panics on a package URL of the decoded
    document, and otherwise splices the packages of the build image's
    SBOM. *)
Theorem CopyBuildSBOM_then_merge `{Libs} (join : string → string → string)
    (w : World) (spec : Spec.t) (files : gmap string string)
    (apkSBOM : spdx.Document.t) (rootId : string) (ids : list string) :
  CopyBuildSBOM join w spec = (Ret (), files) →
  spdx.Document.DocumentDescribes apkSBOM = rootId :: ids →
  ∃ data,
    w_files w !! join (Spec.BuildImageSBOM spec)
                      ("sbom-" +:+ Spec.Arch spec +:+ ".spdx.json")
    = Some data
    ∧ files = <[Spec_BuildEnvSBOM spec := data]> (w_files w)
    ∧ ParseBuildSBOM (with_files w files) spec apkSBOM
      = match json_Unmarshal data with
        | Some buildSBOM =>
            if existsb (λ p, existsb panicsOn (spdx.Package.ExternalRefs p))
                       (spdx.Document.Packages buildSBOM)
            then Panic
            else
              Ret (spdx.Document.set_Relationships
                     (spdx.Document.Relationships apkSBOM
                        ++ (buildDependency rootId
                              <$> splicedPackages
                                    (spdx.Document.Packages buildSBOM)))
                     (spdx.Document.set_Packages
                        (spdx.Document.Packages apkSBOM
                           ++ splicedPackages
                                (spdx.Document.Packages buildSBOM))
                        apkSBOM))
        | None =>
            Fail (fmt_Errorf "unmarshaling build time SBOM"
                             (lib_error "json.Unmarshal"))
        end.
Proof.
  unfold CopyBuildSBOM. intros Hcopy Hroot.
  destruct (w_files w !! join _ _) as [data|]; [|discriminate].
  destruct (w_creatable w (Spec_BuildEnvSBOM spec)); [|discriminate].
  destruct (w_write_fault w); [discriminate|].
  inversion Hcopy; subst files. exists data. split; [done|]. split; [done|].
  unfold ParseBuildSBOM. simpl. rewrite lookup_insert_eq.
  destruct (json_Unmarshal data) as [buildSBOM|]; [|done].
  rewrite Hroot, nonOCIPackages_spec.
  destruct (existsb _ (spdx.Document.Packages buildSBOM)); [done|].
  simpl. by rewrite merge_Relationships.
Qed.

Section examples_copy.
#[local] Existing Instance Sample.decoding.

Lemma CopyBuildSBOM_then_merge_witness :
  ∃ files,
    CopyBuildSBOM Sample.join Sample.image_world Sample.spec = (Ret (), files)
    ∧ files !! Sample.buildEnvPath = Some Sample.buildEnvData
    ∧ ∃ data,
        w_files Sample.image_world !! "/sbom/sbom-x86_64.spdx.json" = Some data
        ∧ ParseBuildSBOM (with_files Sample.image_world files) Sample.spec
            (spdx.Document.set_DocumentDescribes
               ["SPDXRef-Package-hello-2.12-r0"] Sample.blank)
          = match json_Unmarshal data with
            | Some buildSBOM =>
                if existsb
                     (λ p, existsb panicsOn (spdx.Package.ExternalRefs p))
                     (spdx.Document.Packages buildSBOM)
                then Panic
                else
                  Ret (spdx.Document.set_Relationships
                         (buildDependency "SPDXRef-Package-hello-2.12-r0"
                            <$> splicedPackages
                                  (spdx.Document.Packages buildSBOM))
                         (spdx.Document.set_Packages
                            (splicedPackages
                               (spdx.Document.Packages buildSBOM))
                            (spdx.Document.set_DocumentDescribes
                               ["SPDXRef-Package-hello-2.12-r0"]
                               Sample.blank)))
            | None =>
                Fail (fmt_Errorf "unmarshaling build time SBOM"
                                 (lib_error "json.Unmarshal"))
            end.
Proof.
  exists (CopyBuildSBOM Sample.join Sample.image_world Sample.spec).2.
  assert (Hcopy : CopyBuildSBOM Sample.join Sample.image_world Sample.spec
                  = (Ret (),
                     (CopyBuildSBOM Sample.join Sample.image_world
                        Sample.spec).2))
    by (vm_compute; reflexivity).
  split; [exact Hcopy|]. split; [vm_compute; reflexivity|].
  destruct (CopyBuildSBOM_then_merge Sample.join Sample.image_world
              Sample.spec _
              (spdx.Document.set_DocumentDescribes
                 ["SPDXRef-Package-hello-2.12-r0"] Sample.blank)
              "SPDXRef-Package-hello-2.12-r0" [] Hcopy eq_refl)
    as (data & Hdata & _ & Hparse).
  exists data. split; [exact Hdata|exact Hparse].
Defined.

End examples_copy.

(** ** What the built document describes *)

Lemma forRange_Ret_prefix {A S} (I : list A → S → Prop)
    (body : S → A → outcome S) (l : list A) (s s' : S) :
  I [] s →
  (∀ pre x s1 s2, I pre s1 → body s1 x = Ret s2 → I (pre ++ [x]) s2) →
  forRange body s l = Ret s' → I l s'.
Proof.
  intros Hs Hbody.
  assert (Hgen : ∀ pre s, I pre s → forRange body s l = Ret s' → I (pre ++ l) s').
  { induction l as [|x l IH]; intros pre s0 Hpre Hrun; simpl in Hrun.
    - inversion Hrun; subst. by rewrite app_nil_r.
    - destruct (body s0 x) as [s1| | |] eqn:Hx; try discriminate.
      simpl in Hrun. rewrite cons_middle, (assoc_L (++) pre [x] l).
      apply (IH (pre ++ [x]) s1); [by eapply Hbody|done]. }
  apply (Hgen [] s Hs).
Qed.

Lemma extends_described (d0 d1 d2 : spdx.Document.t) (ids : list string)
    (i : string) :
  extends (spdx.Document.set_DocumentDescribes ids d0) d1 →
  extends (spdx.Document.set_DocumentDescribes
             (spdx.Document.DocumentDescribes d1 ++ [i]) d1) d2 →
  extends (spdx.Document.set_DocumentDescribes (ids ++ [i]) d0) d2.
Proof.
  intros [? ? ? ? ? ? Hd ? ? ? ?] [? ? ? ? ? ? Hd' ? ? ? ?].
  simpl in *. split; simpl; try congruence; try (by etrans).
Qed.

(** X11. The document [buildDocumentSPDX] returns carries the fixed header
    of the tool, named after the package and its version; it describes the
    identifiers of the packages of the document followed by those of its
    files, in their order; and for every element it describes it holds the
    record lowered from that element. *)
Theorem buildDocumentSPDX_describes `{Libs} (fuel : nat) (w : World)
    (h : heap) (spec : Spec.t) (doc : bom.t) (d : spdx.Document.t) :
  buildDocumentSPDX fuel w h spec doc = Ret d →
  let name :=
    "apk-" +:+ Spec.PackageName spec +:+ "-" +:+ Spec.PackageVersion spec in
  spdx.Document.ID d = "SPDXRef-DOCUMENT-" +:+ name
  ∧ spdx.Document.Name d = name
  ∧ spdx.Document.Version d = "SPDX-2.3"
  ∧ spdx.CreationInfo.Creators (spdx.Document.CreationInfo d)
    = ["Tool: melange (" +:+ version_GitVersion +:+ ")";
       "Organization: Chainguard, Inc"]
  ∧ spdx.CreationInfo.LicenseListVersion (spdx.Document.CreationInfo d)
    = "3.18"
  ∧ spdx.Document.DataLicense d = "CC0-1.0"
  ∧ spdx.Document.Namespace d
    = "https://spdx.org/spdxdocs/chainguard/melange/"
  ∧ spdx.Document.ExternalDocumentRefs d = []
  ∧ spdx.Document.DocumentDescribes d
    = (pkg_ID <$> bom.Packages doc) ++ (file_ID <$> bom.Files doc)
  ∧ (∀ p, p ∈ bom.Packages doc → spdxPackage h p ∈ spdx.Document.Packages d)
  ∧ (∀ f, f ∈ bom.Files doc → spdxFile f ∈ spdx.Document.Files d).
Proof.
  unfold buildDocumentSPDX.
  destruct (sbomTime w) as [t| | |]; try discriminate. simpl.
  match goal with
  | |- context [forRange ?b ?d0 (bom.Packages doc)] =>
      set (start := d0);
      destruct (forRange b start (bom.Packages doc)) as [d1| | |] eqn:Hp
  end; try discriminate.
  simpl. intros Hf.
  apply (forRange_Ret_prefix
           (λ pre x,
              extends (spdx.Document.set_DocumentDescribes
                         (pkg_ID <$> pre) start) x
              ∧ ∀ p, p ∈ pre → spdxPackage h p ∈ spdx.Document.Packages x))
    in Hp as [Hext1 Hpkgs].
  2: { split; [apply extends_refl|]. by intros p Hin%elem_of_nil. }
  2: { intros pre p s1 s2 [Hext Hin] Hrun. split.
       - rewrite fmap_app. eapply extends_described; [exact Hext|].
         eapply extends_trans; [|by eapply addPackage_extends].
         apply extends_set_Packages.
       - intros q [Hq| ->%list_elem_of_singleton]%elem_of_app.
         + apply addPackage_extends in Hrun as [_ _ _ _ _ _ _ _ Hpre _ _].
           eapply elem_of_prefix; [|exact Hpre]. simpl.
           apply elem_of_app. left. by apply Hin.
         + apply addPackage_emits in Hrun.
           by eapply list_elem_of_lookup_2. }
  apply (forRange_Ret_prefix
           (λ pre x,
              extends (spdx.Document.set_DocumentDescribes
                         (spdx.Document.DocumentDescribes d1
                            ++ (file_ID <$> pre)) d1) x
              ∧ ∀ f, f ∈ pre → spdxFile f ∈ spdx.Document.Files x))
    in Hf as [Hext2 Hfiles].
  2: { split; [|by intros p Hin%elem_of_nil].
       simpl. rewrite app_nil_r. destruct d1. apply extends_refl. }
  2: { intros pre f s1 s2 [Hext Hin] Hrun. split.
       - rewrite fmap_app, (assoc_L (++)).
         eapply extends_described; [exact Hext|].
         eapply extends_trans; [|by eapply addFile_extends].
         apply extends_set_Files.
       - apply addFile_extends in Hrun as [_ _ _ _ _ _ _ _ _ Hpre _].
         intros q [Hq| ->%list_elem_of_singleton]%elem_of_app;
           (eapply elem_of_prefix; [|exact Hpre]); simpl;
           apply elem_of_app; [left; by apply Hin|right; by left]. }
  destruct Hext1 as [e1 e2 e3 e4 e5 e6 e7 e8 e9 e10 e11].
  destruct Hext2 as [g1 g2 g3 g4 g5 g6 g7 g8 g9 g10 g11].
  simpl in *.
  rewrite g1, g2, g3, g4, g5, g6, g7, g8, e1, e2, e3, e4, e5, e6, e7, e8.
  repeat (split; [done|]). split.
  - intros p Hin. eapply elem_of_prefix; [by apply Hpkgs|done].
  - done.
Qed.

Section examples_describes.
#[local] Existing Instance Sample.plain.

Lemma buildDocumentSPDX_describes_witness :
  ∃ d,
    buildDocumentSPDX 2 (Sample.world None None None) Sample.store
      Sample.spec Sample.hello_bom = Ret d
    ∧ spdx.Document.Name d = "apk-hello-2.12-r0"
    ∧ spdx.Document.DocumentDescribes d = ["SPDXRef-Package-hello-2.12-r0"]
    ∧ spdxPackage Sample.store (Sample.root Sample.rels123)
      ∈ spdx.Document.Packages d.
Proof.
  assert (∃ d, buildDocumentSPDX 2 (Sample.world None None None)
                 Sample.store Sample.spec Sample.hello_bom = Ret d)
    as [d Hd].
  { eexists. vm_compute. reflexivity. }
  destruct (buildDocumentSPDX_describes 2 (Sample.world None None None)
              Sample.store Sample.spec Sample.hello_bom d Hd)
    as (_ & Hname & _ & _ & _ & _ & _ & _ & Hdesc & Hpkgs & _).
  exists d. split; [exact Hd|]. split; [exact Hname|]. split; [exact Hdesc|].
  apply Hpkgs. by left.
Defined.

End examples_describes.

(** ** What lowering a file leaves out *)

Lemma targetRecords_cons `{Libs} (h : heap) (rel : relationship.t)
    (rels : list relationship.t) :
  targetRecords h (rel :: rels)
  = match h !! relationship.Target rel with
    | Some (EFile f) => spdxFile f :: targetRecords h rels
    | _ => targetRecords h rels
    end.
Proof.
  unfold targetRecords. csimpl.
  by destruct (h !! relationship.Target rel) as [[p|f]|].
Qed.

Lemma forRange_cons_Ret {A S} (body : S → A → outcome S) (s s1 : S) (x : A)
    (l : list A) (r : outcome S) :
  body s x = Ret s1 → forRange body s1 l = r → forRange body s (x :: l) = r.
Proof. intros Hx Hl. simpl. by rewrite Hx. Qed.

Lemma leaf_file_loop `{Libs} (fuel : nat) (h : heap)
    (rels : list relationship.t) :
  leafTargets h rels →
  ∀ d, spdx.Document.Relationships d = [] →
  forRange
    (λ doc rel,
       seen ← sbomHasRelationship h doc rel;
       if (seen : bool) then Ret doc
       else
         match h !! relationship.Target rel with
         | Some (EFile v) => addFile (S fuel) h doc v
         | Some (EPkg v) => addPackage (S fuel) h doc v
         | None => Ret doc
         end) d rels
  = Ret (spdx.Document.set_Files
           (spdx.Document.Files d ++ targetRecords h rels) d).
Proof.
  induction rels as [|rel rels IH]; intros Hleaf d Hnone.
  { simpl. rewrite app_nil_r. by destruct d. }
  assert (Hleaf' : leafTargets h rels).
  { intros rel' t' Hin. apply Hleaf. by right. }
  assert (Hseen : sbomHasRelationship h d rel = Ret false).
  { unfold sbomHasRelationship. by rewrite Hnone. }
  rewrite targetRecords_cons.
  destruct (h !! relationship.Target rel) as [t|] eqn:Ht.
  - destruct (Hleaf rel t) as (f & -> & Hf); [by left|done|].
    eapply (forRange_cons_Ret _ _
              (spdx.Document.set_Files
                 (spdx.Document.Files d ++ [spdxFile f]) d)).
    + cbv beta. rewrite Hseen, Ht. rewrite addFile_S, Hf. reflexivity.
    + rewrite (IH Hleaf') by done. simpl.
      rewrite <- (assoc_L (++)). by destruct d.
  - eapply (forRange_cons_Ret _ _ d).
    + cbv beta. by rewrite Hseen, Ht.
    + by rewrite (IH Hleaf').
Qed.

(** X15. [addFile] has no call that appends a relationship: a file whose
    relationships point to files without relationships of their own, lowered
    into a document without relationships, yields its own record and one
    record per target in the store, and still no relationship. The endpoints
    need not be in the store: nothing dereferences them. *)
Theorem addFile_records_no_relationship `{Libs} (fuel : nat) (h : heap)
    (doc : spdx.Document.t) (f : file.t) :
  leafTargets h (file.Relationships f) →
  spdx.Document.Relationships doc = [] →
  addFile (S (S fuel)) h doc f
  = Ret (spdx.Document.set_Files
           (spdx.Document.Files doc
              ++ spdxFile f :: targetRecords h (file.Relationships f)) doc).
Proof.
  intros Hleaf Hnone. rewrite addFile_S.
  rewrite (leaf_file_loop fuel h _ Hleaf) by done. simpl.
  rewrite <- (assoc_L (++)). by destruct doc.
Qed.

Section examples_file_lowering.
#[local] Existing Instance Sample.plain.

Lemma addFile_records_no_relationship_witness :
  ∃ d,
    addFile 2 Sample.linked_store Sample.blank Sample.link = Ret d
    ∧ spdx.Document.Files d = [spdxFile Sample.link; spdxFile Sample.hello]
    ∧ spdx.Document.Relationships d = [].
Proof.
  eexists. split; [|split].
  - apply (addFile_records_no_relationship 0 Sample.linked_store Sample.blank
             Sample.link); [|reflexivity].
    intros rel t Hrel Ht.
    apply elem_of_cons in Hrel as [->|Hrel];
      [inversion Ht; subst; by eexists|].
    by apply elem_of_nil in Hrel.
  - reflexivity.
  - reflexivity.
Defined.

End examples_file_lowering.

(** ** What a scan leaves alone *)

Lemma addScanned_shape (files : gmap string file.t) (a : addr)
    (paths : list string) (h : heap) (p : pkg.t) :
  h !! a = Some (EPkg p) →
  pkg.FilesAnalyzed p = true →
  foldl (addScanned files a) h paths
  = <[a := EPkg (withScanned p
                   (containsRels a (length h)
                      (length (omap (λ path, files !! path) paths))))]>
      (h ++ (EFile <$> omap (λ path, files !! path) paths)).
Proof.
  revert h p. induction paths as [|path l IH]; intros h p Ha Hfa.
  - simpl. rewrite app_nil_r, withScanned_nil.
    replace (set_FilesAnalyzed true p) with p
      by (destruct p; simpl in Hfa; by subst).
    symmetry. by apply list_insert_id.
  - pose proof (lookup_lt_Some _ _ _ Ha) as Hlt.
    simpl foldl. unfold addScanned at 2. csimpl.
    destruct (files !! path) as [v|]; [|by apply IH].
    rewrite Ha.
    rewrite (IH _ (append_Relationship
                     (relationship.mk a (length h) "CONTAINS") p)).
    + rewrite withScanned_append, length_insert, length_app. simpl.
      rewrite Nat.add_1_r, <- containsRels_S.
      rewrite <- insert_app_l by (rewrite length_app; simpl; lia).
      rewrite list_insert_insert_eq. by rewrite <- app_assoc.
    + apply list_lookup_insert_eq. rewrite length_app. simpl. lia.
    + done.
Qed.

(** X16. Whatever its outcome, [ScanFiles] leaves every entity of the store
    other than the package it scans as it was. Either the store is
    unchanged, or the package is marked as analyzed and gains one "CONTAINS"
    relationship to each of the file entities allocated after the entities
    the store held, and nothing else about it changes. *)
Theorem ScanFiles_frame (w : World) (completion rangeOrder : list string)
    (spec : Spec.t) (a : addr) (h : heap) :
  let h' := (ScanFiles w completion rangeOrder spec a h).2 in
  (∀ a', a' ≠ a → (a' < length h)%nat → h' !! a' = h !! a')
  ∧ (h' = h
     ∨ ∃ p new,
         h !! a = Some (EPkg p)
         ∧ h' = <[a := EPkg (withScanned p
                               (containsRels a (length h) (length new)))]>
                  (h ++ (EFile <$> new))).
Proof.
  assert (Hshape :
    (ScanFiles w completion rangeOrder spec a h).2 = h
    ∨ ∃ p new,
        h !! a = Some (EPkg p)
        ∧ (ScanFiles w completion rangeOrder spec a h).2
          = <[a := EPkg (withScanned p
                           (containsRels a (length h) (length new)))]>
              (h ++ (EFile <$> new))).
  { unfold ScanFiles.
    destruct (w_abs w (Spec.Path spec)) as [dirPath|]; [|by left].
    destruct (getDirectoryTree w dirPath) as [fileList| | |]; try by left.
    destruct (h !! a) as [[p|f]|] eqn:Ha; try by left.
    right. exists p.
    destruct (storeAll w dirPath completion) as [files [|e errs]].
    - exists (omap (λ path, files !! path) (sort_Strings rangeOrder)).
      split; [done|]. simpl.
      rewrite (addScanned_shape files a _ _ (set_FilesAnalyzed true p)).
      + rewrite length_insert.
        rewrite <- insert_app_l by by eapply lookup_lt_Some.
        rewrite list_insert_insert_eq.
        by do 2 f_equal.
      + apply list_lookup_insert_eq. by eapply lookup_lt_Some.
      + done.
    - exists []. split; [done|]. simpl.
      by rewrite app_nil_r, withScanned_nil. }
  intros h'. split; [|exact Hshape].
  intros a' Hne Hlt. subst h'.
  destruct Hshape as [->|(p & new & Ha & ->)]; [done|].
  rewrite list_lookup_insert_ne by done. by rewrite lookup_app_l.
Qed.

(** ** What lowering keeps *)

(** X17. Lowering an entity into a document, however deep its graph, keeps
    the header of the document and what it describes, keeps the records the
    document held, in place, and puts the record of the entity itself right
    after the package records, or the file records, that were there. *)
Theorem lowering_only_appends `{Libs} (fuel : nat) (h : heap)
    (doc doc' : spdx.Document.t) (e : element) :
  match e with
  | EPkg p => addPackage fuel h doc p
  | EFile f => addFile fuel h doc f
  end = Ret doc' →
  extends doc doc'
  ∧ match e with
    | EPkg p =>
        spdx.Document.Packages doc' !! length (spdx.Document.Packages doc)
        = Some (spdxPackage h p)
    | EFile f =>
        spdx.Document.Files doc' !! length (spdx.Document.Files doc)
        = Some (spdxFile f)
    end.
Proof.
  destruct e as [p|f]; intros Hrun.
  - split; [|by eapply addPackage_emits].
    eapply extends_trans; [apply extends_set_Packages|].
    by eapply addPackage_extends.
  - pose proof (addFile_extends _ _ _ _ _ Hrun) as Hext. split.
    + eapply extends_trans; [apply extends_set_Files|exact Hext].
    + destruct Hext as [_ _ _ _ _ _ _ _ _ [k Hk] _].
      rewrite Hk. simpl. rewrite <- app_assoc.
      rewrite lookup_app_r by lia. by rewrite Nat.sub_diag.
Qed.

Section examples_appends.
#[local] Existing Instance Sample.plain.

Lemma lowering_only_appends_witness :
  ∃ doc',
    addPackage 4 Sample.mutual_store Sample.blank
      (Sample.named "app" [Sample.depends 0 1]) = Ret doc'
    ∧ extends Sample.blank doc'
    ∧ spdx.Document.Packages doc' !! 0%nat
      = Some (spdxPackage Sample.mutual_store
                (Sample.named "app" [Sample.depends 0 1])).
Proof.
  assert (∃ doc', addPackage 4 Sample.mutual_store Sample.blank
                    (Sample.named "app" [Sample.depends 0 1]) = Ret doc')
    as [doc' Hrun].
  { eexists. vm_compute. reflexivity. }
  exists doc'. split; [exact Hrun|].
  exact (lowering_only_appends 4 Sample.mutual_store Sample.blank doc'
           (EPkg (Sample.named "app" [Sample.depends 0 1])) Hrun).
Defined.

End examples_appends.

(** ** No relationship is emitted twice *)

Lemma hasRelationship_true_inv `{Libs} (h : heap)
    (rels : list spdx.Relationship.t) (bomRel : relationship.t) :
  hasRelationship h rels bomRel = Ret true →
  ∃ x, relationshipRecord h bomRel = Some x ∧ x ∈ rels.
Proof.
  destruct rels as [|r rels]; [discriminate|].
  unfold relationshipRecord.
  destruct (h !! relationship.Source bomRel) as [s|] eqn:Hs;
    [|simpl; unfold ID_at; by rewrite Hs].
  destruct (h !! relationship.Target bomRel) as [t|] eqn:Ht.
  - intros Hrun. eexists. split; [done|].
    by eapply hasRelationship_true.
  - intros Hrun. exfalso. revert Hrun. generalize (r :: rels). clear r rels.
    intros rels. induction rels as [|r rels IH]; simpl; [done|].
    unfold ID_at. rewrite Hs, Ht. simpl.
    by destruct (String.eqb (spdx.Relationship.Element r) (element_ID s)).
Qed.

Lemma hasRelationship_false_inv `{Libs} (h : heap)
    (rels : list spdx.Relationship.t) (bomRel : relationship.t)
    (x : spdx.Relationship.t) :
  hasRelationship h rels bomRel = Ret false →
  relationshipRecord h bomRel = Some x → x ∉ rels.
Proof.
  intros Hrun (s & t & Hs & Ht & ->)%relationshipRecord_Some.
  by eapply hasRelationship_false.
Qed.

Lemma forRange_Ret_all {A S} (I : S → Prop) (P : A → Prop)
    (body : S → A → outcome S) (l : list A) (s s' : S) :
  I s →
  (∀ s1 x s2, x ∈ l → I s1 → body s1 x = Ret s2 → I s2 ∧ P x) →
  forRange body s l = Ret s' → I s' ∧ ∀ x, x ∈ l → P x.
Proof.
  revert s. induction l as [|x l IH]; intros s Hs Hbody Hrun; simpl in Hrun.
  - inversion Hrun; subst. split; [done|]. by intros x Hx%elem_of_nil.
  - destruct (body s x) as [s1| | |] eqn:Hx; try discriminate.
    simpl in Hrun.
    destruct (Hbody s x s1) as [Hs1 Hpx]; [by left|done|done|].
    destruct (IH s1 Hs1) as [Hs' Hall];
      [intros; eapply Hbody; eauto; by right|done|].
    split; [done|].
    intros y [->|Hy]%elem_of_cons; [done|by apply Hall].
Qed.

Section no_duplicate.
Context `{Libs} (h : heap) (G : relationship.t → Prop).
Hypothesis G_closed :
  ∀ rel t rel', G rel → h !! relationship.Target rel = Some t →
                rel' ∈ element_Relationships t → G rel'.
Hypothesis G_ids :
  ∀ rel1 rel2 u v,
    G rel1 → G rel2 →
    h !! relationship.Target rel1 = Some u →
    h !! relationship.Target rel2 = Some v →
    element_ID u = element_ID v →
    element_Relationships u = element_Relationships v.

Lemma closedStack_push (stack : list frame) (cur : list relationship.t)
    (rel : relationship.t) (t : element) :
  closedStack h G stack cur → rel ∈ cur → G rel →
  h !! relationship.Target rel = Some t →
  closedStack h G (stack ++ [(cur, rel)]) (element_Relationships t).
Proof.
  intros Hclosed Hrel HG Ht F [HF| ->%list_elem_of_singleton]%elem_of_app.
  - destruct (Hclosed F HF) as (Hin & HGF & u & Hu & Hnext).
    split; [done|]. split; [done|]. exists u. split; [done|]. right.
    destruct Hnext as [Hcur|(F' & HF' & Heq)].
    + exists (cur, rel). split; [|done].
      apply elem_of_app. right. by apply list_elem_of_singleton.
    + exists F'. split; [|done]. apply elem_of_app. by left.
  - simpl. split; [done|]. split; [done|]. exists t. split; [done|]. by left.
Qed.

(** The target of a pending relationship with the relationships of the
    entity being lowered, or of one further up, is on the stack once the
    entity being lowered is pushed. *)
Lemma closedStack_onStack (stack : list frame) (cur : list relationship.t)
    (rel : relationship.t) (F : frame) (u : element) :
  closedStack h G stack cur → F ∈ stack →
  h !! relationship.Target F.2 = Some u →
  onStack (stack ++ [(cur, rel)]) (element_Relationships u).
Proof.
  intros Hclosed HF Hu.
  destruct (Hclosed F HF) as (_ & _ & u' & Hu' & Hnext).
  rewrite Hu in Hu'. inversion Hu'; subst u'.
  destruct Hnext as [Hcur|(F' & HF' & Heq)].
  - exists (cur, rel). split; [|done].
    apply elem_of_app. right. by apply list_elem_of_singleton.
  - exists F'. split; [|done]. apply elem_of_app. by left.
Qed.

Lemma lowering_no_duplicate (fuel : nat) :
  ∀ e stack d d',
    (∀ rel, rel ∈ element_Relationships e → G rel) →
    closedStack h G stack (element_Relationships e) →
    pendingFree h stack d →
    NoDup (spdx.Document.Relationships d) →
    match e with
    | EPkg p => addPackage fuel h d p
    | EFile f => addFile fuel h d f
    end = Ret d' →
    NoDup (spdx.Document.Relationships d')
    ∧ pendingFree h stack d'
    ∧ ¬ onStack stack (element_Relationships e).
Proof.
  induction fuel as [|fuel IH]; [by intros [p|f]|].
  (* lowering the target of a relationship of the entity being lowered *)
  assert (Htarget : ∀ cur stack rel d1 d3,
            (∀ rel, rel ∈ cur → G rel) → rel ∈ cur →
            closedStack h G stack cur →
            pendingFree h stack d1 →
            NoDup (spdx.Document.Relationships d1) →
            sbomHasRelationship h d1 rel = Ret false →
            match h !! relationship.Target rel with
            | Some (EFile v) => addFile fuel h d1 v
            | Some (EPkg v) => addPackage fuel h d1 v
            | None => Ret d1
            end = Ret d3 →
            NoDup (spdx.Document.Relationships d3)
            ∧ pendingFree h (stack ++ [(cur, rel)]) d3
            ∧ ∀ t, h !! relationship.Target rel = Some t →
                   ¬ onStack (stack ++ [(cur, rel)])
                       (element_Relationships t)).
  { intros cur stack rel d1 d3 HG Hrel Hclosed Hfree Hnd Hseen Hlow.
    assert (Hfree' : pendingFree h (stack ++ [(cur, rel)]) d1).
    { intros F x [HF| ->%list_elem_of_singleton]%elem_of_app Hx.
      - by eapply Hfree.
      - by eapply hasRelationship_false_inv. }
    destruct (h !! relationship.Target rel) as [t|] eqn:Ht.
    - destruct (IH t (stack ++ [(cur, rel)]) d1 d3) as (Hnd3 & Hfree3 & Hoff).
      + intros rel' Hrel'. eapply G_closed; [by apply HG|exact Ht|done].
      + by apply closedStack_push; [|done|apply HG|].
      + done.
      + done.
      + by destruct t.
      + split; [done|]. split; [done|]. by intros t' [= <-].
    - inversion Hlow; subst d3. split; [done|]. split; [done|].
      by intros t' [=]. }
  intros e stack d d' HG Hclosed Hfree Hnd Hrun.
  set (cur := element_Relationships e) in *.
  (* what one turn of the loop keeps, and what a turn that returns shows *)
  enough (Hloop :
    (NoDup (spdx.Document.Relationships d') ∧ pendingFree h stack d')
    ∧ ∀ rel, rel ∈ cur → ∀ F, F ∈ stack → F.1 = cur → F.2 ≠ rel).
  { destruct Hloop as [[Hnd' Hfree'] Hoff]. split; [done|]. split; [done|].
    intros (F & HF & Heq).
    destruct (Hclosed F HF) as (Hin & _). rewrite Heq in Hin.
    by apply (Hoff F.2 Hin F HF Heq). }
  assert (Hpending : ∀ rel d1 F,
            rel ∈ cur → F ∈ stack → F.1 = cur → F.2 = rel →
            pendingFree h stack d1 →
            NoDup (spdx.Document.Relationships d1) →
            ∀ b, sbomHasRelationship h d1 rel = Ret b →
            ∀ d3, match h !! relationship.Target rel with
                  | Some (EFile v) => addFile fuel h d1 v
                  | Some (EPkg v) => addPackage fuel h d1 v
                  | None => Ret d1
                  end = Ret d3 → b = false → False).
  { intros rel d1 F Hrel HF Hcur HFrel Hfree1 Hnd1 b Hseen d3 Hlow ->.
    destruct (Htarget cur stack rel d1 d3 HG Hrel Hclosed Hfree1 Hnd1 Hseen
                Hlow) as (_ & _ & Hoff).
    destruct (Hclosed F HF) as (_ & _ & u & Hu & _).
    rewrite HFrel in Hu. apply (Hoff u Hu).
    apply (closedStack_onStack stack cur rel F u Hclosed HF).
    by rewrite HFrel. }
  destruct e as [p|f]; simpl in Hrun, cur.
  - revert Hrun.
    apply (forRange_Ret_all
             (λ d1, NoDup (spdx.Document.Relationships d1)
                    ∧ pendingFree h stack d1)
             (λ rel, ∀ F, F ∈ stack → F.1 = cur → F.2 ≠ rel)); [done|].
    intros d1 rel d2 Hrel [Hnd1 Hfree1] Hbody.
    destruct (sbomHasRelationship h d1 rel) as [[|]| | |] eqn:Hseen;
      try discriminate; simpl in Hbody.
    { inversion Hbody; subst d2. split; [done|].
      intros F HF _ HFrel.
      destruct (hasRelationship_true_inv _ _ _ Hseen) as (x & Hx & Hin).
      rewrite <- HFrel in Hx. by apply (Hfree1 F x HF Hx). }
    destruct (match h !! relationship.Target rel with
              | Some (EPkg v) => addPackage fuel h d1 v
              | Some (EFile v) => addFile fuel h d1 v
              | None => Ret d1 end) as [d3| | |] eqn:Hlow; try discriminate.
    simpl in Hbody.
    destruct (appendRelationship_Ret _ _ _ _ Hbody) as (s & t & Hs & Ht & ->).
    destruct (Htarget cur stack rel d1 d3 HG Hrel Hclosed Hfree1 Hnd1 Hseen
                Hlow) as (Hnd3 & Hfree3 & Hoff).
    assert (Hrec : relationshipRecord h rel
                   = Some (spdx.Relationship.mk (element_ID s)
                             (relationship.Type_ rel) (element_ID t))).
    { unfold relationshipRecord. by rewrite Hs, Ht. }
    split; [split|].
    + simpl. apply NoDup_app. split; [done|].
      split; [|apply NoDup_singleton].
      intros x Hx ->%list_elem_of_singleton.
      eapply (Hfree3 (cur, rel)); [|exact Hrec|exact Hx].
      apply elem_of_app. right. by apply list_elem_of_singleton.
    + intros F x HF Hx. simpl.
      intros [Hin|Heq%list_elem_of_singleton]%elem_of_app.
      * apply (Hfree3 F x); [apply elem_of_app; by left|done|done].
      * destruct (relationshipRecord_Some _ _ _ Hx)
          as (sF & u & HsF & Hu & HxF).
        destruct (Hclosed F HF) as (_ & HGF & _).
        assert (element_ID u = element_ID t) as Hid
          by (rewrite HxF in Heq; by inversion Heq).
        apply (Hoff t Ht).
        rewrite <- (G_ids F.2 rel u t HGF (HG rel Hrel) Hu Ht Hid).
        by apply (closedStack_onStack stack cur rel F u Hclosed HF).
    + intros F HF Hcur HFrel.
      by apply (Hpending rel d1 F Hrel HF Hcur HFrel Hfree1 Hnd1 false Hseen
                  d3 Hlow).
  - revert Hrun.
    apply (forRange_Ret_all
             (λ d1, NoDup (spdx.Document.Relationships d1)
                    ∧ pendingFree h stack d1)
             (λ rel, ∀ F, F ∈ stack → F.1 = cur → F.2 ≠ rel)); [done|].
    intros d1 rel d2 Hrel [Hnd1 Hfree1] Hbody.
    destruct (sbomHasRelationship h d1 rel) as [[|]| | |] eqn:Hseen;
      try discriminate; simpl in Hbody.
    { inversion Hbody; subst d2. split; [done|].
      intros F HF _ HFrel.
      destruct (hasRelationship_true_inv _ _ _ Hseen) as (x & Hx & Hin).
      rewrite <- HFrel in Hx. by apply (Hfree1 F x HF Hx). }
    destruct (Htarget cur stack rel d1 d2 HG Hrel Hclosed Hfree1 Hnd1 Hseen
                Hbody) as (Hnd3 & Hfree3 & Hoff).
    split; [split; [done|]|].
    + intros F x HF Hx. apply (Hfree3 F x); [|done].
      apply elem_of_app. by left.
    + intros F HF Hcur HFrel.
      by apply (Hpending rel d1 F Hrel HF Hcur HFrel Hfree1 Hnd1 false Hseen
                  d2 Hbody).
Qed.

End no_duplicate.

Lemma reaches_target (h : heap) (r z t : element) (rel : relationship.t) :
  reaches h r z → rel ∈ element_Relationships z →
  h !! relationship.Target rel = Some t → reaches h r t.
Proof.
  intros Hreach. induction Hreach as [e|e rel0 t0 z Hrel0 Ht0 Hreach IH];
    intros Hrel Ht.
  - eapply reaches_step; [exact Hrel|exact Ht|apply reaches_refl].
  - eapply reaches_step; [exact Hrel0|exact Ht0|by apply IH].
Qed.

Lemma graphRel_root (h : heap) (doc : bom.t) (r : element)
    (rel : relationship.t) :
  r ∈ roots doc → rel ∈ element_Relationships r → graphRel h doc rel.
Proof.
  intros Hr Hrel. exists r. split; [|done]. exists r. split; [done|].
  apply reaches_refl.
Qed.

Lemma inGraph_target (h : heap) (doc : bom.t) (rel : relationship.t)
    (t : element) :
  graphRel h doc rel → h !! relationship.Target rel = Some t →
  inGraph h doc t.
Proof.
  intros (z & (r & Hr & Hreach) & Hrel) Ht. exists r. split; [done|].
  by eapply reaches_target.
Qed.

Lemma graphRel_target (h : heap) (doc : bom.t) (rel : relationship.t)
    (t : element) (rel' : relationship.t) :
  graphRel h doc rel → h !! relationship.Target rel = Some t →
  rel' ∈ element_Relationships t → graphRel h doc rel'.
Proof. intros HG Ht Hrel'. exists t. split; [by eapply inGraph_target|done]. Qed.

(** The graphs that [ScanFiles] builds: the targets of the relationships of
    the top-level elements are files without relationships. *)
Lemma leaf_graph (h : heap) (doc : bom.t) (rel : relationship.t) :
  (∀ r, r ∈ roots doc → leafTargets h (element_Relationships r)) →
  graphRel h doc rel →
  ∃ r, r ∈ roots doc ∧ rel ∈ element_Relationships r.
Proof.
  intros Hleaf (z & (r & Hr & Hreach) & Hrel). exists r. split; [done|].
  destruct Hreach as [e|e rel0 t z Hrel0 Ht Hreach]; [done|].
  destruct (Hleaf e Hr rel0 t Hrel0 Ht) as (f & -> & Hnone).
  inversion Hreach as [e' Heq|e' rel1 t1 z1 Hrel1]; subst.
  - simpl in Hrel. rewrite Hnone in Hrel. by apply elem_of_nil in Hrel.
  - simpl in Hrel1. rewrite Hnone in Hrel1. by apply elem_of_nil in Hrel1.
Qed.

Lemma leaf_graph_idsNameTargets `{Libs} (h : heap) (doc : bom.t) :
  (∀ r, r ∈ roots doc → leafTargets h (element_Relationships r)) →
  idsNameTargets h doc.
Proof.
  intros Hleaf rel1 rel2 u v
    (r1 & Hr1 & Hrel1)%(leaf_graph h doc rel1 Hleaf)
    (r2 & Hr2 & Hrel2)%(leaf_graph h doc rel2 Hleaf) Hu Hv _.
  destruct (Hleaf r1 Hr1 rel1 u Hrel1 Hu) as (f1 & -> & Hf1).
  destruct (Hleaf r2 Hr2 rel2 v Hrel2 Hv) as (f2 & -> & Hf2).
  simpl. by rewrite Hf1, Hf2.
Qed.

Lemma buildDocumentSPDX_NoDup `{Libs} (fuel : nat) (w : World)
    (h : heap) (spec : Spec.t) (doc : bom.t) (d : spdx.Document.t) :
  idsNameTargets h doc →
  buildDocumentSPDX fuel w h spec doc = Ret d →
  NoDup (spdx.Document.Relationships d).
Proof.
  intros Hids. unfold buildDocumentSPDX.
  destruct (sbomTime w) as [t| | |]; try discriminate. simpl.
  assert (Hroot : ∀ r d1 d2,
            r ∈ roots doc →
            NoDup (spdx.Document.Relationships d1) →
            match r with
            | EPkg p => addPackage fuel h d1 p
            | EFile f => addFile fuel h d1 f
            end = Ret d2 →
            NoDup (spdx.Document.Relationships d2)).
  { intros r d1 d2 Hr Hnd Hrun.
    destruct (lowering_no_duplicate h (graphRel h doc)
                (graphRel_target h doc) Hids fuel r [] d1 d2) as (Hnd2 & _).
    - intros rel Hrel. by eapply graphRel_root.
    - by intros F HF%elem_of_nil.
    - by intros F x HF%elem_of_nil.
    - done.
    - done.
    - done. }
  match goal with
  | |- context [forRange ?b ?d0 (bom.Packages doc)] =>
      destruct (forRange b d0 (bom.Packages doc)) as [d1| | |] eqn:Hp
  end; try discriminate.
  simpl. intros Hf.
  assert (NoDup (spdx.Document.Relationships d1)) as Hd1.
  { revert Hp.
    apply (forRange_Ret_inv (λ x, NoDup (spdx.Document.Relationships x)));
      [apply NoDup_nil_2|].
    intros x p y Hp Hx Hrun.
    eapply (Hroot (EPkg p)); [| |exact Hrun]; [|exact Hx].
    apply elem_of_app. left. by apply list_elem_of_fmap_2. }
  revert Hf.
  apply (forRange_Ret_inv (λ x, NoDup (spdx.Document.Relationships x)));
    [exact Hd1|].
  intros x f y Hf Hx Hrun.
  eapply (Hroot (EFile f)); [| |exact Hrun]; [|exact Hx].
  apply elem_of_app. right. by apply list_elem_of_fmap_2.
Qed.

(** C6. When an identifier names one entity, no two relationship records
    of the document that [buildDocumentSPDX] returns have the same
    (source id, kind, target id) triple: a relationship whose triple the
    document holds is skipped, and while the target of a relationship is
    lowered nothing emits the triple of that relationship, however deep the
    graph. *)
Theorem no_duplicate_relationship `{Libs} (fuel : nat) (w : World)
    (h : heap) (spec : Spec.t) (doc : bom.t) (d : spdx.Document.t) :
  idsNameTargets h doc →
  buildDocumentSPDX fuel w h spec doc = Ret d →
  NoDup (spdx.Document.Relationships d)
  ∧ ∀ rel x,
      graphRel h doc rel → relationshipRecord h rel = Some x →
      x ∈ spdx.Document.Relationships d →
      sbomHasRelationship h d rel = Ret true.
Proof.
  intros Hids Hbuild. split; [by eapply buildDocumentSPDX_NoDup|].
  intros rel x HG (s & t & Hs & Ht & ->)%relationshipRecord_Some Hx.
  unfold sbomHasRelationship.
  destruct (hasRelationship_total h (spdx.Document.Relationships d) rel s t
              Hs Ht) as [[|] Hb]; [done|].
  by destruct (hasRelationship_false h _ rel s t Hs Ht Hb).
Qed.

(** ** No dangling reference in a closed graph *)

Lemma forRange_Ret_prefix_in {A S} (I : list A → S → Prop)
    (body : S → A → outcome S) (l : list A) (s s' : S) :
  I [] s →
  (∀ pre x s1 s2, x ∈ l → I pre s1 → body s1 x = Ret s2 → I (pre ++ [x]) s2) →
  forRange body s l = Ret s' → I l s'.
Proof.
  intros Hs Hbody.
  assert (Hgen : ∀ suf pre s,
            (∀ x, x ∈ suf → x ∈ l) → I pre s →
            forRange body s suf = Ret s' → I (pre ++ suf) s').
  { induction suf as [|x suf IH]; intros pre s0 Hin Hpre Hrun; simpl in Hrun.
    - inversion Hrun; subst. by rewrite app_nil_r.
    - destruct (body s0 x) as [s1| | |] eqn:Hx; try discriminate.
      simpl in Hrun. rewrite cons_middle, (assoc_L (++) pre [x] suf).
      apply (IH (pre ++ [x]) s1).
      + intros y Hy. apply Hin. by right.
      + eapply Hbody; [apply Hin; by left|exact Hpre|exact Hx].
      + done. }
  apply (Hgen l [] s); [done|exact Hs].
Qed.

Lemma resolvesFrom_extends `{Libs} (h : heap) (d d' : spdx.Document.t)
    (e : element) :
  extends d d' → resolvesFrom h d e → resolvesFrom h d' e.
Proof. intros Hext Hres z Hz. eapply recordIDs_extends; [exact Hext|auto]. Qed.

Lemma relatedLowered_extends `{Libs} (h : heap) (doc : bom.t)
    (d d' : spdx.Document.t) :
  extends d d' →
  spdx.Document.Relationships d' = spdx.Document.Relationships d →
  relatedLowered h doc d → relatedLowered h doc d'.
Proof.
  intros Hext Hrels Hlow x rel t Hx HG Ht Hid. rewrite Hrels in Hx.
  eapply resolvesFrom_extends; [exact Hext|]. by eapply Hlow.
Qed.

Section closed_graph.
Context `{Libs} (h : heap) (doc : bom.t).
Hypothesis Hids : idsNameTargets h doc.

(** Targets with one identifier are reached to the same entities, the
    targets themselves apart. *)
Lemma resolvesFrom_same_id (d : spdx.Document.t) (rel rel2 : relationship.t)
    (t t2 : element) :
  graphRel h doc rel → graphRel h doc rel2 →
  h !! relationship.Target rel = Some t →
  h !! relationship.Target rel2 = Some t2 →
  element_ID t2 = element_ID t →
  resolvesFrom h d t → resolvesFrom h d t2.
Proof.
  intros HG HG2 Ht Ht2 Hid Hres z Hz.
  inversion Hz as [e Heq|e rel' t' z' Hrel' Ht' Hreach]; subst.
  - rewrite Hid. apply Hres, reaches_refl.
  - apply Hres. rewrite (Hids rel2 rel t2 t HG2 HG Ht2 Ht Hid) in Hrel'.
    by eapply reaches_step.
Qed.

Lemma lowering_closed (fuel : nat) :
  ∀ e d d',
    inGraph h doc e →
    relatedLowered h doc d → emittedFromGraph h doc d →
    match e with
    | EPkg p => addPackage fuel h d p
    | EFile f => addFile fuel h d f
    end = Ret d' →
    relatedLowered h doc d' ∧ emittedFromGraph h doc d'
    ∧ resolvesFrom h d' e ∧ extends d d'.
Proof.
  induction fuel as [|fuel IH]; [by intros [p|f]|].
  assert (Htarget : ∀ rel d1 d3 t,
            graphRel h doc rel →
            relatedLowered h doc d1 → emittedFromGraph h doc d1 →
            h !! relationship.Target rel = Some t →
            match h !! relationship.Target rel with
            | Some (EFile v) => addFile fuel h d1 v
            | Some (EPkg v) => addPackage fuel h d1 v
            | None => Ret d1
            end = Ret d3 →
            relatedLowered h doc d3 ∧ emittedFromGraph h doc d3
            ∧ resolvesFrom h d3 t ∧ extends d1 d3).
  { intros rel d1 d3 t HG Hlow Hem Ht Hrun. rewrite Ht in Hrun.
    apply (IH t d1 d3); [by eapply inGraph_target|done|done|by destruct t]. }
  assert (Hseen : ∀ rel d1 t,
            graphRel h doc rel → relatedLowered h doc d1 →
            sbomHasRelationship h d1 rel = Ret true →
            h !! relationship.Target rel = Some t →
            resolvesFrom h d1 t).
  { intros rel d1 t HG Hlow Hrun Ht.
    destruct (hasRelationship_true_inv _ _ _ Hrun) as (x & Hx & Hin).
    destruct (relationshipRecord_Some _ _ _ Hx) as (s & t' & Hs & Ht' & ->).
    rewrite Ht in Ht'. inversion Ht'; subst t'.
    by apply (Hlow _ rel t Hin HG Ht). }
  intros e d d' Hgraph Hlow Hem Hrun.
  assert (HG : ∀ rel, rel ∈ element_Relationships e → graphRel h doc rel).
  { intros rel Hrel. by exists e. }
  set (I := λ (d0 : spdx.Document.t) (pre : list relationship.t)
              (d1 : spdx.Document.t),
              relatedLowered h doc d1 ∧ emittedFromGraph h doc d1
              ∧ extends d0 d1
              ∧ ∀ rel t, rel ∈ pre → h !! relationship.Target rel = Some t →
                         resolvesFrom h d1 t).
  assert (Hend : ∀ d0, extends d d0 → element_ID e ∈ recordIDs d0 →
                       I d0 (element_Relationships e) d' →
                       relatedLowered h doc d' ∧ emittedFromGraph h doc d'
                       ∧ resolvesFrom h d' e ∧ extends d d').
  { intros d0 Hext0 Hid (Hlow' & Hem' & Hext' & Hpre).
    split; [done|]. split; [done|]. split; [|by eapply extends_trans].
    intros z Hz.
    inversion Hz as [e' Heq|e' rel t z' Hrel Ht Hreach]; subst.
    - by eapply recordIDs_extends.
    - by apply (Hpre rel t Hrel Ht). }
  destruct e as [p|f]; simpl in Hrun, HG.
  - set (d0 := spdx.Document.set_Packages
                 (spdx.Document.Packages d ++ [spdxPackage h p]) d) in *.
    apply (Hend d0); [apply extends_set_Packages| |].
    { change (element_ID (EPkg p)) with (pkg_ID p).
      rewrite <- (spdxPackage_ID h p).
      eapply recordIDs_package, extends_refl. }
    revert Hrun. apply (forRange_Ret_prefix_in (I d0)).
    { split; [|split; [done|split; [apply extends_refl|]]].
      - eapply relatedLowered_extends; [apply extends_set_Packages|done|done].
      - by intros rel t Hrel%elem_of_nil. }
    intros pre rel d1 d2 Hrel (Hlow1 & Hem1 & Hext1 & Hpre) Hbody.
    destruct (sbomHasRelationship h d1 rel) as [[|]| | |] eqn:Hs;
      try discriminate; simpl in Hbody.
    { inversion Hbody; subst d2. split; [done|]. split; [done|].
      split; [done|].
      intros rel' t [Hin| ->%list_elem_of_singleton]%elem_of_app Ht.
      - by eapply Hpre.
      - by eapply Hseen; [apply HG| | |]. }
    destruct (match h !! relationship.Target rel with
              | Some (EPkg v) => addPackage fuel h d1 v
              | Some (EFile v) => addFile fuel h d1 v
              | None => Ret d1 end) as [d3| | |] eqn:Hrun; try discriminate.
    simpl in Hbody.
    destruct (appendRelationship_Ret _ _ _ _ Hbody) as (s & t & Hsrc & Ht & ->).
    destruct (Htarget rel d1 d3 t (HG rel Hrel) Hlow1 Hem1 Ht Hrun)
      as (Hlow3 & Hem3 & Hres3 & Hext3).
    assert (Hext : extends d3
              (spdx.Document.set_Relationships
                 (spdx.Document.Relationships d3
                    ++ [spdx.Relationship.mk (element_ID s)
                          (relationship.Type_ rel) (element_ID t)]) d3))
      by apply extends_set_Relationships.
    split; [|split; [|split]].
    + intros x rel2 t2. simpl.
      intros [Hin| ->%list_elem_of_singleton]%elem_of_app HG2 Ht2 Hid.
      * eapply resolvesFrom_extends; [exact Hext|]. by eapply Hlow3.
      * eapply resolvesFrom_extends; [exact Hext|].
        by eapply (resolvesFrom_same_id d3 rel rel2 t t2); [apply HG| | | | |].
    + intros x. simpl.
      intros [Hin| ->%list_elem_of_singleton]%elem_of_app; [by apply Hem3|].
      exists rel, s, t. split; [by apply HG|done].
    + eapply extends_trans; [exact Hext1|].
      eapply extends_trans; [exact Hext3|exact Hext].
    + intros rel' t' [Hin| ->%list_elem_of_singleton]%elem_of_app Ht'.
      * eapply resolvesFrom_extends; [|by eapply Hpre].
        eapply extends_trans; [exact Hext3|exact Hext].
      * rewrite Ht in Ht'. inversion Ht'; subst t'.
        by eapply resolvesFrom_extends.
  - set (d0 := spdx.Document.set_Files
                 (spdx.Document.Files d ++ [spdxFile f]) d) in *.
    apply (Hend d0); [apply extends_set_Files| |].
    { change (element_ID (EFile f)) with (spdx.File.ID (spdxFile f)).
      eapply recordIDs_file, extends_refl. }
    revert Hrun. apply (forRange_Ret_prefix_in (I d0)).
    { split; [|split; [done|split; [apply extends_refl|]]].
      - eapply relatedLowered_extends; [apply extends_set_Files|done|done].
      - by intros rel t Hrel%elem_of_nil. }
    intros pre rel d1 d2 Hrel (Hlow1 & Hem1 & Hext1 & Hpre) Hbody.
    destruct (sbomHasRelationship h d1 rel) as [[|]| | |] eqn:Hs;
      try discriminate; simpl in Hbody.
    { inversion Hbody; subst d2. split; [done|]. split; [done|].
      split; [done|].
      intros rel' t [Hin| ->%list_elem_of_singleton]%elem_of_app Ht.
      - by eapply Hpre.
      - by eapply Hseen; [apply HG| | |]. }
    destruct (h !! relationship.Target rel) as [t|] eqn:Ht.
    + destruct (Htarget rel d1 d2 t (HG rel Hrel) Hlow1 Hem1 Ht)
        as (Hlow3 & Hem3 & Hres3 & Hext3); [by rewrite Ht|].
      split; [done|]. split; [done|].
      split; [by eapply extends_trans|].
      intros rel' t' [Hin| ->%list_elem_of_singleton]%elem_of_app Ht'.
      * eapply resolvesFrom_extends; [exact Hext3|by eapply Hpre].
      * rewrite Ht in Ht'. by inversion Ht'; subst t'.
    + inversion Hbody; subst d2. split; [done|]. split; [done|].
      split; [done|].
      intros rel' t' [Hin| ->%list_elem_of_singleton]%elem_of_app Ht'.
      * by eapply Hpre.
      * by rewrite Ht in Ht'.
Qed.

End closed_graph.

Lemma leaf_graph_sourcesInGraph `{Libs} (h : heap) (doc : bom.t) :
  (∀ r, r ∈ roots doc → leafTargets h (element_Relationships r)) →
  (∀ r rel s, r ∈ roots doc → rel ∈ element_Relationships r →
              h !! relationship.Source rel = Some s →
              ∃ r', r' ∈ roots doc ∧ element_ID r' = element_ID s) →
  sourcesInGraph h doc.
Proof.
  intros Hleaf Hsrc rel s (r & Hr & Hrel)%(leaf_graph h doc rel Hleaf) Hs.
  destruct (Hsrc r rel s Hr Hrel Hs) as (r' & Hr' & Hid).
  exists r'. split; [|done]. exists r'. split; [done|apply reaches_refl].
Qed.

Lemma buildDocumentSPDX_closed `{Libs} (fuel : nat) (w : World) (h : heap)
    (spec : Spec.t) (doc : bom.t) (d : spdx.Document.t) :
  idsNameTargets h doc → sourcesInGraph h doc →
  buildDocumentSPDX fuel w h spec doc = Ret d →
  noDangling d.
Proof.
  intros Hids Hsrc. unfold buildDocumentSPDX.
  destruct (sbomTime w) as [t| | |]; try discriminate. simpl.
  set (I := λ (pre : list element) (x : spdx.Document.t),
              relatedLowered h doc x ∧ emittedFromGraph h doc x
              ∧ (∀ r, r ∈ pre → resolvesFrom h x r)
              ∧ ∀ i, i ∈ spdx.Document.DocumentDescribes x → i ∈ recordIDs x).
  assert (Hroot : ∀ pre r x y,
            r ∈ roots doc → I pre x →
            match r with
            | EPkg p => addPackage fuel h
                          (spdx.Document.set_DocumentDescribes
                             (spdx.Document.DocumentDescribes x
                                ++ [element_ID r]) x) p
            | EFile f => addFile fuel h
                           (spdx.Document.set_DocumentDescribes
                              (spdx.Document.DocumentDescribes x
                                 ++ [element_ID r]) x) f
            end = Ret y →
            I (pre ++ [r]) y).
  { intros pre r x y Hr (Hlow & Hem & Hpre & Hdesc) Hrun.
    destruct (lowering_closed h doc Hids fuel r
                (spdx.Document.set_DocumentDescribes
                   (spdx.Document.DocumentDescribes x ++ [element_ID r]) x) y)
      as (Hlow' & Hem' & Hres & Hext).
    - exists r. split; [done|apply reaches_refl].
    - exact Hlow.
    - exact Hem.
    - by destruct r.
    - assert (Hids' : ∀ i, i ∈ recordIDs x → i ∈ recordIDs y)
        by (intros i; by apply (recordIDs_extends _ _ i Hext)).
      split; [done|]. split; [done|]. split.
      + intros r' [Hin| ->%list_elem_of_singleton]%elem_of_app; [|done].
        intros z Hz. by apply Hids', (Hpre r' Hin).
      + intros i. rewrite (ext_DocumentDescribes _ _ Hext). simpl.
        intros [Hi| ->%list_elem_of_singleton]%elem_of_app.
        * by apply Hids', Hdesc.
        * apply Hres, reaches_refl. }
  match goal with
  | |- context [forRange ?b ?d0 (bom.Packages doc)] =>
      set (start := d0);
      destruct (forRange b start (bom.Packages doc)) as [d1| | |] eqn:Hp
  end; try discriminate.
  simpl. intros Hf.
  apply (forRange_Ret_prefix_in (λ pre x, I (EPkg <$> pre) x)) in Hp.
  2: { split; [by intros x rel t0 Hx%elem_of_nil|].
       split; [by intros x Hx%elem_of_nil|].
       split; [by intros r Hr%elem_of_nil|by intros i Hi%elem_of_nil]. }
  2: { intros pre p x y Hin Hx Hrun. rewrite fmap_app.
       apply (Hroot (EPkg <$> pre) (EPkg p) x y); [|done|done].
       apply elem_of_app. left. by apply list_elem_of_fmap_2. }
  apply (forRange_Ret_prefix_in
           (λ pre x, I ((EPkg <$> bom.Packages doc) ++ (EFile <$> pre)) x))
    in Hf.
  2: { simpl. by rewrite app_nil_r. }
  2: { intros pre f x y Hin Hx Hrun. rewrite fmap_app, (assoc_L (++)).
       apply (Hroot _ (EFile f) x y); [|done|done].
       apply elem_of_app. right. by apply list_elem_of_fmap_2. }
  destruct Hf as (Hlow & Hem & Hroots & Hdesc).
  split; [|done].
  intros x Hx. destruct (Hem x Hx) as (rel & s & t' & HG & Hs & Ht & ->).
  simpl. split.
  - destruct (Hsrc rel s HG Hs) as (z & (r & Hr & Hreach) & <-).
    by apply (Hroots r Hr).
  - apply (Hlow _ rel t' Hx HG Ht); [done|apply reaches_refl].
Qed.

(** C7. When the entity graph is closed under sources and an identifier
    names one entity, the document that [buildDocumentSPDX] builds and
    [ParseBuildSBOM] then merges has no dangling reference: the element and
    the related identifier of every relationship record, and every
    described root, is the identifier of a package or file record of the
    document. *)
Theorem no_dangling_reference `{Libs} (fuel : nat) (w : World) (h : heap)
    (spec : Spec.t) (doc : bom.t) (d d' : spdx.Document.t) :
  idsNameTargets h doc →
  sourcesInGraph h doc →
  buildDocumentSPDX fuel w h spec doc = Ret d →
  ParseBuildSBOM w spec d = Ret d' →
  noDangling d'.
Proof.
  intros Hids Hsrc Hbuild Hmerge.
  eapply ParseBuildSBOM_noDangling; [|exact Hmerge].
  by eapply buildDocumentSPDX_closed.
Qed.

Section examples_closed_graph.
#[local] Existing Instance Sample.decoding.

Lemma sample_two_leaves (r : element) :
  r ∈ roots Sample.two_bom →
  leafTargets Sample.foreign_store (element_Relationships r).
Proof.
  intros Hr rel t Hrel Ht.
  repeat (apply elem_of_cons in Hr as [->|Hr];
          [repeat (apply elem_of_cons in Hrel as [->|Hrel];
                   [inversion Ht; subst; by eexists|]);
           by apply elem_of_nil in Hrel|]).
  by apply elem_of_nil in Hr.
Qed.

Lemma no_dangling_reference_witness :
  ∃ d d',
    buildDocumentSPDX 2 (Sample.world None (Some Sample.buildEnvData) None)
      Sample.foreign_store Sample.spec Sample.two_bom = Ret d
    ∧ ParseBuildSBOM (Sample.world None (Some Sample.buildEnvData) None)
        Sample.spec d = Ret d'
    ∧ spdx.Document.Relationships d'
      = [spdx.Relationship.mk "SPDXRef-Package-hello-src-1.0" "GENERATES"
                              "SPDXRef-File-/usr/bin/hello";
         spdx.Relationship.mk "SPDXRef-Package-musl" "BUILD_DEPENDENCY_OF"
                              "SPDXRef-Package-hello-src-1.0"]
    ∧ noDangling d'.
Proof.
  assert (∃ d, buildDocumentSPDX 2
                 (Sample.world None (Some Sample.buildEnvData) None)
                 Sample.foreign_store Sample.spec Sample.two_bom = Ret d)
    as [d Hd].
  { eexists. vm_compute. reflexivity. }
  assert (∃ d', ParseBuildSBOM
                  (Sample.world None (Some Sample.buildEnvData) None)
                  Sample.spec d = Ret d') as [d' Hd'].
  { vm_compute in Hd. inversion Hd; subst d. eexists. vm_compute.
    reflexivity. }
  exists d, d'. split; [exact Hd|]. split; [exact Hd'|]. split.
  - vm_compute in Hd. inversion Hd; subst d.
    vm_compute in Hd'. by inversion Hd'; subst d'.
  - apply (no_dangling_reference 2
             (Sample.world None (Some Sample.buildEnvData) None)
             Sample.foreign_store Sample.spec Sample.two_bom d d');
      [| |exact Hd|exact Hd'].
    + apply leaf_graph_idsNameTargets, sample_two_leaves.
    + apply leaf_graph_sourcesInGraph; [apply sample_two_leaves|].
      intros r rel s Hr Hrel Hs.
      exists (EPkg (Sample.named "hello-src" [])). split; [by left|].
      repeat (apply elem_of_cons in Hr as [->|Hr];
              [repeat (apply elem_of_cons in Hrel as [->|Hrel];
                       [by inversion Hs; subst|]);
               by apply elem_of_nil in Hrel|]).
      by apply elem_of_nil in Hr.
Defined.

End examples_closed_graph.

Section examples_chain.
#[local] Existing Instance Sample.plain.

Lemma sample_chain_rels (rel : relationship.t) :
  graphRel Sample.chain_store Sample.chain_bom rel →
  rel = relationship.mk 0 1 "DEPENDS_ON"
  ∨ rel = relationship.mk 1 2 "CONTAINS".
Proof.
  intros (z & (r & Hr & Hreach) & Hrel).
  apply list_elem_of_singleton in Hr. subst r.
  inversion Hreach as [e Heq|e rel0 t z0 Hrel0 Ht0 Hreach0]; subst.
  { left. by apply list_elem_of_singleton in Hrel. }
  apply list_elem_of_singleton in Hrel0. subst rel0.
  inversion Ht0; subst t.
  inversion Hreach0 as [e Heq|e rel1 t z1 Hrel1 Ht1 Hreach1]; subst.
  { right. by apply list_elem_of_singleton in Hrel. }
  apply list_elem_of_singleton in Hrel1. subst rel1.
  inversion Ht1; subst t.
  inversion Hreach1 as [e Heq|e rel2 t z2 Hrel2 Ht2 Hreach2]; subst.
  - by apply elem_of_nil in Hrel.
  - by apply elem_of_nil in Hrel2.
Qed.

Lemma sample_chain_ids : idsNameTargets Sample.chain_store Sample.chain_bom.
Proof.
  intros rel1 rel2 u v [->| ->]%sample_chain_rels [->| ->]%sample_chain_rels
    Hu Hv Hid; inversion Hu; inversion Hv; subst; try done;
    vm_compute in Hid; discriminate.
Qed.

Lemma no_duplicate_relationship_witness :
  ∃ d,
    buildDocumentSPDX 3 (Sample.world None None None) Sample.chain_store
      Sample.spec Sample.chain_bom = Ret d
    ∧ spdx.Document.Relationships d
      = [spdx.Relationship.mk "SPDXRef-Package-lib-1.0" "CONTAINS"
                              "SPDXRef-File-/usr/bin/hello";
         spdx.Relationship.mk "SPDXRef-Package-app-1.0" "DEPENDS_ON"
                              "SPDXRef-Package-lib-1.0"]
    ∧ NoDup (spdx.Document.Relationships d).
Proof.
  assert (∃ d, buildDocumentSPDX 3 (Sample.world None None None)
                 Sample.chain_store Sample.spec Sample.chain_bom = Ret d)
    as [d Hd].
  { eexists. vm_compute. reflexivity. }
  exists d. split; [exact Hd|]. split.
  - vm_compute in Hd. by inversion Hd; subst d.
  - exact (proj1 (no_duplicate_relationship 3 (Sample.world None None None)
                    Sample.chain_store Sample.spec Sample.chain_bom d
                    sample_chain_ids Hd)).
Defined.

End examples_chain.

(** ** The document of a scanned package *)

(** The graph of a package that [ScanFiles] has scanned: its targets are
    files without relationships, and it is the source of its
    relationships. *)
Lemma scanned_graph `{Libs} (w : World) (dirPath : string) (a : addr)
    (p : pkg.t) (h : heap) (paths : list string) :
  (a < length h)%nat →
  pkg.Relationships p = [] →
  let h' := scanned w dirPath a p h paths in
  let p' := withScanned p (containsRels a (length h) (length paths)) in
  (∀ r, r ∈ roots (bom.mk [p'] []) →
        leafTargets h' (element_Relationships r))
  ∧ (∀ r rel s, r ∈ roots (bom.mk [p'] []) →
                rel ∈ element_Relationships r →
                h' !! relationship.Source rel = Some s →
                ∃ r', r' ∈ roots (bom.mk [p'] [])
                      ∧ element_ID r' = element_ID s).
Proof.
  intros Hlt Hnone h' p'.
  assert (Hrels : ∀ r rel, r ∈ roots (bom.mk [p'] []) →
            rel ∈ element_Relationships r →
            r = EPkg p'
            ∧ relationship.Source rel = a
            ∧ ∃ i path, paths !! i = Some path
                        ∧ relationship.Target rel = (length h + i)%nat).
  { intros r rel ->%list_elem_of_singleton Hrel. split; [done|].
    simpl in Hrel. rewrite Hnone in Hrel. simpl in Hrel.
    apply list_elem_of_fmap in Hrel as (n & -> & Hn). split; [done|].
    apply elem_of_seq in Hn. simpl.
    destruct (lookup_lt_is_Some_2 paths (n - length h)) as [path Hpath];
      [lia|].
    exists (n - length h)%nat, path. split; [done|lia]. }
  split.
  - intros r Hr rel t Hrel Ht.
    destruct (Hrels r rel Hr Hrel) as (_ & _ & i & path & Hi & Htgt).
    rewrite Htgt in Ht. unfold h' in Ht.
    rewrite (scanned_lookup_file w dirPath a p h paths i path Hlt Hi) in Ht.
    inversion Ht; subst t. eexists. split; [done|].
    unfold scannedFile. rewrite digestUnit_eq.
    by destruct (w_files w !! filepath_Join dirPath path).
  - intros r rel s Hr Hrel Hs.
    destruct (Hrels r rel Hr Hrel) as (-> & Hsrc & _).
    exists (EPkg p'). split; [by left|].
    rewrite Hsrc in Hs. unfold h', scanned in Hs.
    rewrite list_lookup_insert_eq in Hs by (rewrite length_app; lia).
    by inversion Hs.
Qed.

(** X20. The document of the pipeline: a package without relationships, as
    [GenerateAPKPackage] returns it, that [ScanFiles] has scanned and that
    [buildDocumentSPDX] lowers as the only top-level element gives a
    document in which no relationship triple occurs twice and which, once
    merged by [ParseBuildSBOM], has no dangling reference, whatever the
    identifiers of the files. *)
Theorem scanned_document_well_formed `{Libs} (fuel : nat) (w : World)
    (completion rangeOrder : list string) (spec : Spec.t) (a : addr)
    (h h' : heap) (p p' : pkg.t) (dirPath : string) (fileList : list string)
    (d d' : spdx.Document.t) :
  w_abs w (Spec.Path spec) = Some dirPath →
  getDirectoryTree w dirPath = Ret fileList →
  h !! a = Some (EPkg p) →
  pkg.Relationships p = [] →
  completion ≡ₚ fileList →
  NoDup rangeOrder →
  (∀ k, k ∈ rangeOrder ↔ k ∈ completion) →
  ScanFiles w completion rangeOrder spec a h = (Ret (), h') →
  h' !! a = Some (EPkg p') →
  buildDocumentSPDX fuel w h' spec (bom.mk [p'] []) = Ret d →
  ParseBuildSBOM w spec d = Ret d' →
  NoDup (spdx.Document.Relationships d) ∧ noDangling d'.
Proof.
  intros Habs Htree Ha Hnone Hperm Hnd Hkeys Hrun Hp' Hbuild Hmerge.
  pose proof (lookup_lt_Some _ _ _ Ha) as Hlt.
  assert (Herrs : (storeAll w dirPath completion).2 = []).
  { rewrite (ScanFiles_unfold w completion rangeOrder spec a h p dirPath
               fileList) in Hrun by done.
    by destruct ((storeAll w dirPath completion).2). }
  rewrite (ScanFiles_scanned w completion rangeOrder spec a h p dirPath
             fileList) in Hrun by done.
  inversion Hrun; subst h'. clear Hrun.
  set (paths := sort_Strings (remove_dups fileList)) in *.
  assert (p' = withScanned p (containsRels a (length h) (length paths)))
    as ->.
  { unfold scanned in Hp'.
    rewrite list_lookup_insert_eq in Hp' by (rewrite length_app; lia).
    by inversion Hp'. }
  destruct (scanned_graph w dirPath a p h paths Hlt Hnone) as [Hleaf Hsrc].
  split.
  - eapply buildDocumentSPDX_NoDup; [|exact Hbuild].
    by apply leaf_graph_idsNameTargets.
  - eapply ParseBuildSBOM_noDangling; [|exact Hmerge].
    eapply buildDocumentSPDX_closed; [| |exact Hbuild].
    + by apply leaf_graph_idsNameTargets.
    + by apply leaf_graph_sourcesInGraph.
Qed.

Section examples_pipeline.
#[local] Existing Instance Sample.decoding.

Lemma sample_rangeOrder :
  NoDup ["/usr/share/doc/README"; "/usr/bin/hello"].
Proof. apply (bool_decide_unpack _). vm_compute. exact I. Qed.

Lemma scanned_document_well_formed_witness :
  ∃ d d',
    ScanFiles Sample.scan_world
      ["/usr/share/doc/README"; "/usr/bin/hello"]
      ["/usr/share/doc/README"; "/usr/bin/hello"]
      Sample.spec 0 [EPkg Sample.apk] = (Ret (), Sample.scanned_store)
    ∧ Sample.scanned_store !! 0%nat = Some (EPkg Sample.scanned_apk)
    ∧ buildDocumentSPDX 2 Sample.scan_world Sample.scanned_store Sample.spec
        (bom.mk [Sample.scanned_apk] []) = Ret d
    ∧ ParseBuildSBOM Sample.scan_world Sample.spec d = Ret d'
    ∧ length (spdx.Document.Relationships d') = 3%nat
    ∧ NoDup (spdx.Document.Relationships d)
    ∧ noDangling d'.
Proof.
  assert (Hrun : ScanFiles Sample.scan_world
                   ["/usr/share/doc/README"; "/usr/bin/hello"]
                   ["/usr/share/doc/README"; "/usr/bin/hello"]
                   Sample.spec 0 [EPkg Sample.apk]
                 = (Ret (), Sample.scanned_store))
    by (vm_compute; reflexivity).
  assert (Hp' : Sample.scanned_store !! 0%nat
                = Some (EPkg Sample.scanned_apk))
    by (vm_compute; reflexivity).
  exists (Sample.returned Sample.blank
            (buildDocumentSPDX 2 Sample.scan_world Sample.scanned_store
               Sample.spec (bom.mk [Sample.scanned_apk] []))).
  exists (Sample.returned Sample.blank
            (ParseBuildSBOM Sample.scan_world Sample.spec
               (Sample.returned Sample.blank
                  (buildDocumentSPDX 2 Sample.scan_world Sample.scanned_store
                     Sample.spec (bom.mk [Sample.scanned_apk] []))))).
  assert (Hd : buildDocumentSPDX 2 Sample.scan_world Sample.scanned_store
                 Sample.spec (bom.mk [Sample.scanned_apk] [])
               = Ret (Sample.returned Sample.blank
                        (buildDocumentSPDX 2 Sample.scan_world
                           Sample.scanned_store Sample.spec
                           (bom.mk [Sample.scanned_apk] []))))
    by (vm_compute; reflexivity).
  assert (Hd' : ParseBuildSBOM Sample.scan_world Sample.spec
                  (Sample.returned Sample.blank
                     (buildDocumentSPDX 2 Sample.scan_world
                        Sample.scanned_store Sample.spec
                        (bom.mk [Sample.scanned_apk] [])))
                = Ret (Sample.returned Sample.blank
                         (ParseBuildSBOM Sample.scan_world Sample.spec
                            (Sample.returned Sample.blank
                               (buildDocumentSPDX 2 Sample.scan_world
                                  Sample.scanned_store Sample.spec
                                  (bom.mk [Sample.scanned_apk] []))))))
    by (vm_compute; reflexivity).
  split; [exact Hrun|]. split; [exact Hp'|].
  split; [exact Hd|]. split; [exact Hd'|].
  split; [vm_compute; reflexivity|].
  exact (scanned_document_well_formed 2 Sample.scan_world
           ["/usr/share/doc/README"; "/usr/bin/hello"]
           ["/usr/share/doc/README"; "/usr/bin/hello"]
           Sample.spec 0 [EPkg Sample.apk] Sample.scanned_store Sample.apk
           Sample.scanned_apk "/work"
           ["/usr/bin/hello"; "/usr/share/doc/README"] _ _
           eq_refl sample_tree eq_refl eq_refl (perm_swap _ _ _)
           sample_rangeOrder (λ k, iff_refl _) Hrun Hp' Hd Hd').
Defined.

End examples_pipeline.
